(** * DocuCraft web editor: a shallow embedding of its three front-end modules

    The development follows the JavaScript sources
    - [assets/js/editor.js]  (editor controller),
    - [assets/js/storage.js] (persistence manager; delivered inside export.js),
    - [assets/js/import.js]  (DOCX import, only its hand-over to the editor),
    - [assets/js/export.js]  (PDF export pipeline).

    The page is modelled as one [World] value: the event loop (clock and
    pending timers), the browser key-value store, the part of the DOM the
    scripts touch, what the user sees (dialogs, console, downloads), and the
    module-level variables of the scripts.  Every JavaScript function becomes
    a computation in a state-and-exception monad over [World]; [throw] and
    [try_catch] are the JavaScript [throw] and [try]/[catch].

    External collaborators are modelled by their interface only:
    - the rich-text engine (Quill) by its content, its undo/redo stacks and
      its list of [text-change] listeners; what [setContents] makes of the
      value it is given is left to the class [Quill];
    - [JSON.stringify]/[JSON.parse] by the class [JSON];
    - the rasteriser and the PDF library by the [render_oracle] carried by an
      export click, which fixes what each library call returns or throws;
    - timers by an ideal event loop with a granularity of one millisecond;
    - the user in front of a modal dialog by [dwell]: the time each dialog
      stays open, during which the clock runs and no timer fires. *)

From stdpp Require Import base gmap strings list pretty.
From Stdlib Require Import ZArith QArith Lia.

Set Warnings "-register-all".

Local Open Scope Z_scope.
Local Open Scope string_scope.
Local Open Scope list_scope.

(** ** JavaScript values used by the scripts *)

(** An [Error] object: the scripts only read [name] and [message]. *)
Record js_error := mkError { name : string; message : string }.

Definition TypeError (m : string) : js_error := mkError "TypeError" m.
Definition SyntaxError (m : string) : js_error := mkError "SyntaxError" m.
Definition Error (m : string) : js_error := mkError "Error" m.
Definition NotFoundError (m : string) : js_error := mkError "NotFoundError" m.

(** [e instanceof SyntaxError] *)
Definition instanceof_SyntaxError (e : js_error) : bool :=
  bool_decide (name e = "SyntaxError").

(** What a library call does: it returns a value or throws. *)
Inductive result (A : Type) : Type :=
| Returns (a : A)
| Raises (e : js_error).
Arguments Returns {A} a.
Arguments Raises {A} e.

(** *** Strings: [length], [trim], [split(/\s+/)], [includes]

    A JavaScript string is held as the bytes of its UTF-8 encoding, which is
    how the string literals of this file are stored.  [js_chars] reads the
    bytes as characters, each with its code point and the bytes that encode
    it; a byte that does not begin a well-formed sequence is read as the
    replacement character U+FFFD. *)

Definition byte (b : Ascii.ascii) : N := Ascii.N_of_ascii b.

(** A continuation byte of a multi-byte sequence. *)
Definition is_cont (b : Ascii.ascii) : bool := ((128 <=? byte b) && (byte b <? 192))%N.

(** The six bits a continuation byte carries. *)
Definition tail6 (b : Ascii.ascii) : N := (byte b - 128)%N.

Definition replacement : N * nat := (65533%N, 0%nat).

(** The character that begins with the byte [b], followed by [rest]: its
    code point, and the number of bytes of [rest] that belong to it. *)
Definition head_char (b : Ascii.ascii) (rest : string) : N * nat :=
  let n := byte b in
  if (n <? 128)%N then (n, 0%nat)
  else if (n <? 192)%N then replacement
  else if (n <? 224)%N then
    match rest with
    | String b1 _ =>
        if is_cont b1 then (((n - 192) * 64 + tail6 b1)%N, 1%nat) else replacement
    | _ => replacement
    end
  else if (n <? 240)%N then
    match rest with
    | String b1 (String b2 _) =>
        if is_cont b1 && is_cont b2
        then ((((n - 224) * 64 + tail6 b1) * 64 + tail6 b2)%N, 2%nat)
        else replacement
    | _ => replacement
    end
  else if (n <? 248)%N then
    match rest with
    | String b1 (String b2 (String b3 _)) =>
        if is_cont b1 && is_cont b2 && is_cont b3
        then (((((n - 240) * 64 + tail6 b1) * 64 + tail6 b2) * 64 + tail6 b3)%N, 3%nat)
        else replacement
    | _ => replacement
    end
  else replacement.

(** A character of a string: its code point and its bytes. *)
Definition jchar : Type := N * string.

(** The characters of [s], the first [skip] bytes left out. *)
Fixpoint js_chars_from (skip : nat) (s : string) : list jchar :=
  match s with
  | EmptyString => []
  | String b rest =>
      match skip with
      | S k => js_chars_from k rest
      | O =>
          let c := head_char b rest in
          (fst c, String b (String.substring 0 (snd c) rest)) :: js_chars_from (snd c) rest
      end
  end.

Definition js_chars (s : string) : list jchar := js_chars_from 0 s.

(** The string a list of characters spells. *)
Definition text_of (l : list jchar) : string :=
  List.fold_right (fun c acc => snd c +:+ acc) EmptyString l.

(** [s.length]: the number of UTF-16 code units, two for a character beyond
    the Basic Multilingual Plane. *)
Definition units (cp : N) : nat := if (cp <? 65536)%N then 1%nat else 2%nat.

Definition js_length (s : string) : nat :=
  list_sum (List.map (fun c : jchar => units (fst c)) (js_chars s)).

(** White space as removed by [trim] and matched by [\s]: the ECMAScript
    WhiteSpace and LineTerminator characters TAB, LF, VT, FF, CR, SPACE,
    U+00A0, U+1680, U+2000 to U+200A, U+2028, U+2029, U+202F, U+205F, U+3000
    and U+FEFF. *)
Definition is_space (cp : N) : bool :=
  (((9 <=? cp) && (cp <=? 13)) || (cp =? 32) || (cp =? 160) || (cp =? 5760)
   || ((8192 <=? cp) && (cp <=? 8202)) || (cp =? 8232) || (cp =? 8233)
   || (cp =? 8239) || (cp =? 8287) || (cp =? 12288) || (cp =? 65279))%N.

Fixpoint drop_spaces (l : list jchar) : list jchar :=
  match l with
  | c :: l' => if is_space (fst c) then drop_spaces l' else l
  | [] => []
  end.

(** The characters left when the white space at both ends is removed. *)
Definition trim_chars (l : list jchar) : list jchar :=
  List.rev (drop_spaces (List.rev (drop_spaces l))).

(** [s.trim()] *)
Definition trim (s : string) : string := text_of (trim_chars (js_chars s)).

(** [s.split(/\s+/)]: the pieces between maximal runs of white space.  A
    leading or trailing run yields an empty piece, and the empty string
    yields one empty piece, as in JavaScript.  [cur] is the piece being read,
    [in_run] tells whether the previous character was white space. *)
Fixpoint split_chars (cur : string) (in_run : bool) (l : list jchar) : list string :=
  match l with
  | [] => [cur]
  | c :: l' =>
      if is_space (fst c)
      then if in_run then split_chars cur true l'
           else cur :: split_chars EmptyString true l'
      else split_chars (cur +:+ snd c) false l'
  end.

Definition split_ws (s : string) : list string := split_chars EmptyString false (js_chars s).

(** [pieces.filter(w => w.length > 0)] *)
Definition nonempty_words (pieces : list string) : list string :=
  List.filter (fun p => Nat.ltb 0 (js_length p)) pieces.

(** [hay.includes(needle)] *)
Fixpoint includes (hay needle : string) : bool :=
  String.prefix needle hay ||
  match hay with
  | EmptyString => false
  | String _ hay' => includes hay' needle
  end.

(** *** JSON values, property access and truthiness *)

Inductive json : Type :=
| JNull
| JBool (b : bool)
| JNum (n : Z)
| JStr (s : string)
| JArr (items : list json)
| JObj (fields : list (string * json)).

(** The first field called [k] of an object literal. *)
Fixpoint assoc (k : string) (fields : list (string * json)) : option json :=
  match fields with
  | [] => None
  | (k', v) :: rest => if String.eqb k k' then Some v else assoc k rest
  end.

(** [v.k] for a value that came out of [JSON.parse].  [None] stands for
    [undefined]; reading a property of [null] throws a [TypeError].  The
    scripts read [content], [ops] and [timestamp] only, which no array, string,
    number or boolean has. *)
Definition get_prop (v : json) (k : string) : result (option json) :=
  match v with
  | JNull => Raises (TypeError ("Cannot read properties of null (reading '" +:+ k +:+ "')"))
  | JObj fields => Returns (assoc k fields)
  | _ => Returns None
  end.

(** [v.k] when [v] itself may be [undefined]. *)
Definition get_prop_opt (v : option json) (k : string) : result (option json) :=
  match v with
  | None => Raises (TypeError ("Cannot read properties of undefined (reading '" +:+ k +:+ "')"))
  | Some j => get_prop j k
  end.

(** JavaScript truthiness; [None] is [undefined]. *)
Definition truthy (v : option json) : bool :=
  match v with
  | None | Some JNull => false
  | Some (JBool b) => b
  | Some (JNum n) => negb (Z.eqb n 0)
  | Some (JStr s) => negb (String.eqb s EmptyString)
  | Some (JArr _) | Some (JObj _) => true
  end.

(** [JSON.stringify] and [JSON.parse] of the browser.  [JSON_parse] returns
    [None] where the browser throws a [SyntaxError]. *)
Class JSON := {
  JSON_stringify : json -> string;
  JSON_parse : string -> option json
}.

(** ** The rich-text engine (external collaborator) *)

(** The engine's operational content: an ordered sequence of operations, each
    a JSON object such as [{"insert": "Hello", "attributes": {"bold": true}}]. *)
Definition Delta := list json.

(** [getText()]: the string inserts, concatenated; embeds are skipped. *)
Definition op_text (op : json) : string :=
  match op with
  | JObj fields =>
      match assoc "insert" fields with
      | Some (JStr s) => s
      | _ => EmptyString
      end
  | _ => EmptyString
  end.

Definition delta_text (d : Delta) : string :=
  List.fold_right (fun op acc => op_text op +:+ acc) EmptyString d.

(** The Delta as [JSON.stringify] sees it: an object with one field [ops]. *)
Definition delta_to_json (d : Delta) : json := JObj [("ops", JArr d)].

(** [new Delta(x)], as done by [setContents(x)]: an array is the list of
    operations, an object with an array [ops] yields that array, anything else
    the empty Delta. *)
Definition delta_of_json (x : json) : Delta :=
  match x with
  | JArr l => l
  | JObj fields =>
      match assoc "ops" fields with
      | Some (JArr l) => l
      | _ => []
      end
  | _ => []
  end.

(** [setContents(x)] of the engine: the document the engine holds afterwards,
    or the error it throws.  The engine parses the operations of [x], brings
    them to its normal form and always keeps a final line break; operations it
    cannot read make it throw. *)
Class Quill := {
  Quill_setContents : json -> result Delta
}.

(** The two sources of a change the engine distinguishes. *)
Inductive source := SrcUser | SrcApi.

(** The listeners the scripts register with [quill.on('text-change', ...)]:
    [WordCountListener] in [initializeEditor], [AutosaveListener] in
    [setupStorageListeners]. *)
Inductive listener := WordCountListener | AutosaveListener.

(** History options given to the constructor in [initializeEditor]. *)
Definition history_delay : Z := 1000.
Definition history_maxStack : nat := 100.

(** The engine instance.  The undo and redo stacks hold the contents to go
    back (or forward) to, most recent first. *)
Record Engine := mkEngine {
  contents : Delta;
  undo_stack : list Delta;
  redo_stack : list Delta;
  lastRecorded : Z;
  listeners : list listener
}.

(** ** The rasteriser and the PDF library (external collaborators) *)

(** An image placed on a page by [addImage(data, 'JPEG', x, y, w, h)], in mm. *)
Record placed_image := mkPlaced { img_x : Q; img_y : Q; img_w : Q; img_h : Q }.

(** A document of the PDF library: its pages, each with the images on it. *)
Record pdf_doc := mkPdf { pages : list (list placed_image) }.

(** What the libraries do during one export: how long the rasteriser takes,
    the canvas it returns (width and height in pixels) or the error it rejects
    with, and what the later calls return or throw. *)
Record render_oracle := mkOracle {
  settle_ms : positive;
  canvas_result : result (Z * Z);
  dataurl_result : result string;
  jspdf_result : result (Q * Q);
  addImage_fault : option js_error;
  save_fault : option js_error
}.

(** ** The page *)

(** The functions handed to [setTimeout], and the points where the [async]
    export handler is resumed. *)
Inductive callback :=
| CbStorageInit (clear_ok : bool)
| CbStorageInitRetry (clear_ok : bool)
| CbPerformAutosave
| CbStatusReady
| CbWordCount
| CbTriggerAutosave
| CbExportRendered (o : render_oracle) (overlay wrapper : nat)
| CbExportCanvas (o : render_oracle) (overlay wrapper : nat)
| CbExportCleanup (overlay wrapper : nat).

Record timer := mkTimer { tid : positive; due : Z; cb : callback }.

(** The event loop: [Date.now()], the pending timers in the order they were
    set, and the next timer id ([setTimeout] never returns 0). *)
Record Loop := mkLoop {
  now : Z;
  timers : list timer;
  next_timer : positive
}.

(** [localStorage]: its items, and how it fails.  [store_denied] makes every
    access throw (storage blocked); [store_write_fault] makes [setItem] throw
    (typically a [QuotaExceededError]). *)
Record Storage := mkStorage {
  store_items : gmap string string;
  store_denied : option js_error;
  store_write_fault : option js_error
}.

(** The part of the DOM the scripts change: the children appended to
    [document.body], the export button, the two footer texts, and the
    [dark-mode] class of the body. *)
Record Page := mkPage {
  body : list nat;
  next_node : nat;
  exportBtn_disabled : bool;
  exportBtn_text : string;
  autoSaveStatus : string;
  wordCount : string;
  dark_mode : bool
}.

Inductive dialog :=
| Alert (text : string)
| Confirm (text : string) (answer : bool).

Inductive level := LLog | LWarn | LError.

(** Invocations recorded for the timing statements (a history variable, not
    a variable of the scripts). *)
Inductive call :=
| CallPerformSave (automatic : bool)
| CallUpdateWordCount.

(** What leaves the page: dialogs, console lines, downloaded files, and the
    exceptions no handler caught. *)
Record Output := mkOutput {
  dialogs : list dialog;
  console : list (level * string);
  downloads : list (string * pdf_doc);
  uncaught : list js_error;
  calls : list (Z * call)
}.

(** The module-level variables: [quill] and [wordCountTimer] of editor.js,
    [autosaveTimer] and [isAutosaveEnabled] of storage.js. *)
Record Vars := mkVars {
  quill : option Engine;
  wordCountTimer : option positive;
  autosaveTimer : option positive;
  isAutosaveEnabled : bool
}.

(** [dwell k] is the time in ms the user takes to dismiss the dialog that
    [k] dialogs have preceded. *)
Record World := mkWorld {
  loop : Loop;
  storage : Storage;
  page : Page;
  out : Output;
  vars : Vars;
  dwell : nat -> nat
}.

(** Field updates. *)
Definition upd_loop (f : Loop -> Loop) (w : World) : World :=
  mkWorld (f (loop w)) (storage w) (page w) (out w) (vars w) (dwell w).
Definition upd_storage (f : Storage -> Storage) (w : World) : World :=
  mkWorld (loop w) (f (storage w)) (page w) (out w) (vars w) (dwell w).
Definition upd_page (f : Page -> Page) (w : World) : World :=
  mkWorld (loop w) (storage w) (f (page w)) (out w) (vars w) (dwell w).
Definition upd_out (f : Output -> Output) (w : World) : World :=
  mkWorld (loop w) (storage w) (page w) (f (out w)) (vars w) (dwell w).
Definition upd_vars (f : Vars -> Vars) (w : World) : World :=
  mkWorld (loop w) (storage w) (page w) (out w) (f (vars w)) (dwell w).
Definition set_dwell (f : nat -> nat) (w : World) : World :=
  mkWorld (loop w) (storage w) (page w) (out w) (vars w) f.

Definition set_now (t : Z) (l : Loop) : Loop := mkLoop t (timers l) (next_timer l).
Definition set_timers (ts : list timer) (l : Loop) : Loop := mkLoop (now l) ts (next_timer l).
Definition set_next_timer (n : positive) (l : Loop) : Loop := mkLoop (now l) (timers l) n.

Definition set_items (m : gmap string string) (s : Storage) : Storage :=
  mkStorage m (store_denied s) (store_write_fault s).

Definition set_body (v : list nat) (p : Page) : Page :=
  mkPage v (next_node p) (exportBtn_disabled p) (exportBtn_text p) (autoSaveStatus p) (wordCount p) (dark_mode p).
Definition set_next_node (v : nat) (p : Page) : Page :=
  mkPage (body p) v (exportBtn_disabled p) (exportBtn_text p) (autoSaveStatus p) (wordCount p) (dark_mode p).
Definition set_exportBtn_disabled (v : bool) (p : Page) : Page :=
  mkPage (body p) (next_node p) v (exportBtn_text p) (autoSaveStatus p) (wordCount p) (dark_mode p).
Definition set_exportBtn_text (v : string) (p : Page) : Page :=
  mkPage (body p) (next_node p) (exportBtn_disabled p) v (autoSaveStatus p) (wordCount p) (dark_mode p).
Definition set_autoSaveStatus (v : string) (p : Page) : Page :=
  mkPage (body p) (next_node p) (exportBtn_disabled p) (exportBtn_text p) v (wordCount p) (dark_mode p).
Definition set_wordCount (v : string) (p : Page) : Page :=
  mkPage (body p) (next_node p) (exportBtn_disabled p) (exportBtn_text p) (autoSaveStatus p) v (dark_mode p).
Definition set_dark_mode (v : bool) (p : Page) : Page :=
  mkPage (body p) (next_node p) (exportBtn_disabled p) (exportBtn_text p) (autoSaveStatus p) (wordCount p) v.

Definition add_dialog (d : dialog) (o : Output) : Output :=
  mkOutput (dialogs o ++ [d]) (console o) (downloads o) (uncaught o) (calls o).
Definition add_console (l : level) (s : string) (o : Output) : Output :=
  mkOutput (dialogs o) (console o ++ [(l, s)]) (downloads o) (uncaught o) (calls o).
Definition add_download (f : string) (d : pdf_doc) (o : Output) : Output :=
  mkOutput (dialogs o) (console o) (downloads o ++ [(f, d)]) (uncaught o) (calls o).
Definition add_uncaught (e : js_error) (o : Output) : Output :=
  mkOutput (dialogs o) (console o) (downloads o) (uncaught o ++ [e]) (calls o).
Definition add_call (t : Z) (c : call) (o : Output) : Output :=
  mkOutput (dialogs o) (console o) (downloads o) (uncaught o) (calls o ++ [(t, c)]).

Definition set_quill (q : option Engine) (v : Vars) : Vars :=
  mkVars q (wordCountTimer v) (autosaveTimer v) (isAutosaveEnabled v).
Definition set_wordCountTimer (t : option positive) (v : Vars) : Vars :=
  mkVars (quill v) t (autosaveTimer v) (isAutosaveEnabled v).
Definition set_autosaveTimer (t : option positive) (v : Vars) : Vars :=
  mkVars (quill v) (wordCountTimer v) t (isAutosaveEnabled v).
Definition set_isAutosaveEnabled (b : bool) (v : Vars) : Vars :=
  mkVars (quill v) (wordCountTimer v) (autosaveTimer v) b.

(** ** The monad of the scripts: state [World], exceptions [js_error] *)

Inductive Res (A : Type) : Type :=
| Ok (a : A) (w : World)
| Threw (e : js_error) (w : World).
Arguments Ok {A} a w.
Arguments Threw {A} e w.

Definition M (A : Type) : Type := World -> Res A.

Definition ret {A} (a : A) : M A := fun w => Ok a w.

Definition bind {A B} (c : M A) (k : A -> M B) : M B :=
  fun w => match c w with
           | Ok a w' => k a w'
           | Threw e w' => Threw e w'
           end.

(** [throw e] *)
Definition throw {A} (e : js_error) : M A := fun w => Threw e w.

(** [try { c } catch (error) { h error }] *)
Definition try_catch {A} (c : M A) (h : js_error -> M A) : M A :=
  fun w => match c w with
           | Ok a w' => Ok a w'
           | Threw e w' => h e w'
           end.

Definition get : M World := fun w => Ok w w.
Definition modify (f : World -> World) : M unit := fun w => Ok tt (f w).

(** The value a library call returns, or the exception it throws. *)
Definition lift_result {A} (r : result A) : M A :=
  match r with
  | Returns a => ret a
  | Raises e => throw e
  end.

Definition throw_if (f : option js_error) : M unit :=
  match f with
  | Some e => throw e
  | None => ret tt
  end.

Declare Scope js_scope.
Delimit Scope js_scope with js.
Notation "'let!' x ':=' c 'in' k" := (bind c (fun x => k))
  (at level 10, x name, c at level 100, k at level 200) : js_scope.
Notation "c ';;' k" := (bind c (fun _ => k))
  (at level 100, k at level 200, right associativity) : js_scope.
Local Open Scope js_scope.

(** The world a computation ends in, thrown or not. *)
Definition world_of {A} (r : Res A) : World :=
  match r with
  | Ok _ w => w
  | Threw _ w => w
  end.

Definition thrown {A} (r : Res A) : option js_error :=
  match r with
  | Ok _ _ => None
  | Threw e _ => Some e
  end.

(** ** Browser primitives *)

(** The time the next dialog will stay open. *)
Definition dialog_ms (w : World) : Z :=
  Z.of_nat (dwell w (List.length (dialogs (out w)))).

(** The page after the dialog [d] has been shown and dismissed: the clock
    ran while it was open. *)
Definition shown (d : dialog) (w : World) : World :=
  upd_loop (fun l => set_now (now l + dialog_ms w) l) (upd_out (add_dialog d) w).

(** A modal dialog: the script waits until the user has dismissed it, and no
    timer fires before the script has returned. *)
Definition open_dialog (d : dialog) : M unit := modify (shown d).

(** [alert(text)] *)
Definition alert (text : string) : M unit := open_dialog (Alert text).

(** [confirm(text)]: the dialog is shown and the user's [answer] returned. *)
Definition confirm (text : string) (answer : bool) : M bool :=
  open_dialog (Confirm text answer) ;; ret answer.

Definition console_log (s : string) : M unit := modify (upd_out (add_console LLog s)).
Definition console_warn (s : string) : M unit := modify (upd_out (add_console LWarn s)).
Definition console_error (s : string) : M unit := modify (upd_out (add_console LError s)).

(** How the console prints an error object. *)
Definition show_error (e : js_error) : string := name e +:+ ": " +:+ message e.

Definition Date_now : M Z := let! w := get in ret (now (loop w)).

(** [setTimeout(c, delay)]: a new timer, due [delay] ms from now. *)
Definition setTimeout (c : callback) (delay : Z) : M positive :=
  fun w =>
    let l := loop w in
    let id := next_timer l in
    Ok id (upd_loop (fun l => mkLoop (now l)
                                     (timers l ++ [mkTimer id (now l + delay) c])
                                     (Pos.succ id)) w).

(** [clearTimeout(id)]: the timer is dropped if it is still pending. *)
Definition clearTimeout (id : positive) : M unit :=
  modify (upd_loop (fun l =>
    set_timers (List.filter (fun t => negb (Pos.eqb (tid t) id)) (timers l)) l)).

(** The [if (timer) clearTimeout(timer)] of the two debouncers. *)
Definition clear_if_set (t : option positive) : M unit :=
  match t with
  | Some id => clearTimeout id
  | None => ret tt
  end.

Definition localStorage_getItem (k : string) : M (option string) :=
  let! w := get in
  throw_if (store_denied (storage w)) ;;
  ret (store_items (storage w) !! k).

Definition localStorage_setItem (k v : string) : M unit :=
  let! w := get in
  throw_if (store_denied (storage w)) ;;
  throw_if (store_write_fault (storage w)) ;;
  modify (upd_storage (fun s => set_items (<[k := v]> (store_items s)) s)).

Definition localStorage_removeItem (k : string) : M unit :=
  let! w := get in
  throw_if (store_denied (storage w)) ;;
  modify (upd_storage (fun s => set_items (delete k (store_items s)) s)).

(** [!s] for the value [getItem] returned: [null] and the empty string are
    falsy. *)
Definition string_truthy (s : option string) : bool :=
  match s with
  | None => false
  | Some s => negb (String.eqb s EmptyString)
  end.

(** [document.createElement("div")]: a node that is not in the page yet. *)
Definition createElement : M nat :=
  fun w => Ok (next_node (page w))
              (upd_page (fun p => set_next_node (S (next_node p)) p) w).

(** [document.body.appendChild(n)] *)
Definition appendChild (n : nat) : M unit :=
  modify (upd_page (fun p => set_body (body p ++ [n]) p)).

(** [n.parentNode] is not null: the nodes made here only ever hang under
    [document.body]. *)
Definition has_parent (n : nat) : M bool :=
  let! w := get in ret (existsb (Nat.eqb n) (body (page w))).

(** [document.body.removeChild(n)] throws when [n] is not a child. *)
Definition removeChild (n : nat) : M unit :=
  let! attached := has_parent n in
  if attached
  then modify (upd_page (fun p =>
         set_body (List.filter (fun m => negb (Nat.eqb m n)) (body p)) p))
  else throw (NotFoundError "Failed to execute 'removeChild' on 'Node': The node to be removed is not a child of this node.").

(** ** The engine's interface *)

Definition LF : string := String (Ascii.ascii_of_nat 10) EmptyString.

(** The content of an empty editor: one line break. *)
Definition blank_document : Delta := [JObj [("insert", JStr LF)]].

Fixpoint ends_with_LF (s : string) : bool :=
  match s with
  | EmptyString => false
  | String c EmptyString => Nat.eqb (Ascii.nat_of_ascii c) 10
  | String _ s' => ends_with_LF s'
  end.

(** The content [setText(s)] produces: the text, closed by a line break. *)
Definition text_delta (s : string) : Delta :=
  [JObj [("insert", JStr (if ends_with_LF s then s else s +:+ LF))]].

(** [new Quill(...)]: an empty editor with no history and no listener. *)
Definition new_engine : Engine := mkEngine blank_document [] [] 0 [].

(** Any method call on [quill]: a [TypeError] while it is still [null]. *)
Definition the_quill : M Engine :=
  let! w := get in
  match quill (vars w) with
  | Some q => ret q
  | None => throw (TypeError "Cannot read properties of null")
  end.

Definition put_quill (q : Engine) : M unit :=
  modify (upd_vars (set_quill (Some q))).

Definition quill_getContents : M Delta := let! q := the_quill in ret (contents q).
Definition quill_getText : M string := let! q := the_quill in ret (delta_text (contents q)).

(** The history module with [userOnly: true]: a user change is recorded,
    merged into the latest entry when it follows it within [delay] ms, and the
    oldest entry is dropped beyond [maxStack]; a change made through the API
    leaves the stacks alone. *)
Definition history_record (t : Z) (src : source) (q : Engine) : Engine :=
  match src with
  | SrcApi => q
  | SrcUser =>
      if Z.ltb t (lastRecorded q + history_delay)
         && negb (Nat.eqb (List.length (undo_stack q)) 0)
      then mkEngine (contents q) (undo_stack q) [] (lastRecorded q) (listeners q)
      else mkEngine (contents q)
                    (firstn history_maxStack (contents q :: undo_stack q))
                    [] t (listeners q)
  end.

(** [quill.history.clear()]: both stacks are emptied. *)
Definition history_clear : M unit :=
  let! q := the_quill in
  put_quill (mkEngine (contents q) [] [] (lastRecorded q) (listeners q)).

(** ** editor.js: word count *)

(** [updateWordCount()] *)
Definition updateWordCount : M unit :=
  let! w := get in
  match quill (vars w) with
  | None => console_warn "⚠️ Cannot update word count: Quill not initialized yet"
  | Some q =>
      modify (upd_out (add_call (now (loop w)) CallUpdateWordCount)) ;;
      let text := delta_text (contents q) in
      let words := nonempty_words (split_ws (trim text)) in
      let wordCount := List.length words in
      let charCount := js_length (trim text) in
      modify (upd_page (set_wordCount
        ("Words: " +:+ pretty wordCount +:+ " | Characters: " +:+ pretty charCount)))
  end.

(** [debouncedWordCountUpdate()]: no function of the scripts calls it. *)
Definition debouncedWordCountUpdate : M unit :=
  let! w := get in
  clear_if_set (wordCountTimer (vars w)) ;;
  let! id := setTimeout CbWordCount 300 in
  modify (upd_vars (set_wordCountTimer (Some id))).

(** ** storage.js: status line, save, autosave *)

Definition STORAGE_KEY : string := "smartDocEditor_content".
Definition AUTOSAVE_DELAY : Z := 2000.

Inductive status := St_ready | St_pending | St_saved | St_loaded | St_error | St_disabled.

Definition statusMessages (s : status) : string :=
  match s with
  | St_ready => "Autosave: Ready"
  | St_pending => "Autosave: Saving..."
  | St_saved => "Autosave: ✓ Saved"
  | St_loaded => "Autosave: ✓ Loaded"
  | St_error => "Autosave: ⚠ Error"
  | St_disabled => "Autosave: Off (empty doc)"
  end.

(** [updateAutosaveStatus(status)] *)
Definition updateAutosaveStatus (s : status) : M unit :=
  modify (upd_page (set_autoSaveStatus (statusMessages s))) ;;
  match s with
  | St_saved | St_loaded => let! _ := setTimeout CbStatusReady 3000 in ret tt
  | _ => ret tt
  end.

Definition quota_message : string :=
  "Storage quota exceeded! Please clear some browser data or export your document.".
Definition generic_save_message : string :=
  "Failed to save document. Please try again.".

(** [handleSaveError(error, isAutomatic)] *)
Definition handleSaveError (error : js_error) (isAutomatic : bool) : M unit :=
  console_error ("❌ Save failed: " +:+ show_error error) ;;
  if String.eqb (name error) "QuotaExceededError"
  then (if negb isAutomatic then alert quota_message else ret tt) ;;
       updateAutosaveStatus St_error
  else (if negb isAutomatic then alert generic_save_message else ret tt) ;;
       updateAutosaveStatus St_error.

(** The Save Record [{content, timestamp, version, wordCount}]. *)
Definition saveData (content : Delta) (timestamp : Z) (text : string) : json :=
  JObj [("content", delta_to_json content);
        ("timestamp", JNum timestamp);
        ("version", JStr "1.0");
        ("wordCount", JNum (Z.of_nat (List.length (nonempty_words (split_ws text)))))].

Section Scripts.
Context {json_lib : JSON} {quill_lib : Quill}.

(** The body of [performSave(isAutomatic)]. *)
Definition performSave_body (isAutomatic : bool) : M unit :=
  try_catch
    (let! content := quill_getContents in
     let! raw := quill_getText in
     let text := trim raw in
     if Nat.eqb (js_length text) 0 && isAutomatic
     then console_log "⚠️ Empty document, skipping autosave" ;;
          updateAutosaveStatus St_disabled
     else
       let! t := Date_now in
       localStorage_setItem STORAGE_KEY (JSON_stringify (saveData content t text)) ;;
       if isAutomatic
       then updateAutosaveStatus St_saved ;;
            console_log ("💾 Autosaved at " +:+ pretty t)
       else updateAutosaveStatus St_saved ;;
            alert "✅ Document saved successfully!" ;;
            console_log ("💾 Manual save at " +:+ pretty t))
    (fun error => handleSaveError error isAutomatic).

(** [performSave(isAutomatic)]: the call is recorded with its time, then
    the body runs. *)
Definition performSave (isAutomatic : bool) : M unit :=
  let! t0 := Date_now in
  modify (upd_out (add_call t0 (CallPerformSave isAutomatic))) ;;
  performSave_body isAutomatic.

(** [manualSave()] *)
Definition manualSave : M unit := performSave false.

(** [triggerAutosave()] *)
Definition triggerAutosave : M unit :=
  let! w := get in
  if negb (isAutosaveEnabled (vars w)) then ret tt
  else
    clear_if_set (autosaveTimer (vars w)) ;;
    let! id := setTimeout CbPerformAutosave AUTOSAVE_DELAY in
    modify (upd_vars (set_autosaveTimer (Some id))) ;;
    updateAutosaveStatus St_pending.

(** ** The engine's change notification and its mutators *)

(** The bodies of the two [text-change] listeners. *)
Definition run_listener (src : source) (l : listener) : M unit :=
  match l with
  | WordCountListener => updateWordCount
  | AutosaveListener =>
      match src with
      | SrcUser => triggerAutosave
      | SrcApi => ret tt
      end
  end.

Fixpoint run_listeners (src : source) (ls : list listener) : M unit :=
  match ls with
  | [] => ret tt
  | l :: rest => run_listener src l ;; run_listeners src rest
  end.

(** The engine replaces its content by [d] on behalf of [src], then
    notifies its listeners in the order they were registered. *)
Definition engine_change (d : Delta) (src : source) : M unit :=
  let! q := the_quill in
  let! t := Date_now in
  let q' := history_record t src q in
  put_quill (mkEngine d (undo_stack q') (redo_stack q') (lastRecorded q') (listeners q')) ;;
  run_listeners src (listeners q').

(** [quill.setContents(x)]: the engine makes a document of [x], or throws;
    the change has source [api]. *)
Definition quill_setContents (x : json) : M unit :=
  let! _ := the_quill in
  let! d := lift_result (Quill_setContents x) in
  engine_change d SrcApi.

(** [quill.setText(s)]: source [api]. *)
Definition quill_setText (s : string) : M unit := engine_change (text_delta s) SrcApi.

(** [quill.history.undo()]: nothing happens on an empty stack; otherwise the
    content goes back one entry, as a change of source [user]. *)
Definition history_undo : M unit :=
  let! q := the_quill in
  match undo_stack q with
  | [] => ret tt
  | d :: rest =>
      put_quill (mkEngine d rest (contents q :: redo_stack q) 0 (listeners q)) ;;
      run_listeners SrcUser (listeners q)
  end.

(** [quill.history.redo()] *)
Definition history_redo : M unit :=
  let! q := the_quill in
  match redo_stack q with
  | [] => ret tt
  | d :: rest =>
      put_quill (mkEngine d (contents q :: undo_stack q) rest 0 (listeners q)) ;;
      run_listeners SrcUser (listeners q)
  end.

(** [quill.on('text-change', l)] *)
Definition quill_on (l : listener) : M unit :=
  let! q := the_quill in
  put_quill (mkEngine (contents q) (undo_stack q) (redo_stack q) (lastRecorded q)
                      (listeners q ++ [l])).

(** ** editor.js: document management, undo and redo, theme *)

(** [initializeEditor()] *)
Definition initializeEditor : M unit :=
  modify (upd_vars (set_quill (Some new_engine))) ;;
  quill_on WordCountListener ;;
  console_log "✅ Quill editor initialized successfully".

(** [createNewDocument()]; [ok] is the user's answer to the confirmation. *)
Definition createNewDocument (ok : bool) : M unit :=
  let! w := get in
  match quill (vars w) with
  | None => console_error "❌ Cannot create new document: Quill editor not initialized"
  | Some _ =>
      let! confirmed :=
        confirm "Create a new document? Current document will be lost if not saved." ok in
      if confirmed
      then quill_setText "" ;;
           history_clear ;;
           updateWordCount ;;
           console_log "📄 New document created"
      else ret tt
  end.

(** [undoChange()] *)
Definition undoChange : M unit :=
  let! w := get in
  match quill (vars w) with
  | None => console_error "❌ Cannot undo: Quill editor not initialized"
  | Some _ => history_undo ;; console_log "↶ Undo performed"
  end.

(** [redoChange()] *)
Definition redoChange : M unit :=
  let! w := get in
  match quill (vars w) with
  | None => console_error "❌ Cannot redo: Quill editor not initialized"
  | Some _ => history_redo ;; console_log "↷ Redo performed"
  end.

(** [toggleDarkMode()] *)
Definition toggleDarkMode : M unit :=
  modify (upd_page (fun p => set_dark_mode (negb (dark_mode p)) p)) ;;
  let! w := get in
  (if dark_mode (page w)
   then localStorage_setItem "theme" "dark"
   else localStorage_setItem "theme" "light") ;;
  console_log "🎨 Theme toggled".

(** [checkDarkModePreference()] *)
Definition checkDarkModePreference : M unit :=
  let! savedTheme := localStorage_getItem "theme" in
  match savedTheme with
  | Some "dark" => modify (upd_page (set_dark_mode true))
  | _ => ret tt
  end.

(** ** storage.js: load *)

(** How a stored [timestamp] is shown. *)
Definition show_date (v : option json) : string :=
  match v with
  | Some (JNum n) => pretty n
  | _ => "Invalid Date"
  end.

(** [JSON.parse(s)] *)
Definition parse (s : string) : M json :=
  match JSON_parse s with
  | Some v => ret v
  | None => throw (SyntaxError "Unexpected token in JSON")
  end.

(** [handleLoadError(error)]; [clear_ok] is the user's answer if asked. *)
Definition handleLoadError (error : js_error) (clear_ok : bool) : M unit :=
  console_error ("❌ Load failed: " +:+ show_error error) ;;
  if instanceof_SyntaxError error || includes (message error) "Invalid"
  then
    let! confirmed :=
      confirm "⚠️ Saved document is corrupted. Clear corrupted data and start fresh?" clear_ok in
    if confirmed
    then localStorage_removeItem STORAGE_KEY ;;
         quill_setText "" ;;
         updateAutosaveStatus St_ready ;;
         alert "Corrupted data cleared. You can start a new document."
    else ret tt
  else
    alert "Failed to load document. The saved data may be corrupted." ;;
    updateAutosaveStatus St_error.

(** [loadSavedDocument()] *)
Definition loadSavedDocument (clear_ok : bool) : M unit :=
  try_catch
    (let! savedDataString := localStorage_getItem STORAGE_KEY in
     if negb (string_truthy savedDataString)
     then console_log "ℹ️ No saved document found (first-time user)" ;;
          updateAutosaveStatus St_ready
     else
       let! savedData := parse (default EmptyString savedDataString) in
       let! content := lift_result (get_prop savedData "content") in
       (if negb (truthy content) then throw (Error "Invalid save data format")
        else
          let! ops := lift_result (get_prop_opt content "ops") in
          if negb (truthy ops) then throw (Error "Invalid save data format")
          else ret tt) ;;
       quill_setContents (default JNull content) ;;
       history_clear ;;
       updateAutosaveStatus St_loaded ;;
       let! timestamp := lift_result (get_prop savedData "timestamp") in
       console_log ("📂 Document loaded from " +:+ show_date timestamp))
    (fun error => handleLoadError error clear_ok).

(** [manualLoad()]; [ok] answers the first confirmation. *)
Definition manualLoad (ok clear_ok : bool) : M unit :=
  let! confirmed :=
    confirm "Load saved document? Current unsaved changes will be lost." ok in
  if confirmed
  then
    loadSavedDocument clear_ok ;;
    let! savedDataString := localStorage_getItem STORAGE_KEY in
    if string_truthy savedDataString
    then
      let! savedData := parse (default EmptyString savedDataString) in
      let! timestamp := lift_result (get_prop savedData "timestamp") in
      alert ("✅ Loaded document from " +:+ show_date timestamp)
    else ret tt
  else ret tt.

(** [clearSavedDocument()] *)
Definition clearSavedDocument (ok : bool) : M unit :=
  let! confirmed := confirm "⚠️ Delete saved document? This cannot be undone." ok in
  if confirmed
  then localStorage_removeItem STORAGE_KEY ;;
       alert "Saved document deleted." ;;
       updateAutosaveStatus St_ready ;;
       console_log "🗑️ Saved document cleared"
  else ret tt.

(** [isLocalStorageAvailable()] *)
Definition isLocalStorageAvailable : M bool :=
  try_catch
    (localStorage_setItem "__localStorage_test__" "__localStorage_test__" ;;
     localStorage_removeItem "__localStorage_test__" ;;
     ret true)
    (fun e => console_warn ("⚠️ LocalStorage not available: " +:+ show_error e) ;;
              ret false).

(** [setupStorageListeners()]: the save and load buttons are part of the
    static page; the change listener is attached when the engine exists. *)
Definition setupStorageListeners : M unit :=
  console_log "✅ Save button listener attached" ;;
  console_log "✅ Load button listener attached" ;;
  let! w := get in
  match quill (vars w) with
  | Some _ =>
      quill_on AutosaveListener ;;
      console_log "✅ Storage listeners attached to Quill"
  | None =>
      console_error "❌ Quill editor not found. Make sure editor.js loads first." ;;
      console_error "   Try refreshing the page if this persists."
  end.

(** The three calls made once the engine is (supposed to be) ready. *)
Definition storage_start (clear_ok : bool) : M unit :=
  setupStorageListeners ;;
  loadSavedDocument clear_ok ;;
  updateAutosaveStatus St_ready.

(** The function storage.js hands to [setTimeout(..., 200)]. *)
Definition storage_init (clear_ok : bool) : M unit :=
  let! w := get in
  match quill (vars w) with
  | None =>
      console_warn "⚠️ Quill not ready yet, retrying in 500ms..." ;;
      let! _ := setTimeout (CbStorageInitRetry clear_ok) 500 in ret tt
  | Some _ => storage_start clear_ok
  end.

(** The top-level statements at the end of storage.js. *)
Definition storage_module_load : M unit :=
  let! available := isLocalStorageAvailable in
  (if negb available
   then alert "⚠️ LocalStorage is not available. Documents cannot be saved in this browser." ;;
        modify (upd_vars (set_isAutosaveEnabled false)) ;;
        updateAutosaveStatus St_error
   else ret tt) ;;
  console_log "💾 Storage module loaded successfully".

(** ** import.js: handing the converted document to the editor *)

(** [insertHtmlIntoQuill(html)]; [d] is what [quill.clipboard.convert(html)]
    returns. *)
Definition insertHtmlIntoQuill (d : Delta) : M unit :=
  let! w := get in
  match quill (vars w) with
  | None => throw (Error "Quill editor not available")
  | Some _ =>
      quill_setText "" ;;
      quill_setContents (delta_to_json d) ;;
      history_clear ;;
      (let! _ := setTimeout CbTriggerAutosave 500 in ret tt) ;;
      console_log "✅ Content inserted into editor"
  end.

(** The text of the alert [handleFileSelect] shows when the import fails. *)
Definition import_failure_message (error : js_error) : string :=
  "❌ Failed to import document." +:+ LF +:+ LF +:+
  "This could be due to:" +:+ LF +:+
  "• Corrupted file" +:+ LF +:+
  "• Unsupported DOCX format" +:+ LF +:+
  "• Password-protected document" +:+ LF +:+ LF +:+
  "Error: " +:+ message error.

(** The [try]/[catch] of [handleFileSelect] around the import; the reading
    and the conversion of the file have produced [d]. *)
Definition importDocx (d : Delta) : M unit :=
  try_catch
    (insertHtmlIntoQuill d ;;
     console_log "✅ Import complete" ;;
     alert "✅ Document imported successfully!")
    (fun error =>
       console_error ("❌ Import failed: " +:+ show_error error) ;;
       alert (import_failure_message error)).

(** ** export.js: the PDF pipeline *)

(** The PDF library as the handler uses it: [new jsPDF(...)] starts a document
    with one empty page, [addImage] draws on the current (last) page.  The
    handler never calls [addPage]. *)
Definition jsPDF_new : pdf_doc := mkPdf [[]].

Definition pdf_addImage (img : placed_image) (d : pdf_doc) : pdf_doc :=
  match List.rev (pages d) with
  | [] => mkPdf [[img]]
  | current :: earlier => mkPdf (List.rev earlier ++ [current ++ [img]])
  end.

Definition set_exportBtn (disabled : bool) (text : string) : M unit :=
  modify (upd_page (fun p => set_exportBtn_text text (set_exportBtn_disabled disabled p))).

(** [if (n && n.parentNode) document.body.removeChild(n)] *)
Definition remove_if_attached (n : nat) : M unit :=
  let! attached := has_parent n in
  if attached then removeChild n else ret tt.

(** The [catch (error)] block of the click handler. *)
Definition export_catch (error : js_error) (overlay wrapper : nat) : M unit :=
  console_error ("❌ Export failed: " +:+ show_error error) ;;
  alert ("Export failed: " +:+ message error) ;;
  remove_if_attached wrapper ;;
  remove_if_attached overlay ;;
  set_exportBtn false "📄 PDF".

(** The click handler up to its first [await]: the two guards, the busy
    state, the overlay and the wrapper, and the 1000 ms rendering pause.  No
    statement of this part throws. *)
Definition export_click (o : render_oracle) : M unit :=
  let! w := get in
  match quill (vars w) with
  | None => alert "Editor is not initialized."
  | Some q =>
      let textContent := trim (delta_text (contents q)) in
      if Nat.eqb (js_length textContent) 0
      then alert "⚠️ Document is empty. Please add content first."
      else
        set_exportBtn true "⏳ Exporting..." ;;
        console_log "📄 Starting PDF export..." ;;
        console_log ("📄 Content: " +:+ textContent) ;;
        let! overlay := createElement in
        appendChild overlay ;;
        let! wrapper := createElement in
        appendChild wrapper ;;
        console_log "✅ Content visible on screen" ;;
        let! _ := setTimeout (CbExportRendered o overlay wrapper) 1000 in
        ret tt
  end.

(** After the rendering pause: the rasteriser is started; its promise
    settles [settle_ms] later. *)
Definition export_rendered (o : render_oracle) (overlay wrapper : nat) : M unit :=
  console_log "🔄 Capturing with html2canvas..." ;;
  let! _ := setTimeout (CbExportCanvas o overlay wrapper) (Z.pos (settle_ms o)) in
  ret tt.

(** From the settled rasteriser to the download and the 500 ms pause. *)
Definition export_canvas (o : render_oracle) (overlay wrapper : nat) : M unit :=
  try_catch
    (let! canvas := lift_result (canvas_result o) in
     console_log ("✅ Canvas created: " +:+ pretty (fst canvas) +:+ " x " +:+ pretty (snd canvas)) ;;
     let! imgData := lift_result (dataurl_result o) in
     let! pageSize := lift_result (jspdf_result o) in
     let pdf := jsPDF_new in
     let pdfWidth := fst pageSize in
     let pdfHeight := snd pageSize in
     let imgWidth := (pdfWidth - 20)%Q in
     let imgHeight := ((inject_Z (snd canvas) * imgWidth) / inject_Z (fst canvas))%Q in
     console_log "📄 Adding image to PDF..." ;;
     throw_if (addImage_fault o) ;;
     let pdf := pdf_addImage (mkPlaced 10 10 imgWidth imgHeight) pdf in
     let! t := Date_now in
     let filename := "document_" +:+ pretty t +:+ ".pdf" in
     throw_if (save_fault o) ;;
     modify (upd_out (add_download filename pdf)) ;;
     console_log ("✅ PDF saved: " +:+ filename) ;;
     let! _ := setTimeout (CbExportCleanup overlay wrapper) 500 in
     ret tt)
    (fun error => export_catch error overlay wrapper).

(** After the last pause: tear-down and the success message. *)
Definition export_cleanup (overlay wrapper : nat) : M unit :=
  try_catch
    (removeChild wrapper ;;
     removeChild overlay ;;
     set_exportBtn false "📄 PDF" ;;
     alert "✅ PDF downloaded successfully!")
    (fun error => export_catch error overlay wrapper).

(** ** The event loop *)

Definition run_callback (c : callback) : M unit :=
  match c with
  | CbStorageInit clear_ok => storage_init clear_ok
  | CbStorageInitRetry clear_ok => storage_start clear_ok
  | CbPerformAutosave => performSave true
  | CbStatusReady => updateAutosaveStatus St_ready
  | CbWordCount => updateWordCount
  | CbTriggerAutosave => triggerAutosave
  | CbExportRendered o overlay wrapper => export_rendered o overlay wrapper
  | CbExportCanvas o overlay wrapper => export_canvas o overlay wrapper
  | CbExportCleanup overlay wrapper => export_cleanup overlay wrapper
  end.

(** A handler run by the browser: an exception that leaves it is reported
    as uncaught. *)
Definition dispatch (c : M unit) (w : World) : World :=
  match c w with
  | Ok _ w' => w'
  | Threw e w' => upd_out (add_uncaught e) w'
  end.

Definition is_due (t : Z) (x : timer) : bool := Z.leb (due x) t.

(** The first pending timer that is due, and the others. *)
Fixpoint take_due (t : Z) (ts : list timer) : option (timer * list timer) :=
  match ts with
  | [] => None
  | x :: rest =>
      if is_due t x then Some (x, rest)
      else match take_due t rest with
           | Some (y, rest') => Some (y, x :: rest')
           | None => None
           end
  end.

(** Run the due timers one after the other.  A timer set while doing so is
    due later, so [fuel] = the number of pending timers is enough as long as
    no callback shows a dialog; a timer that has become due while a dialog
    was open and is left when the fuel is used up runs at the next tick. *)
Fixpoint fire_due (fuel : nat) (w : World) : World :=
  match fuel with
  | O => w
  | S fuel' =>
      match take_due (now (loop w)) (timers (loop w)) with
      | None => w
      | Some (x, rest) =>
          fire_due fuel' (dispatch (run_callback (cb x)) (upd_loop (set_timers rest) w))
      end
  end.

(** One millisecond passes. *)
Definition tick (w : World) : World :=
  let w' := upd_loop (fun l => set_now (now l + 1) l) w in
  fire_due (List.length (timers (loop w'))) w'.

(** [n] milliseconds pass with no input. *)
Fixpoint idle (n : nat) (w : World) : World :=
  match n with
  | O => w
  | S n' => idle n' (tick w)
  end.

(** What can happen to the page.  [StorageChange] is the store starting or
    ceasing to fail; [Dwell f] is the user from now on taking [f k] ms to
    dismiss the dialog that [k] dialogs have preceded. *)
Inductive event :=
| Tick
| UserEdit (d : Delta)
| ClickNew (ok : bool)
| ClickUndo
| ClickRedo
| ClickSave
| ClickLoad (ok clear_ok : bool)
| ClickExport (o : render_oracle)
| ClickDarkMode
| ImportDocx (d : Delta)
| StorageChange (denied write_fault : option js_error)
| Dwell (f : nat -> nat).

Definition step (e : event) (w : World) : World :=
  match e with
  | Tick => tick w
  | UserEdit d =>
      match quill (vars w) with
      | Some _ => dispatch (engine_change d SrcUser) w
      | None => w
      end
  | ClickNew ok => dispatch (createNewDocument ok) w
  | ClickUndo => dispatch undoChange w
  | ClickRedo => dispatch redoChange w
  | ClickSave => dispatch manualSave w
  | ClickLoad ok clear_ok => dispatch (manualLoad ok clear_ok) w
  | ClickExport o =>
      if exportBtn_disabled (page w) then w else dispatch (export_click o) w
  | ClickDarkMode => dispatch toggleDarkMode w
  | ImportDocx d => dispatch (importDocx d) w
  | StorageChange denied write_fault =>
      upd_storage (fun s => mkStorage (store_items s) denied write_fault) w
  | Dwell f => set_dwell f w
  end.

Definition run (es : list event) (w : World) : World :=
  List.fold_left (fun w e => step e w) es w.

(** ** Page load *)

(** The page before any script has run, with the store as the browser
    holds it and the clock at [t0]; dialogs are dismissed at once until a
    [Dwell] event says otherwise. *)
Definition initial_world (t0 : Z) (s : Storage) : World :=
  mkWorld (mkLoop t0 [] 1%positive)
          s
          (mkPage [] 0 false "📄 PDF" "Autosave: Ready" "Words: 0 | Characters: 0" false)
          (mkOutput [] [] [] [] [])
          (mkVars None None None true)
          (fun _ => 0%nat).

(** The [DOMContentLoaded] handler of editor.js. *)
Definition editor_ready : M unit :=
  initializeEditor ;;
  console_log "✅ Event listeners attached" ;;
  console_log "✅ Custom keyboard shortcuts registered" ;;
  updateWordCount ;;
  checkDarkModePreference.

(** The [DOMContentLoaded] handler of storage.js. *)
Definition storage_ready (clear_ok : bool) : M unit :=
  let! _ := setTimeout (CbStorageInit clear_ok) 200 in ret tt.

(** The scripts are evaluated in the order editor, storage, export; then
    [DOMContentLoaded] runs their handlers in the same order. *)
Definition page_load (clear_ok : bool) (w : World) : World :=
  let w1 := dispatch (console_log "📝 Editor module loaded successfully") w in
  let w2 := dispatch storage_module_load w1 in
  let w3 := dispatch editor_ready w2 in
  let w4 := dispatch (storage_ready clear_ok) w3 in
  dispatch (console_log "✅ Export listeners attached") w4.

End Scripts.

(** ** A JSON implementation to run the scripts on concrete pages

    A printer and a recursive-descent parser for JSON texts whose numbers
    are integers and whose strings use the escapes for the quote, the
    backslash and the line break.  The statements below hold for any [JSON]
    instance; this one evaluates them on examples. *)

Definition DQ : string := String (Ascii.ascii_of_nat 34) EmptyString.
Definition BS : string := String (Ascii.ascii_of_nat 92) EmptyString.

Definition is_char (n : nat) (c : Ascii.ascii) : bool := Nat.eqb (Ascii.nat_of_ascii c) n.

Fixpoint escape (s : string) : string :=
  match s with
  | EmptyString => EmptyString
  | String c s' =>
      (if is_char 34 c then BS +:+ DQ
       else if is_char 92 c then BS +:+ BS
       else if is_char 10 c then BS +:+ "n"
       else String c EmptyString) +:+ escape s'
  end.

Definition print_string (s : string) : string := DQ +:+ escape s +:+ DQ.

Fixpoint join (sep : string) (l : list string) : string :=
  match l with
  | [] => EmptyString
  | [x] => x
  | x :: rest => x +:+ sep +:+ join sep rest
  end.

Fixpoint print_json (v : json) : string :=
  match v with
  | JNull => "null"
  | JBool true => "true"
  | JBool false => "false"
  | JNum n => pretty n
  | JStr s => print_string s
  | JArr items => "[" +:+ join "," (List.map print_json items) +:+ "]"
  | JObj fields =>
      "{" +:+ join "," (List.map (fun kv => print_string (fst kv) +:+ ":" +:+ print_json (snd kv))
                                 fields) +:+ "}"
  end.

(** The white space of a JSON text: space, TAB, LF and CR. *)
Fixpoint skip_ws (s : string) : string :=
  match s with
  | String c s' =>
      if is_char 32 c || is_char 9 c || is_char 10 c || is_char 13 c then skip_ws s' else s
  | EmptyString => EmptyString
  end.

(** The characters of a string literal after its opening quote. *)
Fixpoint parse_chars (s : string) : option (string * string) :=
  match s with
  | EmptyString => None
  | String c s' =>
      if is_char 34 c then Some (EmptyString, s')
      else if is_char 92 c then
        match s' with
        | String e s'' =>
            let unescaped :=
              if is_char 110 e then Some LF
              else if is_char 34 e then Some DQ
              else if is_char 92 e then Some BS
              else None in
            match unescaped, parse_chars s'' with
            | Some u, Some (t, rest) => Some (u +:+ t, rest)
            | _, _ => None
            end
        | EmptyString => None
        end
      else match parse_chars s' with
           | Some (t, rest) => Some (String c t, rest)
           | None => None
           end
  end.

Definition digit_of (c : Ascii.ascii) : option Z :=
  let n := Ascii.nat_of_ascii c in
  if (48 <=? n)%nat && (n <=? 57)%nat then Some (Z.of_nat (n - 48)) else None.

Fixpoint parse_digits (acc : Z) (s : string) : Z * string :=
  match s with
  | String c s' =>
      match digit_of c with
      | Some d => parse_digits (10 * acc + d) s'
      | None => (acc, s)
      end
  | EmptyString => (acc, s)
  end.

Definition parse_nat (s : string) : option (Z * string) :=
  match s with
  | String c _ =>
      match digit_of c with
      | Some _ => Some (parse_digits 0 s)
      | None => None
      end
  | EmptyString => None
  end.

Definition expect (word : string) (v : json) (s : string) : option (json * string) :=
  if String.prefix word s
  then Some (v, String.substring (String.length word) (String.length s - String.length word) s)
  else None.

Fixpoint parse_value (fuel : nat) (s : string) : option (json * string) :=
  match fuel with
  | O => None
  | S fuel' =>
      match skip_ws s with
      | EmptyString => None
      | String c rest as s0 =>
          if is_char 110 c then expect "null" JNull s0
          else if is_char 116 c then expect "true" (JBool true) s0
          else if is_char 102 c then expect "false" (JBool false) s0
          else if is_char 34 c then
            match parse_chars rest with
            | Some (t, rest') => Some (JStr t, rest')
            | None => None
            end
          else if is_char 45 c then
            match parse_nat rest with
            | Some (n, rest') => Some (JNum (- n), rest')
            | None => None
            end
          else if is_char 91 c then
            match skip_ws rest with
            | String c' rest' =>
                if is_char 93 c' then Some (JArr [], rest')
                else match parse_items fuel' rest with
                     | Some (items, rest'') => Some (JArr items, rest'')
                     | None => None
                     end
            | EmptyString => None
            end
          else if is_char 123 c then
            match skip_ws rest with
            | String c' rest' =>
                if is_char 125 c' then Some (JObj [], rest')
                else match parse_members fuel' rest with
                     | Some (fields, rest'') => Some (JObj fields, rest'')
                     | None => None
                     end
            | EmptyString => None
            end
          else match parse_nat s0 with
               | Some (n, rest') => Some (JNum n, rest')
               | None => None
               end
      end
  end
with parse_items (fuel : nat) (s : string) : option (list json * string) :=
  match fuel with
  | O => None
  | S fuel' =>
      match parse_value fuel' s with
      | Some (v, rest) =>
          match skip_ws rest with
          | String c rest' =>
              if is_char 93 c then Some ([v], rest')
              else if is_char 44 c then
                match parse_items fuel' rest' with
                | Some (vs, rest'') => Some (v :: vs, rest'')
                | None => None
                end
              else None
          | EmptyString => None
          end
      | None => None
      end
  end
with parse_members (fuel : nat) (s : string) : option (list (string * json) * string) :=
  match fuel with
  | O => None
  | S fuel' =>
      match skip_ws s with
      | String q rest =>
          if is_char 34 q then
            match parse_chars rest with
            | Some (k, rest1) =>
                match skip_ws rest1 with
                | String colon rest2 =>
                    if is_char 58 colon then
                      match parse_value fuel' rest2 with
                      | Some (v, rest3) =>
                          match skip_ws rest3 with
                          | String c rest4 =>
                              if is_char 125 c then Some ([(k, v)], rest4)
                              else if is_char 44 c then
                                match parse_members fuel' rest4 with
                                | Some (kvs, rest5) => Some ((k, v) :: kvs, rest5)
                                | None => None
                                end
                              else None
                          | EmptyString => None
                          end
                      | None => None
                      end
                    else None
                | EmptyString => None
                end
            | None => None
            end
          else None
      | EmptyString => None
      end
  end.

Definition parse_json (s : string) : option json :=
  match parse_value (S (String.length s)) s with
  | Some (v, rest) =>
      match skip_ws rest with
      | EmptyString => Some v
      | _ => None
      end
  | None => None
  end.

Definition mini_json : JSON :=
  {| JSON_stringify := print_json; JSON_parse := parse_json |}.

(** ** An engine to run the scripts on concrete pages

    [setContents] for lists of insert operations: the operations are kept,
    closed by a line break when the text does not end in one; any other
    operation makes it throw.  The statements hold for any [Quill] instance. *)

Definition is_insert_op (op : json) : bool :=
  match op with
  | JObj fields =>
      match assoc "insert" fields with
      | Some (JStr _) | Some (JObj _) => true
      | _ => false
      end
  | _ => false
  end.

Definition mini_setContents (x : json) : result Delta :=
  let ops := delta_of_json x in
  if List.forallb is_insert_op ops
  then Returns (if ends_with_LF (delta_text ops) then ops else ops ++ blank_document)
  else Raises (TypeError "Cannot read properties of undefined (reading 'length')").

Definition mini_quill : Quill := {| Quill_setContents := mini_setContents |}.

(** ** Observations used in the statements *)

Definition is_autosave_cb (c : callback) : bool :=
  match c with CbPerformAutosave => true | _ => false end.

Definition is_trigger_cb (c : callback) : bool :=
  match c with CbTriggerAutosave => true | _ => false end.

(** Callbacks that neither save automatically nor arm the autosave timer. *)
Definition quiet_cb (c : callback) : bool :=
  negb (is_autosave_cb c) && negb (is_trigger_cb c).

(** The pending autosave timers. *)
Definition auto_timers (w : World) : list timer :=
  List.filter (fun t => is_autosave_cb (cb t)) (timers (loop w)).

Definition is_auto_call (c : Z * call) : bool :=
  match snd c with
  | CallPerformSave true => true
  | _ => false
  end.

(** The executions of [performSave(true)] so far, with their times. *)
Definition auto_calls (w : World) : list (Z * call) :=
  List.filter is_auto_call (calls (out w)).

(** No pending call of [triggerAutosave] (set by the import) is due at or
    before [T]. *)
Definition no_trigger_until (T : Z) (w : World) : Prop :=
  Forall (fun t => is_trigger_cb (cb t) = true -> T < due t) (timers (loop w)).

(** Every pending autosave timer is the one [autosaveTimer] refers to. *)
Definition timer_handle_ok (w : World) : Prop :=
  Forall (fun t => is_autosave_cb (cb t) = true -> autosaveTimer (vars w) = Some (tid t))
         (timers (loop w)).

(** ** Reasoning rules for the monad

    [stable R c]: running [c] takes a world to an [R]-related one, whether
    [c] returns or throws.  For a preorder [R] this goes through sequencing
    and [try]/[catch]. *)

Definition stable (R : World -> World -> Prop) {A} (c : M A) : Prop :=
  forall w, R w (world_of (c w)).


(** [Grows w w']: from [w] to [w'] the clock did not go back, the dialogs
    shown are still on record, and the clock moved only if a dialog was
    shown (while the user had it open). *)
Definition Grows (w w' : World) : Prop :=
  now (loop w) <= now (loop w') /\
  exists shown,
    dialogs (out w') = dialogs (out w) ++ shown /\
    (shown = [] -> now (loop w') = now (loop w)).

(** [Quiet K w w']: from [w] to [w'] time passed only in dialogs, no timer
    was cleared, the timers set are of a kind in [K] and due later than the
    time of [w], and nothing about the autosave changed: its timer handle, its
    flag and its executions. *)
Definition Quiet (K : callback -> bool) (w w' : World) : Prop :=
  Grows w w' /\
  (exists added,
      timers (loop w') = timers (loop w) ++ added /\
      Forall (fun t => K (cb t) = true /\ now (loop w) < due t) added) /\
  autosaveTimer (vars w') = autosaveTimer (vars w) /\
  isAutosaveEnabled (vars w') = isAutosaveEnabled (vars w) /\
  auto_calls w' = auto_calls w.

(** No dialog was shown from [w] to [w']. *)
Definition Still (w w' : World) : Prop := dialogs (out w') = dialogs (out w).

(** [Later w w']: the clock did not go back and the dialogs shown are still
    on record; what every event does, the passing of time included. *)
Definition Later (w w' : World) : Prop :=
  now (loop w) <= now (loop w') /\
  exists shown, dialogs (out w') = dialogs (out w) ++ shown.

(** Everything but an autosave timer may be set. *)
Definition not_auto_cb (c : callback) : bool := negb (is_autosave_cb c).


(** [autosaveTimer] holds the id of the one pending autosave timer, which is
    due at [T]. *)
Definition armed_at (T : Z) (w : World) : Prop :=
  exists id, autosaveTimer (vars w) = Some id /\
             auto_timers w = [mkTimer id T CbPerformAutosave].



(** Nothing about the autosave differs between [w] and [w']. *)
Definition undisturbed (w w' : World) : Prop :=
  now (loop w') = now (loop w) /\
  auto_timers w' = auto_timers w /\
  (forall T, no_trigger_until T w -> no_trigger_until T w') /\
  auto_calls w' = auto_calls w.

(** What a call of [triggerAutosave] or of a quiet script guarantees. *)
Definition Rearm (w w' : World) : Prop :=
  now (loop w') = now (loop w) /\
  dialogs (out w') = dialogs (out w) /\
  isAutosaveEnabled (vars w') = isAutosaveEnabled (vars w) /\
  auto_calls w' = auto_calls w /\
  (timer_handle_ok w -> timer_handle_ok w') /\
  (forall T, no_trigger_until T w -> no_trigger_until T w') /\
  (armed_at (now (loop w) + AUTOSAVE_DELAY) w -> armed_at (now (loop w) + AUTOSAVE_DELAY) w').



(** The timers [clear_if_set handle] leaves pending. *)
Definition kept (handle : option positive) (t : timer) : bool :=
  match handle with
  | Some id => negb (Pos.eqb (tid t) id)
  | None => true
  end.

(** The error a write to the store fails with, if it fails. *)
Definition store_fault (s : Storage) : option js_error :=
  match store_denied s with
  | Some e => Some e
  | None => store_write_fault s
  end.

(** The message of the alert a failed manual save shows. *)
Definition save_failure_message (e : js_error) : string :=
  if String.eqb (name e) "QuotaExceededError" then quota_message else generic_save_message.

(** From [w] to [w'] only the word-count display, the console and the
    recorded calls may differ. *)
Definition only_wordcount (w w' : World) : Prop :=
  loop w' = loop w /\ storage w' = storage w /\ vars w' = vars w /\
  dialogs (out w') = dialogs (out w) /\
  downloads (out w') = downloads (out w) /\
  uncaught (out w') = uncaught (out w) /\
  body (page w') = body (page w) /\
  next_node (page w') = next_node (page w) /\
  exportBtn_disabled (page w') = exportBtn_disabled (page w) /\
  exportBtn_text (page w') = exportBtn_text (page w) /\
  autoSaveStatus (page w') = autoSaveStatus (page w) /\
  dark_mode (page w') = dark_mode (page w).

(** The checks [loadSavedDocument] makes on a parsed record, and the content
    it hands to the engine when they pass. *)
Definition valid_record (v : json) : option json :=
  match get_prop v "content" with
  | Returns (Some c) =>
      if truthy (Some c)
      then match get_prop c "ops" with
           | Returns ops => if truthy ops then Some c else None
           | Raises _ => None
           end
      else None
  | _ => None
  end.

(** The store can be read and holds, under the fixed key, a text that parses
    to a record passing the checks, with content [c]. *)
Definition stored_record `{JSON} (w : World) (c : json) : Prop :=
  store_denied (storage w) = None /\
  exists s v,
    store_items (storage w) !! STORAGE_KEY = Some s /\
    s <> EmptyString /\
    JSON_parse s = Some v /\
    valid_record v = Some c.

(** The restore succeeds: the stored record passes the checks and the engine
    takes its content [c], making the document [d] of it. *)
Definition restorable `{JSON} `{Quill} (w : World) (c : json) (d : Delta) : Prop :=
  stored_record w c /\ Quill_setContents c = Returns d.

(** ** Concrete pages, run with [mini_json] and [mini_quill] *)

(** A document holding one line of text. *)
Definition demo_doc (s : string) : Delta := [JObj [("insert", JStr (s +:+ LF))]].

Definition empty_store : Storage := mkStorage ∅ None None.

(** A store that rejects every write: its quota is exhausted. *)
Definition full_store : Storage :=
  mkStorage ∅ None (Some (mkError "QuotaExceededError" "The quota has been exceeded.")).

(** The page 200 ms after it was loaded at time 1000, storage.js started. *)
Definition demo_page : World :=
  @idle mini_json mini_quill 200 (page_load false (initial_world 1000 empty_store)).

(** The same page, 500 ms after the user typed a word: an autosave timer
    is pending. *)
Definition demo_typing : World :=
  @idle mini_json mini_quill 500 (@step mini_json mini_quill (UserEdit (demo_doc "Hello")) demo_page).

(** The page loaded with a store that rejects writes. *)
Definition demo_page_full : World :=
  @idle mini_json mini_quill 200 (page_load false (initial_world 1000 full_store)).


(** The first library call of the export that fails, with its error. *)
Definition export_failure (o : render_oracle) : option js_error :=
  match canvas_result o with
  | Raises e => Some e
  | Returns _ =>
      match dataurl_result o with
      | Raises e => Some e
      | Returns _ =>
          match jspdf_result o with
          | Raises e => Some e
          | Returns _ =>
              match addImage_fault o with
              | Some e => Some e
              | None => save_fault o
              end
          end
      end
  end.

(** The children of the body other than the overlay and the wrapper. *)
Definition without (overlay wrapper : nat) (children : list nat) : list nat :=
  List.filter (fun m => negb (Nat.eqb m wrapper) && negb (Nat.eqb m overlay)) children.

(** The page with node [n] taken out of the body. *)
Definition detach (n : nat) (w : World) : World :=
  upd_page (fun p => set_body (List.filter (fun m => negb (Nat.eqb m n)) (body p)) p) w.

(** A rendering of a long document: a canvas of 1400 x 10000 pixels, an A4
    page of 210 mm x 297 mm, and no failure. *)
Definition long_render : render_oracle :=
  mkOracle 300 (Returns (1400, 10000)) (Returns "data:image/jpeg;base64,...")
           (Returns (210 # 1, 297 # 1)%Q) None None.

(** Autosave is switched off and no autosave timer is pending. *)
Definition autosave_off (w : World) : Prop :=
  isAutosaveEnabled (vars w) = false /\ auto_timers w = [].

(** A step that keeps a switched-off autosave off, and executes none. *)
Definition Off (w w' : World) : Prop :=
  autosave_off w -> autosave_off w' /\ auto_calls w' = auto_calls w.

(** What [updateWordCount] writes to the footer for a content [d]. *)
Definition word_count_text (d : Delta) : string :=
  "Words: " +:+ pretty (List.length (nonempty_words (split_ws (trim (delta_text d)))))
  +:+ " | Characters: " +:+ pretty (js_length (trim (delta_text d))).

(** The executions of the word-count computation so far. *)
Definition wordcount_calls (w : World) : list (Z * call) :=
  List.filter (fun c => match snd c with CallUpdateWordCount => true | _ => false end)
              (calls (out w)).

(** A store holding a text under the fixed key that is not JSON. *)
Definition malformed_store : Storage :=
  mkStorage (<[STORAGE_KEY := "{"]> ∅) None None.

(** The page loaded over the malformed record; the user declined to clear it. *)
Definition demo_page_malformed : World :=
  @idle mini_json mini_quill 200 (page_load false (initial_world 1000 malformed_store)).

(** The page of [demo_typing] over a store whose quota is exhausted. *)
Definition demo_typing_full : World := upd_storage (fun _ => full_store) demo_typing.

(** A rendering in which the rasteriser rejects. *)
Definition failing_render : render_oracle :=
  mkOracle 300 (Raises (Error "Unable to find element in cloned iframe"))
           (Returns "data:image/jpeg;base64,...")
           (Returns (210 # 1, 297 # 1)%Q) None None.

(** A step that keeps the handle of the autosave timer right. *)
Definition HandleOk (w w' : World) : Prop := timer_handle_ok w -> timer_handle_ok w'.

(** The states of the page: it was loaded over some store at some time,
    then events happened. *)
Definition reachable `{JSON} `{Quill} (w : World) : Prop :=
  exists (t0 : Z) (s : Storage) (clear_ok : bool) (es : list event),
    w = run es (page_load clear_ok (initial_world t0 s)).

(** ** editor.js: keyboard shortcuts *)

(** The element that has the focus, as far as the scripts look at it: the
    editing area ([quill.root]), the first toolbar button ([newDoc]), or
    something else. *)
Inductive focus := FocusEditor | FocusNewDoc | FocusElsewhere.

Section MoreScripts.
Context {json_lib : JSON} {quill_lib : Quill}.

(** The [keydown] listener registered by [setupKeyboardShortcuts].  [active]
    is [document.activeElement] when the key goes down, the result is the
    active element afterwards; [o] fixes what the libraries do if the key
    starts an export. *)
Definition keydown (ctrlKey : bool) (key : string) (o : render_oracle) (active : focus)
  : M focus :=
  (if ctrlKey && String.eqb key "s"
   then manualSave ;;
        console_log "⌨️ Ctrl+S pressed: Save triggered"
   else ret tt) ;;
  (if ctrlKey && String.eqb key "p"
   then let! w := get in
        if negb (exportBtn_disabled (page w))
        then export_click o ;;
             console_log "⌨️ Ctrl+P pressed: PDF export triggered"
        else ret tt
   else ret tt) ;;
  if String.eqb key "Escape"
  then let! _ := the_quill in
       match active with
       | FocusEditor =>
           console_log "⌨️ Escape pressed: Focus moved to toolbar" ;;
           ret FocusNewDoc
       | _ => ret active
       end
  else ret active.

End MoreScripts.

(** ** import.js: choosing and reading the file *)

(** The [File] the user chose: the scripts read its name and its size. *)
Record file := mkFile { file_name : string; file_size : Z }.

(** The import button and the file input. *)
Record ImportUi := mkImportUi {
  importBtn_disabled : bool;
  importBtn_text : string;
  fileInput_value : string
}.

(** [s.toLowerCase()] on the letters A to Z; the other characters matter
    to no test of the scripts. *)
Definition lower_char (c : Ascii.ascii) : Ascii.ascii :=
  let n := Ascii.nat_of_ascii c in
  if (65 <=? n)%nat && (n <=? 90)%nat then Ascii.ascii_of_nat (n + 32) else c.

Fixpoint toLowerCase (s : string) : string :=
  match s with
  | EmptyString => EmptyString
  | String c s' => String (lower_char c) (toLowerCase s')
  end.

(** [s.endsWith(suffix)] *)
Fixpoint endsWith (s suffix : string) : bool :=
  String.eqb s suffix ||
  match s with
  | EmptyString => false
  | String _ s' => endsWith s' suffix
  end.

(** The largest file the import accepts: 20 MB. *)
Definition maxSize : Z := 20 * 1024 * 1024.

(** [resetFileInput()] *)
Definition resetFileInput (ui : ImportUi) : ImportUi :=
  mkImportUi (importBtn_disabled ui) (importBtn_text ui) EmptyString.

Definition replace_question : string :=
  "⚠️ You have existing content in the editor." +:+ LF +:+ LF +:+
  "Importing will REPLACE all current content." +:+ LF +:+ LF +:+
  "Click OK to continue, or Cancel to abort.".

(** The [finally] block of [handleFileSelect]. *)
Definition import_finally (originalText : string) (ui : ImportUi) : ImportUi :=
  mkImportUi false originalText EmptyString.

(** The [catch] block of [handleFileSelect]. *)
Definition import_catch (error : js_error) : M unit :=
  console_error ("❌ Import failed: " +:+ show_error error) ;;
  alert (import_failure_message error).

(** The error [readFileAsArrayBuffer] rejects with when the reader fails. *)
Definition read_failure : js_error := Error "Failed to read file: [object ProgressEvent]".

(** [messages.forEach(msg => console.warn('  -', msg.message))] *)
Fixpoint warn_each (msgs : list string) : M unit :=
  match msgs with
  | [] => ret tt
  | m :: rest => console_warn ("  - " +:+ m) ;; warn_each rest
  end.

Section ImportScripts.

(** The size shown in the console line of [handleFileSelect] is computed by
    [formatFileSize] with floating-point logarithms; it is left open here,
    only that console line depends on it. *)
Variable formatFileSize : Z -> string.

(** [handleFileSelect(event)] up to its [await]: the checks on the chosen
    file ([None]: the dialog was cancelled), the question asked when the
    editor holds text ([ok] is the answer), and the busy state of the button.
    The second result is [Some originalText] when the handler now waits for
    the file to be read. *)
Definition handleFileSelect (f : option file) (ok : bool) (ui : ImportUi)
  : M (ImportUi * option string) :=
  match f with
  | None => ret (ui, None)
  | Some file =>
      console_log ("📄 File selected: " +:+ file_name file +:+ " ("
                   +:+ formatFileSize (file_size file) +:+ ")") ;;
      if negb (endsWith (toLowerCase (file_name file)) ".docx")
      then alert "⚠️ Invalid file type. Please select a .docx file." ;;
           ret (resetFileInput ui, None)
      else if Z.ltb maxSize (file_size file)
      then alert "⚠️ File too large. Maximum size is 20MB." ;;
           ret (resetFileInput ui, None)
      else
        let! raw := quill_getText in
        let hasContent := Nat.ltb 0 (js_length (trim raw)) in
        let! confirmed := (if hasContent then confirm replace_question ok else ret true) in
        if negb confirmed
        then ret (resetFileInput ui, None)
        else
          let originalText := importBtn_text ui in
          console_log "🔄 Starting DOCX conversion..." ;;
          ret (mkImportUi true "⏳ Importing..." (fileInput_value ui), Some originalText)
  end.

End ImportScripts.

(** The handler resumed when the file reader has settled: [r] is the number
    of bytes read, or [None] when the reader failed.  The second result tells
    whether the handler now waits for the converter. *)
Definition import_file_read (r : option Z) (originalText : string) (ui : ImportUi)
  : M (ImportUi * bool) :=
  match r with
  | None => import_catch read_failure ;; ret (import_finally originalText ui, false)
  | Some n =>
      console_log ("✅ File read complete: " +:+ pretty n +:+ " bytes") ;;
      ret (ui, true)
  end.

(** The handler resumed when the converter has settled: it returned the
    HTML (of length [len], converted to the Delta [d] by the engine's
    clipboard) with its messages, or rejected. *)
Definition import_converted `{Quill} (r : result (Z * list string * Delta))
                            (originalText : string) (ui : ImportUi) : M ImportUi :=
  try_catch
    (let! res := lift_result r in
     let len := fst (fst res) in
     let msgs := snd (fst res) in
     let d := snd res in
     console_log "✅ Conversion complete" ;;
     console_log ("📊 HTML length: " +:+ pretty len +:+ " characters") ;;
     console_log ("📊 Messages: " +:+ pretty (List.length msgs)) ;;
     (if Nat.ltb 0 (List.length msgs)
      then console_warn "⚠️ Conversion warnings:" ;; warn_each msgs
      else ret tt) ;;
     insertHtmlIntoQuill d ;;
     console_log "✅ Import complete" ;;
     alert "✅ Document imported successfully!")
    import_catch ;;
  ret (import_finally originalText ui).

(** ** Observations used in the further statements *)

(** The world [k] milliseconds later, no timer having fired. *)
Definition advance (k : Z) (w : World) : World :=
  upd_loop (fun l => set_now (now l + k) l) w.

(** Every timer of [ts] is due after [T]. *)
Definition later_than (T : Z) (ts : list timer) : Prop :=
  Forall (fun t => T < due t) ts.

(** Every pending timer other than an autosave timer is due after [T]. *)
Definition others_later_than (T : Z) (w : World) : Prop :=
  Forall (fun t => is_autosave_cb (cb t) = false -> T < due t) (timers (loop w)).

(** The content of the document in the editor. *)
Definition document (w : World) : option Delta :=
  option_map contents (quill (vars w)).

(** The record stored under the fixed key. *)
Definition saved_record (w : World) : option string :=
  store_items (storage w) !! STORAGE_KEY.

(** The words of a text, counted on its characters: the maximal runs of
    characters that are not white space.  [in_word] tells whether the
    previous character belonged to a word. *)
Fixpoint count_runs (in_word : bool) (l : list jchar) : nat :=
  match l with
  | [] => 0%nat
  | c :: l' =>
      if is_space (fst c) then count_runs false l'
      else ((if in_word then 0 else 1) + count_runs true l')%nat
  end.

Definition word_runs (s : string) : nat := count_runs false (js_chars s).

(** A string that does not begin in the middle of a multi-byte character. *)
Definition starts_plain (s : string) : Prop :=
  match s with
  | EmptyString => True
  | String b _ => is_cont b = false
  end.

(** A character that is read back from its own bytes. *)
Definition own_char (c : jchar) : Prop :=
  exists b tl, snd c = String b tl /\ head_char b tl = (fst c, String.length tl).

(** The key of the theme preference and the key of the availability test. *)
Definition THEME_KEY : string := "theme".
Definition TEST_KEY : string := "__localStorage_test__".

(** The text stored for a theme. *)
Definition theme_name (dark : bool) : string := if dark then "dark" else "light".

(** The nodes of the body were all made by [createElement]. *)
Definition nodes_known (w : World) : Prop :=
  Forall (fun n => (n < next_node (page w))%nat) (body (page w)).

(** The error the checks of [loadSavedDocument] on a parsed record end in,
    if they do. *)
Definition record_error (v : json) : option js_error :=
  match get_prop v "content" with
  | Raises e => Some e
  | Returns content =>
      if truthy content
      then match get_prop_opt content "ops" with
           | Raises e => Some e
           | Returns ops =>
               if truthy ops then None else Some (Error "Invalid save data format")
           end
      else Some (Error "Invalid save data format")
  end.

(** The error the [try] block of [loadSavedDocument] ends in before it has
    touched the editor: the store cannot be read, the stored text is not
    JSON, or the record fails the checks. *)
Definition load_error `{JSON} (w : World) : option js_error :=
  match store_denied (storage w) with
  | Some e => Some e
  | None =>
      match saved_record w with
      | None => None
      | Some s =>
          if String.eqb s EmptyString then None
          else match JSON_parse s with
               | None => Some (SyntaxError "Unexpected token in JSON")
               | Some v => record_error v
               end
      end
  end.

(** [handleLoadError] takes the error for a corrupted record. *)
Definition taken_for_corruption (e : js_error) : bool :=
  instanceof_SyntaxError e || includes (message e) "Invalid".

Definition corrupted_question : string :=
  "⚠️ Saved document is corrupted. Clear corrupted data and start fresh?".

Definition load_question : string :=
  "Load saved document? Current unsaved changes will be lost.".

(** The exception the second [JSON.parse] of [manualLoad], or the reading of
    the [timestamp] after it, ends in on a stored text [s]. *)
Definition report_error `{JSON} (s : string) : option js_error :=
  match JSON_parse s with
  | None => Some (SyntaxError "Unexpected token in JSON")
  | Some v =>
      match get_prop v "timestamp" with
      | Raises e => Some e
      | Returns _ => None
      end
  end.

(** What the listeners of a change leave as it was: the store, the editor,
    the dialogs, the uncaught exceptions, and the due times of the timers
    other than autosave timers. *)
Definition Typing (w w' : World) : Prop :=
  storage w' = storage w /\
  quill (vars w') = quill (vars w) /\
  dialogs (out w') = dialogs (out w) /\
  uncaught (out w') = uncaught (out w) /\
  (forall T, others_later_than T w -> others_later_than T w').

(** ** Relations and invariants of whole sessions *)

(** The autosave switch is as it was. *)
Definition SameSwitch (w w' : World) : Prop :=
  isAutosaveEnabled (vars w') = isAutosaveEnabled (vars w).

(** The entries of the store under the keys in [P] are as they were. *)
Definition kept_keys (P : string -> Prop) (w w' : World) : Prop :=
  forall k, P k -> store_items (storage w') !! k = store_items (storage w) !! k.

(** The keys the scripts never write. *)
Definition foreign_key (k : string) : Prop := k <> STORAGE_KEY /\ k <> THEME_KEY.

(** The editor exists and, when [rd] is set, the store can be read. *)
Definition sound (rd : bool) (w : World) : Prop :=
  quill (vars w) <> None /\ (rd = true -> store_denied (storage w) = None).

(** A step that keeps the page sound and reports no uncaught exception. *)
Definition Sound (rd : bool) (w w' : World) : Prop :=
  (sound rd w -> sound rd w') /\ uncaught (out w') = uncaught (out w).

(** [returns rd c]: on a sound page, [c] ends without exception, in a sound
    page. *)
Definition returns (rd : bool) {A} (c : M A) : Prop :=
  forall w, sound rd w ->
    match c w with
    | Ok _ w' => sound rd w' /\ uncaught (out w') = uncaught (out w)
    | Threw _ _ => False
    end.

(** The events whose handlers cannot let an exception escape on a sound
    page: all but the Load button and the theme toggle (and the changes of the
    store's condition, which are no handler). *)
Definition safe_event (e : event) : bool :=
  match e with
  | ClickLoad _ _ | ClickDarkMode | StorageChange _ _ => false
  | _ => true
  end.

(** The events that leave the record of the document in the store alone. *)
Definition keeps_record (e : event) : bool :=
  match e with
  | Tick | ClickSave | ClickLoad _ _ | StorageChange _ _ | Dwell _ => false
  | _ => true
  end.

(** ** Further concrete pages *)

(** The page of [demo_page], loaded over a store that holds the JSON
    [null] under the fixed key. *)
Definition null_store : Storage := mkStorage (<[STORAGE_KEY := "null"]> ∅) None None.

Definition demo_page_null : World :=
  @idle mini_json mini_quill 200 (page_load false (initial_world 1000 null_store)).

(** The page loaded over a record without content; the user declined to
    clear it. *)
Definition hollow_store : Storage := mkStorage (<[STORAGE_KEY := "{}"]> ∅) None None.

Definition demo_page_hollow : World :=
  @idle mini_json mini_quill 200 (page_load false (initial_world 1000 hollow_store)).

(** The page five seconds after the user typed a word: the autosave has run
    and no timer is pending. *)
Definition demo_settled : World :=
  @idle mini_json mini_quill 5000 (@step mini_json mini_quill (UserEdit (demo_doc "Hello")) demo_page).

(** A file with the right name and the largest size accepted, and a text
    file. *)
Definition demo_docx : file := mkFile "Report.DOCX" 20971520.
Definition demo_txt : file := mkFile "notes.txt" 10.

Definition demo_ui : ImportUi := mkImportUi false "📥 Import" "C:\fakepath\Report.DOCX".

(** The page of [demo_page], visited by a user who takes five seconds to
    dismiss a dialog. *)
Definition demo_page_slow : World :=
  @step mini_json mini_quill (Dwell (fun _ => 5000%nat)) demo_page.

(** A record whose content the engine rejects: its one operation is the
    number 5. *)
Definition rejected_record : json :=
  JObj [("content", JObj [("ops", JArr [JNum 5])]); ("timestamp", JNum 1100);
        ("version", JStr "1.0"); ("wordCount", JNum 1)].

Definition rejected_store : Storage :=
  mkStorage (<[STORAGE_KEY := @JSON_stringify mini_json rejected_record]> ∅) None None.

(** The page of [demo_typing] over the store that holds that record. *)
Definition demo_typing_rejected : World := upd_storage (fun _ => rejected_store) demo_typing.

(** The no-break space U+00A0, as its two bytes. *)
Definition NBSP : string :=
  String (Ascii.ascii_of_nat 194) (String (Ascii.ascii_of_nat 160) EmptyString).

(** A text of three words: the first two are separated by a no-break space,
    the third is one character beyond the Basic Multilingual Plane. *)
Definition demo_unicode_text : string := "café" +:+ NBSP +:+ "crème 😀".

Definition demo_unicode : World :=
  @step mini_json mini_quill (UserEdit (demo_doc demo_unicode_text)) demo_page.

(** ** Strings *)

Lemma units_pos (cp : N) : (1 <= units cp)%nat.
Proof. unfold units. destruct (cp <? 65536)%N; lia. Qed.

Lemma js_chars_cons (b : Ascii.ascii) (rest : string) :
  js_chars (String b rest)
  = (fst (head_char b rest), String b (String.substring 0 (snd (head_char b rest)) rest))
    :: js_chars_from (snd (head_char b rest)) rest.
Proof. reflexivity. Qed.

(** Only the empty string has length 0. *)
Lemma js_length_zero (s : string) : js_length s = 0%nat <-> s = EmptyString.
Proof.
  split; [| intros ->; reflexivity].
  destruct s as [|b rest]; [reflexivity |].
  unfold js_length. rewrite js_chars_cons. cbn [List.map list_sum fst].
  pose proof (units_pos (fst (head_char b rest))). intros H0. exfalso.
  unfold list_sum in H0. cbn [List.fold_right] in H0. lia.
Qed.

Lemma js_length_eqb (s : string) :
  Nat.eqb (js_length s) 0 = String.eqb s EmptyString.
Proof.
  destruct (String.eqb_spec s EmptyString) as [-> | Hne]; [reflexivity |].
  apply Nat.eqb_neq. intros H0. apply Hne, js_length_zero, H0.
Qed.

Lemma js_length_ltb (s : string) :
  Nat.ltb 0 (js_length s) = negb (String.eqb s EmptyString).
Proof.
  rewrite <- js_length_eqb. destruct (js_length s); reflexivity.
Qed.

(** ** Words and characters of a text *)

Lemma substring_0_0 (s : string) : String.substring 0 0 s = EmptyString.
Proof. destruct s; reflexivity. Qed.

Lemma substring_0_length (s : string) : String.substring 0 (String.length s) s = s.
Proof. induction s as [|b s IH]; simpl; [reflexivity |]. rewrite IH. reflexivity. Qed.

Lemma substring_0_app (s t : string) : forall n : nat,
  (n <= String.length s)%nat -> String.substring 0 n (s +:+ t) = String.substring 0 n s.
Proof.
  induction s as [|b s IH]; intros n Hn; simpl in Hn.
  - assert (n = 0%nat) by lia. subst n. rewrite !substring_0_0. reflexivity.
  - destruct n as [|n]; [reflexivity |]. simpl. rewrite IH by lia. reflexivity.
Qed.

Lemma length_substring_0 (s : string) : forall n : nat,
  (n <= String.length s)%nat -> String.length (String.substring 0 n s) = n.
Proof.
  induction s as [|b s IH]; intros n Hn; simpl in Hn.
  - assert (n = 0%nat) by lia. subst n. reflexivity.
  - destruct n as [|n]; [reflexivity |]. simpl. rewrite IH by lia. reflexivity.
Qed.

(** A prefix read off a string that continues: it is as long as asked for,
    unless nothing follows it. *)
Lemma substring_0_prefix (tl T : string) : forall n : nat,
  String.substring 0 n (tl +:+ T) = tl ->
  n = String.length tl \/ (T = EmptyString /\ (String.length tl <= n)%nat).
Proof.
  induction tl as [|a tl IH]; intros n Hn.
  - destruct n as [|n]; [left; reflexivity |]. right.
    destruct T as [|c T]; [split; [reflexivity | simpl; lia] | discriminate].
  - destruct n as [|n]; [discriminate |]. simpl in Hn. injection Hn as Hn.
    destruct (IH n Hn) as [-> | [-> Hle]]; [left; reflexivity |].
    right. split; [reflexivity | simpl; lia].
Qed.

(** *** Reading one character *)

Lemma head_char_cont (b : Ascii.ascii) (r : string) :
  is_cont b = true -> head_char b r = replacement.
Proof.
  unfold is_cont, head_char. intros Hc. apply andb_prop in Hc as [Hlo Hhi].
  apply N.leb_le in Hlo. destruct (N.ltb_spec (byte b) 128); [lia |].
  rewrite Hhi. reflexivity.
Qed.

Lemma head_char_fits (b : Ascii.ascii) (r : string) :
  (snd (head_char b r) <= String.length r)%nat.
Proof.
  unfold head_char, replacement.
  repeat match goal with
         | |- context [if ?c then _ else _] => destruct c
         | |- context [match ?s with EmptyString => _ | String _ _ => _ end] => destruct s
         end; simpl; lia.
Qed.

(** What follows a character does not change how it is read, as long as the
    next character begins properly. *)
Lemma head_char_app (b : Ascii.ascii) (r s2 : string) :
  starts_plain s2 -> head_char b (r +:+ s2) = head_char b r.
Proof.
  intros Hs2. unfold head_char, replacement.
  destruct (byte b <? 128)%N; [reflexivity |].
  destruct (byte b <? 192)%N; [reflexivity |].
  destruct r as [|b1 [|b2 [|b3 r]]];
    destruct s2 as [|c1 [|c2 [|c3 s2]]]; cbv [String.append]; cbn [starts_plain] in Hs2;
    rewrite ?Hs2, ?andb_false_r; cbn [andb];
    repeat match goal with
           | |- context [if ?c then _ else _] => destruct c
           end; reflexivity.
Qed.

(** A character is read back from its own bytes. *)
Lemma head_char_take (b : Ascii.ascii) (r : string) :
  head_char b (String.substring 0 (snd (head_char b r)) r) = head_char b r.
Proof.
  unfold head_char, replacement.
  destruct (byte b <? 128)%N; cbv iota; [reflexivity |].
  destruct (byte b <? 192)%N; cbv iota; [reflexivity |].
  destruct r as [|b1 [|b2 [|b3 r]]];
    repeat (match goal with
            | |- context [if ?c then _ else _] => destruct c eqn:?
            end; cbv iota);
    cbn [snd String.substring]; rewrite ?substring_0_0; cbv iota;
    repeat match goal with
           | H : ?c = _ |- context [?c] => rewrite H
           end; cbv iota; reflexivity.
Qed.

(** *** Reading a string *)

Lemma js_chars_from_short (s : string) : forall k : nat,
  (String.length s <= k)%nat -> js_chars_from k s = [].
Proof.
  induction s as [|b s IH]; intros k Hk; [reflexivity |].
  simpl in Hk. destruct k as [|k]; [lia |]. simpl. apply IH. lia.
Qed.

Lemma js_chars_from_skip (a T : string) (k : nat) :
  js_chars_from (String.length a + k) (a +:+ T) = js_chars_from k T.
Proof. induction a as [|b a IH]; simpl; [reflexivity | exact IH]. Qed.

Lemma append_cons (x : Ascii.ascii) (a b : string) : String x a +:+ b = String x (a +:+ b).
Proof. reflexivity. Qed.

Lemma append_empty_l (a : string) : EmptyString +:+ a = a.
Proof. reflexivity. Qed.

Lemma append_assoc (a b c : string) : (a +:+ b) +:+ c = a +:+ (b +:+ c).
Proof.
  induction a as [|x a IH]; [reflexivity |]. rewrite !append_cons, IH. reflexivity.
Qed.

Lemma append_empty_r (a : string) : a +:+ EmptyString = a.
Proof.
  induction a as [|x a IH]; [reflexivity |]. rewrite append_cons, IH. reflexivity.
Qed.

Lemma text_of_cons (c : jchar) (l : list jchar) : text_of (c :: l) = snd c +:+ text_of l.
Proof. reflexivity. Qed.

Lemma text_of_app (l1 l2 : list jchar) : text_of (l1 ++ l2) = text_of l1 +:+ text_of l2.
Proof.
  induction l1 as [|c l1 IH]; [reflexivity |].
  rewrite <- app_comm_cons, !text_of_cons, IH. symmetry. apply append_assoc.
Qed.

(** The characters read by [js_chars] are read back from their own bytes. *)
Lemma js_chars_from_own (s : string) : forall k : nat, Forall own_char (js_chars_from k s).
Proof.
  induction s as [|b s IH]; intros k; simpl; [constructor |].
  destruct k as [|k]; [| apply IH].
  constructor; [| apply IH].
  exists b, (String.substring 0 (snd (head_char b s)) s). split; [reflexivity |].
  cbn [fst snd]. rewrite head_char_take, length_substring_0 by apply head_char_fits.
  destruct (head_char b s); reflexivity.
Qed.

Lemma js_chars_own (s : string) : Forall own_char (js_chars s).
Proof. apply js_chars_from_own. Qed.

Lemma own_char_nonempty (c : jchar) : own_char c -> snd c <> EmptyString.
Proof. intros (b & tl & -> & _). discriminate. Qed.

(** A character read back from its own bytes, alone. *)
Lemma own_char_alone (c : jchar) : own_char c -> js_chars (snd c) = [c].
Proof.
  intros (b & tl & Hb & Hh). rewrite Hb. unfold js_chars. simpl. rewrite Hh. cbn [fst snd].
  rewrite substring_0_length, js_chars_from_short by lia.
  destruct c as [cp bs]. simpl in *. rewrite Hb. reflexivity.
Qed.

(** White space never begins with a continuation byte. *)
Lemma own_space_plain (c : jchar) :
  own_char c -> is_space (fst c) = true -> starts_plain (snd c).
Proof.
  intros (b & tl & -> & Hh) Hsp. simpl.
  destruct (is_cont b) eqn:Hc; [| reflexivity].
  rewrite (head_char_cont b tl Hc) in Hh. injection Hh as Hcp _.
  rewrite <- Hcp in Hsp. discriminate.
Qed.

(** Reading two strings one after the other, the second beginning properly. *)
Lemma js_chars_from_app (s1 s2 : string) : starts_plain s2 -> forall k : nat,
  (k <= String.length s1)%nat ->
  js_chars_from k (s1 +:+ s2) = js_chars_from k s1 ++ js_chars s2.
Proof.
  intros Hs2. induction s1 as [|b s1 IH]; intros k Hk; simpl in Hk.
  - assert (k = 0%nat) by lia. subst k. reflexivity.
  - simpl. destruct k as [|k]; [| apply IH; lia].
    rewrite (head_char_app b s1 s2 Hs2).
    pose proof (head_char_fits b s1) as Hfit.
    rewrite substring_0_app by exact Hfit. rewrite IH by exact Hfit. reflexivity.
Qed.

(** The bytes of the characters of a string are the string. *)
Lemma text_of_js_chars_from (s : string) : forall k : nat,
  (k <= String.length s)%nat ->
  String.substring 0 k s +:+ text_of (js_chars_from k s) = s.
Proof.
  induction s as [|b s IH]; intros k Hk; simpl in Hk.
  - assert (k = 0%nat) by lia. subst k. reflexivity.
  - destruct k as [|k].
    + pose proof (head_char_fits b s) as Hfit.
      rewrite substring_0_0. change (js_chars_from 0 (String b s)) with (js_chars (String b s)).
      rewrite js_chars_cons, text_of_cons. cbn [snd].
      rewrite append_empty_l, append_cons, (IH _ Hfit). reflexivity.
    + change (String.substring 0 (S k) (String b s)) with (String b (String.substring 0 k s)).
      change (js_chars_from (S k) (String b s)) with (js_chars_from k s).
      rewrite append_cons, IH by lia. reflexivity.
Qed.

Lemma text_of_js_chars (s : string) : text_of (js_chars s) = s.
Proof.
  pose proof (text_of_js_chars_from s 0 (Nat.le_0_l _)) as H0.
  rewrite substring_0_0, append_empty_l in H0. exact H0.
Qed.

(** *** Lists of characters that are read back from their bytes *)

(** Dropping the first character. *)
Lemma decodes_tail (c : jchar) (l : list jchar) :
  js_chars (text_of (c :: l)) = c :: l -> js_chars (text_of l) = l.
Proof.
  rewrite text_of_cons. destruct c as [cp [|b tl]]; cbn [snd].
  - rewrite append_empty_l. intros Hd.
    pose proof (js_chars_from_own (text_of l) 0) as Hown.
    unfold js_chars in Hd. rewrite Hd in Hown. inversion Hown as [|? ? Hc _]; subst.
    apply own_char_nonempty in Hc. contradiction.
  - rewrite append_cons, js_chars_cons. intros Hd. injection Hd as _ Hsub Hrest.
    destruct (substring_0_prefix tl (text_of l) _ Hsub) as [Hn | [HT Hle]].
    + rewrite Hn in Hrest.
      rewrite <- (Nat.add_0_r (String.length tl)), js_chars_from_skip in Hrest. exact Hrest.
    + rewrite HT, append_empty_r in Hrest, Hle.
      rewrite js_chars_from_short in Hrest by exact Hle. subst l. reflexivity.
Qed.

(** Dropping a last character that is white space. *)
Lemma decodes_init (c : jchar) (l : list jchar) :
  own_char c -> is_space (fst c) = true ->
  js_chars (text_of (l ++ [c])) = l ++ [c] -> js_chars (text_of l) = l.
Proof.
  intros Hown Hsp. rewrite text_of_app, text_of_cons.
  change (text_of []) with EmptyString. rewrite append_empty_r.
  unfold js_chars at 1.
  rewrite (js_chars_from_app _ _ (own_space_plain c Hown Hsp) 0 (Nat.le_0_l _)).
  rewrite (own_char_alone c Hown). intros Hd. apply app_inj_tail in Hd as [Hd _]. exact Hd.
Qed.

Lemma drop_spaces_own (l : list jchar) : Forall own_char l -> Forall own_char (drop_spaces l).
Proof.
  induction 1 as [|c l Hc Hl IH]; simpl; [constructor |].
  destruct (is_space (fst c)); [exact IH | constructor; assumption].
Qed.

Lemma drop_spaces_decodes (l : list jchar) :
  js_chars (text_of l) = l -> js_chars (text_of (drop_spaces l)) = drop_spaces l.
Proof.
  induction l as [|c l IH]; simpl; [auto |].
  intros Hd. destruct (is_space (fst c)); [apply IH, (decodes_tail c l Hd) | exact Hd].
Qed.

(** Dropping the white space at the end. *)
Lemma drop_end_spaces (l : list jchar) :
  Forall own_char l -> js_chars (text_of l) = l ->
  js_chars (text_of (List.rev (drop_spaces (List.rev l)))) = List.rev (drop_spaces (List.rev l)).
Proof.
  induction l as [|c l IH] using rev_ind; [auto |].
  intros Hown Hd. rewrite List.rev_app_distr. simpl.
  apply Forall_app in Hown as [Hl Hc]. inversion Hc as [|? ? Hc' _]; subst.
  destruct (is_space (fst c)) eqn:Hsp.
  - apply IH; [exact Hl | exact (decodes_init c l Hc' Hsp Hd)].
  - simpl. rewrite List.rev_involutive. exact Hd.
Qed.

(** [trim], seen on the characters. *)
Lemma js_chars_trim (s : string) : js_chars (trim s) = trim_chars (js_chars s).
Proof.
  unfold trim, trim_chars. apply drop_end_spaces.
  - apply drop_spaces_own, js_chars_from_own.
  - apply drop_spaces_decodes. rewrite text_of_js_chars. reflexivity.
Qed.

(** *** Counting words *)

Lemma count_runs_drop (l : list jchar) : count_runs false (drop_spaces l) = count_runs false l.
Proof.
  induction l as [|c l IH]; simpl; [reflexivity |].
  destruct (is_space (fst c)) eqn:Hsp; [exact IH |]. simpl. rewrite Hsp. reflexivity.
Qed.

Lemma count_runs_space_end (c : jchar) (l : list jchar) : forall w : bool,
  is_space (fst c) = true -> count_runs w (l ++ [c]) = count_runs w l.
Proof.
  induction l as [|x l IH]; intros w Hsp; simpl.
  - rewrite Hsp. reflexivity.
  - destruct (is_space (fst x)); rewrite IH by exact Hsp; reflexivity.
Qed.

Lemma count_runs_drop_end (l : list jchar) (w : bool) :
  count_runs w (List.rev (drop_spaces (List.rev l))) = count_runs w l.
Proof.
  induction l as [|c l IH] using rev_ind; [reflexivity |].
  rewrite List.rev_app_distr. simpl. destruct (is_space (fst c)) eqn:Hsp.
  - rewrite IH. symmetry. apply count_runs_space_end, Hsp.
  - simpl. rewrite List.rev_involutive. reflexivity.
Qed.

(** Trimming removes no word. *)
Lemma count_runs_trim (l : list jchar) : count_runs false (trim_chars l) = count_runs false l.
Proof. unfold trim_chars. rewrite count_runs_drop_end. apply count_runs_drop. Qed.

Lemma nonempty_words_cons (p : string) (rest : list string) :
  List.length (nonempty_words (p :: rest))
  = ((if String.eqb p EmptyString then 0 else 1) + List.length (nonempty_words rest))%nat.
Proof.
  unfold nonempty_words. simpl. rewrite js_length_ltb.
  destruct (String.eqb p EmptyString); reflexivity.
Qed.

Lemma append_own_nonempty (cur : string) (c : jchar) :
  own_char c -> String.eqb (cur +:+ snd c) EmptyString = false.
Proof.
  intros (b & tl & -> & _). destruct cur; reflexivity.
Qed.

(** The pieces [split] yields that [filter] keeps are the words. *)
Lemma split_chars_count (l : list jchar) : Forall own_char l ->
  forall (cur : string) (in_run : bool),
    (in_run = true -> cur = EmptyString) ->
    List.length (nonempty_words (split_chars cur in_run l))
    = ((if String.eqb cur EmptyString then 0 else 1)
       + count_runs (negb (String.eqb cur EmptyString)) l)%nat.
Proof.
  induction 1 as [|c l Hc Hl IH]; intros cur in_run Hrun.
  - simpl split_chars. rewrite nonempty_words_cons. reflexivity.
  - simpl split_chars. simpl count_runs. destruct (is_space (fst c)).
    + destruct in_run.
      * rewrite (Hrun eq_refl). rewrite (IH EmptyString true) by reflexivity. reflexivity.
      * rewrite nonempty_words_cons, (IH EmptyString true) by reflexivity. reflexivity.
    + rewrite (IH (cur +:+ snd c) false) by discriminate.
      rewrite (append_own_nonempty cur c Hc). cbn [negb].
      destruct (String.eqb cur EmptyString); reflexivity.
Qed.

(** The words counted by [updateWordCount] are the words of the text. *)
Lemma words_counted (s : string) :
  List.length (nonempty_words (split_ws (trim s))) = word_runs s.
Proof.
  unfold split_ws, word_runs.
  rewrite (split_chars_count _ (js_chars_own (trim s)) EmptyString false) by discriminate.
  rewrite js_chars_trim. cbn [String.eqb negb Nat.add]. apply count_runs_trim.
Qed.

(** Two words need a white-space character between them. *)
Lemma count_runs_bound (l : list jchar) : forall w : bool,
  (2 * count_runs w l
   <= list_sum (List.map (fun c : jchar => units (fst c)) l) + (if w then 0 else 1))%nat.
Proof.
  unfold list_sum.
  induction l as [|c l IH]; intros w; cbn [count_runs List.map List.fold_right].
  - destruct w; lia.
  - pose proof (units_pos (fst c)) as Hu. destruct (is_space (fst c)).
    + specialize (IH false). cbv iota in IH. destruct w; lia.
    + specialize (IH true). cbv iota in IH. destruct w; lia.
Qed.

Lemma drop_spaces_keeps_end (c : jchar) (l : list jchar) :
  is_space (fst c) = false -> drop_spaces (l ++ [c]) = drop_spaces l ++ [c].
Proof.
  intros Hc. induction l as [|x l IH]; simpl.
  - rewrite Hc. reflexivity.
  - destruct (is_space (fst x)); [exact IH | reflexivity].
Qed.

(** A trimmed text is empty or begins with a character that is not white
    space. *)
Lemma trim_chars_head (l : list jchar) :
  trim_chars l = [] \/ exists c l', trim_chars l = c :: l' /\ is_space (fst c) = false.
Proof.
  unfold trim_chars.
  assert (Hd : drop_spaces l = [] \/
               exists c l', drop_spaces l = c :: l' /\ is_space (fst c) = false).
  { induction l as [|c l IH]; simpl; [left; reflexivity |].
    destruct (is_space (fst c)) eqn:Hc; [exact IH |]. right. eauto. }
  destruct Hd as [-> | (c & l' & -> & Hc)]; [left; reflexivity |].
  right. exists c. simpl. rewrite (drop_spaces_keeps_end c (List.rev l') Hc).
  rewrite List.rev_app_distr. simpl. eauto.
Qed.

(** No word is counted exactly when the trimmed text is empty. *)
Lemma no_words_iff_blank (s : string) : word_runs s = 0%nat <-> trim s = EmptyString.
Proof.
  unfold word_runs. rewrite <- count_runs_trim.
  pose proof (js_chars_trim s) as Ht. unfold trim in *.
  destruct (trim_chars_head (js_chars s)) as [He | (c & l' & He & Hc)]; rewrite He in *.
  - split; reflexivity.
  - simpl count_runs. rewrite Hc. split; [lia |].
    intros Hb. rewrite Hb in Ht. discriminate.
Qed.

Section WordCount.
Context {json_lib : JSON} {quill_lib : Quill}.

(** X1: the footer written by [updateWordCount] shows the number [n] of
    words and the number [m] of characters of the text.  [n] is the number
    of maximal runs of characters of the text that are not white space (white
    space as ECMAScript defines it, the no-break space and the line
    separators included); [m] is the length of the trimmed text in UTF-16 code
    units, so that a character beyond the Basic Multilingual Plane counts
    twice.  No word is counted exactly when no character is, which is when
    the trimmed text is empty (the condition on which an automatic save is
    skipped and an export refused); and [n] words take at least [2 n - 1]
    characters. *)
Theorem word_count_footer :
  forall (w : World) (q : Engine),
    quill (vars w) = Some q ->
    exists n m : nat,
      wordCount (page (world_of (updateWordCount w)))
      = "Words: " +:+ pretty n +:+ " | Characters: " +:+ pretty m /\
      n = word_runs (delta_text (contents q)) /\
      m = js_length (trim (delta_text (contents q))) /\
      (n = 0%nat <-> trim (delta_text (contents q)) = EmptyString) /\
      (m = 0%nat <-> trim (delta_text (contents q)) = EmptyString) /\
      (2 * n <= m + 1)%nat /\
      thrown (updateWordCount w) = None.
Proof.
  intros w q Hq.
  exists (word_runs (delta_text (contents q))),
         (js_length (trim (delta_text (contents q)))).
  split; [| split; [reflexivity | split; [reflexivity | split;
            [apply no_words_iff_blank | split; [apply js_length_zero | split]]]]].
  - unfold updateWordCount, bind, get, modify. rewrite Hq. cbn [world_of page wordCount].
    rewrite words_counted. reflexivity.
  - rewrite <- words_counted. unfold split_ws, js_length.
    rewrite (split_chars_count _ (js_chars_own (trim (delta_text (contents q))))
               EmptyString false) by discriminate.
    pose proof (count_runs_bound (js_chars (trim (delta_text (contents q)))) false) as Hb.
    cbv iota in Hb. cbn [String.eqb negb Nat.add]. lia.
  - unfold updateWordCount, bind, get, modify. rewrite Hq. reflexivity.
Qed.

End WordCount.
Section StableRules.
Variable R : World -> World -> Prop.
Context {R_pre : PreOrder R}.

Lemma stable_ret {A} (a : A) : stable R (ret a).
Proof. intros w. simpl. reflexivity. Qed.

Lemma stable_throw {A} (e : js_error) : stable R (@throw A e).
Proof. intros w. simpl. reflexivity. Qed.

Lemma stable_get : stable R get.
Proof. intros w. simpl. reflexivity. Qed.

Lemma stable_bind {A B} (c : M A) (k : A -> M B) :
  stable R c -> (forall a, stable R (k a)) -> stable R (bind c k).
Proof.
  intros Hc Hk w. unfold bind. specialize (Hc w).
  destruct (c w) as [a w'|e w']; simpl in *.
  - etransitivity; [exact Hc | apply Hk].
  - exact Hc.
Qed.

Lemma stable_try_catch {A} (c : M A) (h : js_error -> M A) :
  stable R c -> (forall e, stable R (h e)) -> stable R (try_catch c h).
Proof.
  intros Hc Hh w. unfold try_catch. specialize (Hc w).
  destruct (c w) as [a w'|e w']; simpl in *.
  - exact Hc.
  - etransitivity; [exact Hc | apply Hh].
Qed.

Lemma stable_modify (f : World -> World) :
  (forall w, R w (f w)) -> stable R (modify f).
Proof. intros Hf w. simpl. apply Hf. Qed.

Lemma stable_lift_result {A} (r : result A) : stable R (lift_result r).
Proof. destruct r; [apply stable_ret | apply stable_throw]. Qed.

Lemma stable_throw_if (f : option js_error) : stable R (throw_if f).
Proof. destruct f; [apply stable_throw | apply stable_ret]. Qed.

Lemma stable_Date_now : stable R Date_now.
Proof. apply stable_bind; [apply stable_get | intros; apply stable_ret]. Qed.

(** A handler the browser runs: the uncaught exception, if any, is logged. *)
Lemma stable_dispatch (c : M unit) :
  stable R c -> (forall e w, R w (upd_out (add_uncaught e) w)) ->
  forall w, R w (dispatch c w).
Proof.
  intros Hc Hu w. unfold dispatch. specialize (Hc w).
  destruct (c w) as [a w'|e w']; simpl in *.
  - exact Hc.
  - etransitivity; [exact Hc | apply Hu].
Qed.

End StableRules.

Lemma stable_mono (R S : World -> World -> Prop) {A} (c : M A) :
  (forall w w', R w w' -> S w w') -> stable R c -> stable S c.
Proof. intros HRS Hc w. apply HRS, Hc. Qed.

(** ** Time and dialogs *)

#[global] Instance Grows_preorder : PreOrder Grows.
Proof.
  split.
  - intros w. split; [lia |]. exists []. rewrite app_nil_r. auto.
  - intros w1 w2 w3 (Hn1 & s1 & Hd1 & Hs1) (Hn2 & s2 & Hd2 & Hs2). split; [lia |].
    exists (s1 ++ s2). split; [rewrite Hd2, Hd1, app_assoc; reflexivity |].
    intros Hnil. apply List.app_eq_nil in Hnil as [E1 E2].
    rewrite (Hs2 E2), (Hs1 E1). reflexivity.
Qed.

Lemma Grows_same w w' :
  now (loop w') = now (loop w) -> dialogs (out w') = dialogs (out w) -> Grows w w'.
Proof.
  intros Hn Hd. split; [lia |]. exists []. rewrite app_nil_r. auto.
Qed.

(** When no dialog was shown the clock did not move. *)
Lemma Grows_still w w' : Grows w w' -> Still w w' -> now (loop w') = now (loop w).
Proof.
  intros (_ & shown & Hd & Hs) Hst. apply Hs. unfold Still in Hst.
  rewrite Hd in Hst. rewrite <- (app_nil_r (dialogs (out w))) in Hst at 2.
  apply List.app_inv_head in Hst. exact Hst.
Qed.

(** No dialog over two steps is no dialog in either. *)
Lemma Grows_Still_split w1 w2 w3 :
  Grows w1 w2 -> Grows w2 w3 -> Still w1 w3 -> Still w1 w2 /\ Still w2 w3.
Proof.
  intros (_ & s1 & Hd1 & _) (_ & s2 & Hd2 & _) Hst. unfold Still in *.
  rewrite Hd2, Hd1, <- app_assoc in Hst.
  rewrite <- (app_nil_r (dialogs (out w1))) in Hst at 2.
  apply List.app_inv_head, List.app_eq_nil in Hst as [E1 E2].
  rewrite Hd2, Hd1, E1, E2, !app_nil_r. auto.
Qed.

Lemma Grows_open_dialog d w : Grows w (world_of (open_dialog d w)).
Proof.
  unfold Grows, open_dialog, modify, shown. simpl.
  split; [unfold dialog_ms; lia |].
  exists [d]. split; [reflexivity | discriminate].
Qed.

(** ** Scripts that leave the autosave alone *)

#[global] Instance Quiet_preorder K : PreOrder (Quiet K).
Proof.
  split.
  - intros w. split; [reflexivity |]. repeat split.
    exists []. rewrite app_nil_r. split; [reflexivity | constructor].
  - intros w1 w2 w3 (Hg1 & (a1 & Ht1 & Hf1) & Ha1 & He1 & Hc1)
                    (Hg2 & (a2 & Ht2 & Hf2) & Ha2 & He2 & Hc2).
    split; [transitivity w2; assumption |].
    split; [| repeat split; congruence].
    exists (a1 ++ a2). split.
    + rewrite Ht2, Ht1, app_assoc. reflexivity.
    + apply Forall_app. split; [exact Hf1 |].
      eapply Forall_impl; [exact Hf2 |]. intros t [HK Hd]. split; [exact HK |].
      destruct Hg1. lia.
Qed.

Lemma Quiet_Grows K w w' : Quiet K w w' -> Grows w w'.
Proof. intros [Hg _]. exact Hg. Qed.

Lemma Quiet_weaken (K K' : callback -> bool) w w' :
  (forall c, K c = true -> K' c = true) -> Quiet K w w' -> Quiet K' w w'.
Proof.
  intros HK (Hn & (a & Ht & Hf) & Ha & He & Hc).
  unfold Quiet. repeat split; try assumption; try apply Hn.
  exists a. split; [exact Ht |].
  eapply Forall_impl; [exact Hf |]. intros t [H1 H2]. split; [apply HK, H1 | exact H2].
Qed.

(** A step that touches neither the loop, nor the dialogs, nor the autosave
    variables, nor the recorded calls. *)
Lemma Quiet_same K w w' :
  loop w' = loop w ->
  dialogs (out w') = dialogs (out w) ->
  autosaveTimer (vars w') = autosaveTimer (vars w) ->
  isAutosaveEnabled (vars w') = isAutosaveEnabled (vars w) ->
  calls (out w') = calls (out w) ->
  Quiet K w w'.
Proof.
  intros Hl Hd Ha He Hc. unfold Quiet, auto_calls. rewrite Hc.
  split; [apply Grows_same; [rewrite Hl; reflexivity | exact Hd] |].
  rewrite Hl. repeat split; try assumption.
  exists []. rewrite app_nil_r. split; [reflexivity | constructor].
Qed.

Lemma auto_calls_add_other w t c :
  is_auto_call (t, c) = false ->
  auto_calls (upd_out (add_call t c) w) = auto_calls w.
Proof.
  intros Hc. unfold auto_calls. simpl. rewrite List.filter_app. simpl.
  rewrite Hc. apply app_nil_r.
Qed.

Lemma Quiet_add_call K w t c :
  is_auto_call (t, c) = false -> Quiet K w (upd_out (add_call t c) w).
Proof.
  intros Hc. unfold Quiet. rewrite auto_calls_add_other by exact Hc.
  split; [apply Grows_same; reflexivity |]. repeat split.
  exists []. rewrite app_nil_r. split; [reflexivity | constructor].
Qed.

Lemma Quiet_setTimeout K c d :
  K c = true -> 0 < d -> stable (Quiet K) (setTimeout c d).
Proof.
  intros HK Hd w. unfold Quiet. simpl.
  split; [apply Grows_same; reflexivity |]. repeat split.
  eexists. split; [reflexivity |].
  constructor; [| constructor]. simpl. split; [exact HK | lia].
Qed.

Lemma Quiet_open_dialog K d : stable (Quiet K) (open_dialog d).
Proof.
  intros w. split; [apply Grows_open_dialog |].
  unfold open_dialog, modify, shown. simpl. repeat split.
  exists []. rewrite app_nil_r. split; [reflexivity | constructor].
Qed.

Create HintDb quiet discriminated.

(** Decomposition of a goal [stable R c] along the structure of [c]. *)
Ltac stable_leaf := fail.

Ltac rule l := apply l; try typeclasses eauto.

(** A [modify] whose function keeps the observed fields as they are. *)
Ltac quiet_modify :=
  rule stable_modify; intros ?; apply Quiet_same; reflexivity.

(** Leaves that record a call other than an autosave, or set a timer. *)
Ltac quiet_leaf :=
  first
    [ rule stable_modify; intros ?; apply Quiet_add_call; reflexivity
    | apply Quiet_setTimeout;
      [ first [ reflexivity
              | match goal with
                | HK : forall c, _ = true -> _ = true |- _ => apply HK; reflexivity
                end ]
      | lia ] ].

Ltac stable_step :=
  first
    [ rule stable_ret
    | rule stable_throw
    | rule stable_get
    | rule stable_Date_now
    | rule stable_lift_result
    | rule stable_throw_if
    | solve [eauto 2 with quiet]
    | solve [quiet_modify]
    | solve [quiet_leaf]
    | rule stable_bind; [| intros ?]
    | rule stable_try_catch; [| intros ?]
    | match goal with
      | |- stable _ (match ?x with _ => _ end) => destruct x
      | |- stable _ (let _ := _ in _) => cbv zeta
      end ].

Ltac stable_go := repeat stable_step.


Section QuietScripts.
Context {json_lib : JSON} {quill_lib : Quill}.
Variable K : callback -> bool.
Hypothesis K_quiet : forall c, quiet_cb c = true -> K c = true.

Lemma quiet_open_dialog d : stable (Quiet K) (open_dialog d).
Proof. apply Quiet_open_dialog. Qed.

Lemma quiet_alert s : stable (Quiet K) (alert s).
Proof. apply Quiet_open_dialog. Qed.

Lemma quiet_console_log s : stable (Quiet K) (console_log s).
Proof. unfold console_log. quiet_modify. Qed.

Lemma quiet_console_warn s : stable (Quiet K) (console_warn s).
Proof. unfold console_warn. quiet_modify. Qed.

Lemma quiet_console_error s : stable (Quiet K) (console_error s).
Proof. unfold console_error. quiet_modify. Qed.

Hint Resolve quiet_open_dialog quiet_alert quiet_console_log quiet_console_warn quiet_console_error : quiet.

Lemma quiet_confirm s b : stable (Quiet K) (confirm s b).
Proof. unfold confirm. stable_go. Qed.

Lemma quiet_getItem k : stable (Quiet K) (localStorage_getItem k).
Proof. unfold localStorage_getItem. stable_go. Qed.

Lemma quiet_setItem k v : stable (Quiet K) (localStorage_setItem k v).
Proof. unfold localStorage_setItem. stable_go. Qed.

Lemma quiet_removeItem k : stable (Quiet K) (localStorage_removeItem k).
Proof. unfold localStorage_removeItem. stable_go. Qed.

Hint Resolve quiet_confirm quiet_getItem quiet_setItem quiet_removeItem : quiet.

Lemma quiet_createElement : stable (Quiet K) createElement.
Proof. intros w. apply Quiet_same; reflexivity. Qed.

Lemma quiet_appendChild n : stable (Quiet K) (appendChild n).
Proof. unfold appendChild. quiet_modify. Qed.

Lemma quiet_has_parent n : stable (Quiet K) (has_parent n).
Proof. unfold has_parent. stable_go. Qed.

Hint Resolve quiet_createElement quiet_appendChild quiet_has_parent : quiet.

Lemma quiet_removeChild n : stable (Quiet K) (removeChild n).
Proof. unfold removeChild. stable_go. Qed.

Lemma quiet_the_quill : stable (Quiet K) the_quill.
Proof. unfold the_quill. stable_go. Qed.

Lemma quiet_put_quill q : stable (Quiet K) (put_quill q).
Proof. unfold put_quill. quiet_modify. Qed.

Hint Resolve quiet_removeChild quiet_the_quill quiet_put_quill : quiet.

Lemma quiet_getContents : stable (Quiet K) quill_getContents.
Proof. unfold quill_getContents. stable_go. Qed.

Lemma quiet_getText : stable (Quiet K) quill_getText.
Proof. unfold quill_getText. stable_go. Qed.

Lemma quiet_history_clear : stable (Quiet K) history_clear.
Proof. unfold history_clear. stable_go. Qed.

Lemma quiet_quill_on l : stable (Quiet K) (quill_on l).
Proof. unfold quill_on. stable_go. Qed.

Hint Resolve quiet_getContents quiet_getText quiet_history_clear quiet_quill_on : quiet.

Lemma quiet_updateWordCount : stable (Quiet K) updateWordCount.
Proof.
  unfold updateWordCount. stable_go.
Qed.

Lemma quiet_updateAutosaveStatus s : stable (Quiet K) (updateAutosaveStatus s).
Proof.
  unfold updateAutosaveStatus. stable_go.
Qed.

Hint Resolve quiet_updateWordCount quiet_updateAutosaveStatus : quiet.

Lemma quiet_handleSaveError e a : stable (Quiet K) (handleSaveError e a).
Proof. unfold handleSaveError. stable_go. Qed.

Hint Resolve quiet_handleSaveError : quiet.

Lemma quiet_performSave_body a : stable (Quiet K) (performSave_body a).
Proof. unfold performSave_body. stable_go. Qed.

Lemma quiet_manualSave : stable (Quiet K) manualSave.
Proof.
  unfold manualSave, performSave.
  rule stable_bind; [rule stable_Date_now | intros t0].
  rule stable_bind; [| intros _; apply quiet_performSave_body].
  quiet_leaf.
Qed.

Hint Resolve quiet_manualSave : quiet.

Lemma quiet_run_listeners_api ls : stable (Quiet K) (run_listeners SrcApi ls).
Proof.
  induction ls as [|l ls IH]; simpl; [rule stable_ret |].
  rule stable_bind; [| intros _; exact IH].
  destruct l; simpl; stable_go.
Qed.

Hint Resolve quiet_run_listeners_api : quiet.

Lemma quiet_engine_change_api d : stable (Quiet K) (engine_change d SrcApi).
Proof. unfold engine_change. stable_go. Qed.

Hint Resolve quiet_engine_change_api : quiet.

Lemma quiet_setContents x : stable (Quiet K) (quill_setContents x).
Proof. unfold quill_setContents. stable_go. Qed.

Lemma quiet_setText s : stable (Quiet K) (quill_setText s).
Proof. apply quiet_engine_change_api. Qed.

Hint Resolve quiet_setContents quiet_setText : quiet.

Lemma quiet_initializeEditor : stable (Quiet K) initializeEditor.
Proof. unfold initializeEditor. stable_go. Qed.

Lemma quiet_createNewDocument ok : stable (Quiet K) (createNewDocument ok).
Proof. unfold createNewDocument. stable_go. Qed.

Lemma quiet_toggleDarkMode : stable (Quiet K) toggleDarkMode.
Proof. unfold toggleDarkMode. stable_go. Qed.

Lemma quiet_checkDarkModePreference : stable (Quiet K) checkDarkModePreference.
Proof. unfold checkDarkModePreference. stable_go. Qed.

Lemma quiet_parse s : stable (Quiet K) (parse s).
Proof. unfold parse. stable_go. Qed.

Hint Resolve quiet_parse : quiet.

Lemma quiet_handleLoadError e ok : stable (Quiet K) (handleLoadError e ok).
Proof. unfold handleLoadError. stable_go. Qed.

Hint Resolve quiet_handleLoadError : quiet.

Lemma quiet_loadSavedDocument ok : stable (Quiet K) (loadSavedDocument ok).
Proof. unfold loadSavedDocument. stable_go. Qed.

Hint Resolve quiet_loadSavedDocument : quiet.

Lemma quiet_manualLoad ok1 ok2 : stable (Quiet K) (manualLoad ok1 ok2).
Proof. unfold manualLoad. stable_go. Qed.

Lemma quiet_setupStorageListeners : stable (Quiet K) setupStorageListeners.
Proof. unfold setupStorageListeners. stable_go. Qed.

Hint Resolve quiet_setupStorageListeners : quiet.

Lemma quiet_storage_start ok : stable (Quiet K) (storage_start ok).
Proof. unfold storage_start. stable_go. Qed.

Hint Resolve quiet_storage_start : quiet.

Lemma quiet_storage_init ok : stable (Quiet K) (storage_init ok).
Proof.
  unfold storage_init. stable_go.
Qed.

Lemma quiet_set_exportBtn b s : stable (Quiet K) (set_exportBtn b s).
Proof. unfold set_exportBtn. quiet_modify. Qed.

Hint Resolve quiet_set_exportBtn : quiet.

Lemma quiet_remove_if_attached n : stable (Quiet K) (remove_if_attached n).
Proof. unfold remove_if_attached. stable_go. Qed.

Hint Resolve quiet_remove_if_attached : quiet.

Lemma quiet_export_catch e o wr : stable (Quiet K) (export_catch e o wr).
Proof. unfold export_catch. stable_go. Qed.

Hint Resolve quiet_export_catch : quiet.

Lemma quiet_export_click o : stable (Quiet K) (export_click o).
Proof.
  unfold export_click. stable_go.
Qed.

Lemma quiet_export_rendered o ov wr : stable (Quiet K) (export_rendered o ov wr).
Proof.
  unfold export_rendered. stable_go.
Qed.

Lemma quiet_export_canvas o ov wr : stable (Quiet K) (export_canvas o ov wr).
Proof.
  unfold export_canvas. stable_go.
Qed.

Lemma quiet_export_cleanup ov wr : stable (Quiet K) (export_cleanup ov wr).
Proof. unfold export_cleanup. stable_go. Qed.

End QuietScripts.

(** ** The event loop between two inputs *)

Lemma take_due_Some t ts x rest :
  take_due t ts = Some (x, rest) ->
  exists l1 l2, ts = l1 ++ x :: l2 /\ rest = l1 ++ l2 /\ is_due t x = true /\
                Forall (fun y => is_due t y = false) l1.
Proof.
  revert x rest. induction ts as [|y ts IH]; intros x rest; simpl; [discriminate |].
  destruct (is_due t y) eqn:Hy.
  - intros [= <- <-]. exists [], ts. repeat split; [exact Hy | constructor].
  - destruct (take_due t ts) as [[z rest']|] eqn:Ht; [| discriminate].
    intros [= <- <-]. destruct (IH z rest' eq_refl) as (l1 & l2 & -> & -> & Hz & Hl).
    exists (y :: l1), l2. repeat split; [exact Hz | constructor; assumption].
Qed.


Lemma filter_remove_other {A} (P : A -> bool) l1 x l2 :
  P x = false -> List.filter P (l1 ++ x :: l2) = List.filter P (l1 ++ l2).
Proof.
  intros Hx. rewrite !List.filter_app. simpl. rewrite Hx. reflexivity.
Qed.

Lemma is_autosave_cb_true c : is_autosave_cb c = true -> c = CbPerformAutosave.
Proof. destruct c; simpl; congruence. Qed.


Lemma Quiet_uncaught K e w : Quiet K w (upd_out (add_uncaught e) w).
Proof. apply Quiet_same; reflexivity. Qed.

Lemma Quiet_undisturbed w w' : Quiet quiet_cb w w' -> Still w w' -> undisturbed w w'.
Proof.
  intros (Hg & (a & Ht & Hf) & Ha & He & Hc) Hst. unfold undisturbed.
  pose proof (Grows_still _ _ Hg Hst) as Hn.
  assert (Hq : Forall (fun t => quiet_cb (cb t) = true) a).
  { eapply Forall_impl; [exact Hf |]. intros t [Hk _]. exact Hk. }
  repeat split; try assumption.
  - unfold auto_timers. rewrite Ht, List.filter_app.
    replace (List.filter (fun t => is_autosave_cb (cb t)) a) with (@nil timer).
    + apply app_nil_r.
    + clear -Hq. induction Hq as [|t a Hk _ IH]; simpl; [reflexivity |].
      unfold quiet_cb in Hk. destruct (is_autosave_cb (cb t)); [discriminate | exact IH].
  - intros T HT. unfold no_trigger_until in *. rewrite Ht. apply Forall_app. split; [exact HT |].
    eapply Forall_impl; [exact Hq |]. intros t Hk Htr.
    unfold quiet_cb in Hk. rewrite Htr in Hk.
    destruct (is_autosave_cb (cb t)); discriminate.
Qed.


#[global] Instance undisturbed_preorder : PreOrder undisturbed.
Proof.
  split.
  - intros w. unfold undisturbed. repeat split; auto.
  - intros w1 w2 w3 (Hn1 & Ha1 & Ht1 & Hc1) (Hn2 & Ha2 & Ht2 & Hc2).
    unfold undisturbed. repeat split; try congruence. auto.
Qed.

Section Window.
Context {json_lib : JSON} {quill_lib : Quill}.

Lemma quiet_run_callback c :
  quiet_cb c = true -> stable (Quiet quiet_cb) (run_callback c).
Proof.
  intros Hc. destruct c; try discriminate; simpl.
  - apply quiet_storage_init; auto.
  - apply quiet_storage_start; auto.
  - apply quiet_updateAutosaveStatus; auto.
  - apply quiet_updateWordCount; auto.
  - apply quiet_export_rendered; auto.
  - apply quiet_export_canvas; auto.
  - apply quiet_export_cleanup; auto.
Qed.

Lemma quiet_fire c w :
  quiet_cb c = true -> Quiet quiet_cb w (dispatch (run_callback c) w).
Proof.
  intros Hc. apply stable_dispatch; [typeclasses eauto | | ].
  - apply quiet_run_callback, Hc.
  - intros. apply Quiet_uncaught.
Qed.



End Window.

(** ** [triggerAutosave] and the user's changes *)

#[global] Instance Rearm_preorder : PreOrder Rearm.
Proof.
  split.
  - intros w. unfold Rearm. repeat split; auto.
  - intros w1 w2 w3 (Hn1 & Hd1 & He1 & Hc1 & Hk1 & Ht1 & Ha1)
                    (Hn2 & Hd2 & He2 & Hc2 & Hk2 & Ht2 & Ha2).
    unfold Rearm. repeat split; try congruence; auto.
    intros Ha. rewrite Hn1 in Ha2. auto.
Qed.

Lemma Quiet_Rearm w w' : Quiet quiet_cb w w' -> Still w w' -> Rearm w w'.
Proof.
  intros Q Hst. pose proof (Quiet_undisturbed _ _ Q Hst) as (Hn & Hat & Htr & Hc).
  destruct Q as (_ & (a & Ht & Hf) & Ha & He & _).
  unfold Rearm. repeat split; try assumption.
  - unfold timer_handle_ok. intros Hok. rewrite Ht, Ha. apply Forall_app. split; [exact Hok |].
    eapply Forall_impl; [exact Hf |]. intros t [Hq _] Hc'.
    unfold quiet_cb in Hq. rewrite Hc' in Hq. discriminate.
  - intros (id & Hid & Hx). exists id. split; congruence.
Qed.

Lemma filter_kept_auto handle ts :
  Forall (fun t => is_autosave_cb (cb t) = true -> handle = Some (tid t)) ts ->
  List.filter (fun t => is_autosave_cb (cb t)) (List.filter (kept handle) ts) = [].
Proof.
  induction 1 as [|t ts Ht _ IH]; simpl; [reflexivity |].
  destruct (kept handle t) eqn:Hk; simpl; [| exact IH].
  destruct (is_autosave_cb (cb t)) eqn:Hc; [| exact IH].
  exfalso. rewrite (Ht eq_refl) in Hk. simpl in Hk. rewrite Pos.eqb_refl in Hk. discriminate.
Qed.

Lemma filter_kept_None ts : List.filter (kept None) ts = ts.
Proof. induction ts as [|t ts IH]; simpl; [reflexivity | rewrite IH; reflexivity]. Qed.

Section Trigger.
Context {json_lib : JSON} {quill_lib : Quill}.

(** What [triggerAutosave] does while autosave is enabled. *)
Lemma triggerAutosave_enabled w :
  isAutosaveEnabled (vars w) = true ->
  exists w',
    triggerAutosave w = Ok tt w' /\
    now (loop w') = now (loop w) /\
    timers (loop w') =
      List.filter (kept (autosaveTimer (vars w))) (timers (loop w))
      ++ [mkTimer (next_timer (loop w)) (now (loop w) + AUTOSAVE_DELAY) CbPerformAutosave] /\
    autosaveTimer (vars w') = Some (next_timer (loop w)) /\
    isAutosaveEnabled (vars w') = true /\
    calls (out w') = calls (out w) /\
    dialogs (out w') = dialogs (out w).
Proof.
  intros He. unfold triggerAutosave, bind, get. rewrite He. simpl.
  destruct (autosaveTimer (vars w)) as [id|] eqn:Hid; simpl.
  - eexists. split; [reflexivity |]. simpl. rewrite He. repeat split.
  - eexists. split; [reflexivity |]. simpl. rewrite He. repeat split.
    rewrite filter_kept_None. reflexivity.
Qed.

Lemma triggerAutosave_disabled w :
  isAutosaveEnabled (vars w) = false -> triggerAutosave w = Ok tt w.
Proof. intros He. unfold triggerAutosave, bind, get. rewrite He. reflexivity. Qed.

Lemma triggerAutosave_returns w : exists w', triggerAutosave w = Ok tt w'.
Proof.
  destruct (isAutosaveEnabled (vars w)) eqn:He.
  - destruct (triggerAutosave_enabled w He) as (w' & Hw & _). eauto.
  - rewrite triggerAutosave_disabled by exact He. eauto.
Qed.

Lemma triggerAutosave_arms w :
  isAutosaveEnabled (vars w) = true -> timer_handle_ok w ->
  armed_at (now (loop w) + AUTOSAVE_DELAY) (world_of (triggerAutosave w)).
Proof.
  intros He Hok. destruct (triggerAutosave_enabled w He) as (w' & -> & Hn & Ht & Ha & _).
  simpl. exists (next_timer (loop w)). split; [exact Ha |].
  unfold auto_timers. rewrite Ht, List.filter_app. simpl.
  rewrite filter_kept_auto by exact Hok. reflexivity.
Qed.

Lemma triggerAutosave_Rearm : stable Rearm triggerAutosave.
Proof.
  intros w. destruct (isAutosaveEnabled (vars w)) eqn:He.
  2:{ rewrite triggerAutosave_disabled by exact He. simpl. reflexivity. }
  destruct (triggerAutosave_enabled w He) as (w' & -> & Hn & Ht & Ha & He' & Hc & Hdl).
  simpl. unfold Rearm. repeat split.
  - exact Hn.
  - exact Hdl.
  - congruence.
  - unfold auto_calls. rewrite Hc. reflexivity.
  - intros Hok. unfold timer_handle_ok. rewrite Ht, Ha. apply Forall_app. split.
    + apply Forall_forall. intros t Hin Hc'. exfalso.
      apply list_elem_of_In, List.filter_In in Hin as [Hin Hk].
      unfold timer_handle_ok in Hok. rewrite Forall_forall in Hok.
      specialize (Hok t (proj2 (list_elem_of_In _ _) Hin) Hc').
      rewrite Hok in Hk. simpl in Hk. rewrite Pos.eqb_refl in Hk. discriminate.
    + constructor; [| constructor]. intros _. reflexivity.
  - intros T HT. unfold no_trigger_until in *. rewrite Ht. apply Forall_app. split.
    + apply Forall_forall. intros t Hin.
      apply list_elem_of_In, List.filter_In in Hin as [Hin _].
      rewrite Forall_forall in HT. apply HT, list_elem_of_In, Hin.
    + constructor; [| constructor]. simpl. discriminate.
  - intros (id & Hid & Hx). exists (next_timer (loop w)). split; [exact Ha |].
    unfold auto_timers in *. rewrite Ht, List.filter_app. simpl.
    replace (List.filter (fun t => is_autosave_cb (cb t))
               (List.filter (kept (autosaveTimer (vars w))) (timers (loop w))))
      with (@nil timer); [reflexivity |].
    symmetry. apply filter_kept_auto. apply Forall_forall. intros t Hin Hc'.
    assert (Ht' : In t [mkTimer id (now (loop w) + AUTOSAVE_DELAY) CbPerformAutosave]).
    { rewrite <- Hx. apply List.filter_In. split; [apply list_elem_of_In, Hin | exact Hc']. }
    destruct Ht' as [<- | []]. exact Hid.
Qed.

Lemma updateWordCount_returns w : exists w', updateWordCount w = Ok tt w'.
Proof.
  unfold updateWordCount, bind, get. destruct (quill (vars w)); simpl; eauto.
Qed.

Lemma run_listener_returns src l w : exists w', run_listener src l w = Ok tt w'.
Proof.
  destruct l; simpl.
  - apply updateWordCount_returns.
  - destruct src; [apply triggerAutosave_returns | simpl; eauto].
Qed.

Lemma updateWordCount_still w : Still w (world_of (updateWordCount w)).
Proof.
  unfold updateWordCount, bind, get. destruct (quill (vars w)); reflexivity.
Qed.

Lemma run_listener_Rearm src l : stable Rearm (run_listener src l).
Proof.
  destruct l; simpl.
  - intros w. apply Quiet_Rearm; [apply quiet_updateWordCount; auto | apply updateWordCount_still].
  - destruct src; [apply triggerAutosave_Rearm | apply stable_ret; typeclasses eauto].
Qed.

Lemma run_listeners_Rearm src ls : stable Rearm (run_listeners src ls).
Proof.
  induction ls as [|l ls IH]; simpl; [apply stable_ret; typeclasses eauto |].
  apply stable_bind; [typeclasses eauto | apply run_listener_Rearm | intros _; exact IH].
Qed.

(** With the autosave listener attached, a user change arms the timer. *)
Lemma run_listeners_arms ls : forall w,
  In AutosaveListener ls ->
  isAutosaveEnabled (vars w) = true -> timer_handle_ok w ->
  armed_at (now (loop w) + AUTOSAVE_DELAY) (world_of (run_listeners SrcUser ls w)).
Proof.
  induction ls as [|l ls IH]; intros w Hin He Hok; [destruct Hin |].
  simpl. unfold bind.
  destruct (run_listener_returns SrcUser l w) as (w1 & Hw1).
  pose proof (run_listener_Rearm SrcUser l w) as R1. rewrite Hw1 in *. simpl in R1.
  destruct R1 as (Hn1 & _ & He1 & _ & Hok1 & _ & _).
  destruct l.
  - destruct Hin as [Hin | Hin]; [discriminate |].
    rewrite <- Hn1. apply IH; [exact Hin | congruence | auto].
  - pose proof (triggerAutosave_arms w He Hok) as Harm.
    simpl in Hw1. rewrite Hw1 in Harm. simpl in Harm.
    pose proof (run_listeners_Rearm SrcUser ls w1) as (_ & _ & _ & _ & _ & _ & Ha).
    rewrite Hn1 in Ha. apply Ha, Harm.
Qed.

End Trigger.

(** ** Properties of whole sessions *)

Lemma quiet_not_auto c : quiet_cb c = true -> not_auto_cb c = true.
Proof. unfold quiet_cb, not_auto_cb. intros Hc. apply andb_prop in Hc as [Hc _]. exact Hc. Qed.

(** A relation that holds across every quiet script, every call of
    [triggerAutosave] and every firing of a timer holds across every event. *)
Section Session.
Context {json_lib : JSON} {quill_lib : Quill}.
Variable R : World -> World -> Prop.
Context {R_pre : PreOrder R}.
Hypothesis R_quiet : forall w w', Quiet not_auto_cb w w' -> R w w'.
Hypothesis R_trigger : stable R triggerAutosave.
Hypothesis R_fire : forall w x rest,
  take_due (now (loop w)) (timers (loop w)) = Some (x, rest) ->
  R w (dispatch (run_callback (cb x)) (upd_loop (set_timers rest) w)).
Hypothesis R_clock : forall w, R w (upd_loop (fun l => set_now (now l + 1) l) w).
Hypothesis R_storage : forall w d f,
  R w (upd_storage (fun s => mkStorage (store_items s) d f) w).
Hypothesis R_dwell : forall w f, R w (set_dwell f w).

Ltac by_quiet :=
  eapply stable_mono; [apply R_quiet |];
  first [ apply quiet_the_quill | apply quiet_put_quill | apply quiet_console_log
        | apply quiet_console_error | apply quiet_updateWordCount
        | apply quiet_createNewDocument | apply quiet_manualSave | apply quiet_manualLoad
        | apply quiet_export_click | apply quiet_toggleDarkMode
        | apply quiet_setText | apply quiet_setContents | apply quiet_history_clear
        | apply quiet_initializeEditor | apply quiet_checkDarkModePreference
        | apply quiet_alert
        | apply Quiet_setTimeout; [reflexivity | lia] ];
  try apply quiet_not_auto; auto.

Lemma session_run_listeners src ls : stable R (run_listeners src ls).
Proof.
  induction ls as [|l ls IH]; simpl; [rule stable_ret |].
  rule stable_bind; [| intros _; exact IH].
  destruct l; simpl; [by_quiet |].
  destruct src; [apply R_trigger | rule stable_ret].
Qed.

Lemma session_engine_change d src : stable R (engine_change d src).
Proof.
  unfold engine_change.
  rule stable_bind; [by_quiet | intros q].
  rule stable_bind; [rule stable_Date_now | intros t].
  rule stable_bind; [by_quiet | intros _]. apply session_run_listeners.
Qed.

Lemma session_undoChange : stable R undoChange.
Proof.
  unfold undoChange, history_undo.
  rule stable_bind; [rule stable_get | intros w].
  destruct (quill (vars w)); [| by_quiet].
  rule stable_bind; [| intros _; by_quiet].
  rule stable_bind; [by_quiet | intros q].
  destruct (undo_stack q); [rule stable_ret |].
  rule stable_bind; [by_quiet | intros _; apply session_run_listeners].
Qed.

Lemma session_redoChange : stable R redoChange.
Proof.
  unfold redoChange, history_redo.
  rule stable_bind; [rule stable_get | intros w].
  destruct (quill (vars w)); [| by_quiet].
  rule stable_bind; [| intros _; by_quiet].
  rule stable_bind; [by_quiet | intros q].
  destruct (redo_stack q); [rule stable_ret |].
  rule stable_bind; [by_quiet | intros _; apply session_run_listeners].
Qed.

Lemma session_importDocx d : stable R (importDocx d).
Proof.
  unfold importDocx, insertHtmlIntoQuill.
  rule stable_try_catch.
  - rule stable_bind; [| intros _; rule stable_bind; [by_quiet | intros _; by_quiet]].
    rule stable_bind; [rule stable_get | intros w].
    destruct (quill (vars w)); [| rule stable_throw].
    rule stable_bind; [by_quiet | intros _].
    rule stable_bind; [by_quiet | intros _].
    rule stable_bind; [by_quiet | intros _].
    rule stable_bind; [| intros _; by_quiet].
    rule stable_bind; [by_quiet | intros _; rule stable_ret].
  - intros e. rule stable_bind; [by_quiet | intros _; by_quiet].
Qed.

Lemma session_dispatch c w : stable R c -> R w (dispatch c w).
Proof.
  intros Hc. apply stable_dispatch; [typeclasses eauto | exact Hc |].
  intros e w0. apply R_quiet, Quiet_uncaught.
Qed.

Lemma session_fire_due fuel : forall w, R w (fire_due fuel w).
Proof.
  induction fuel as [|fuel IH]; intros w; simpl; [reflexivity |].
  destruct (take_due (now (loop w)) (timers (loop w))) as [[x rest]|] eqn:Ht; [| reflexivity].
  etransitivity; [apply (R_fire w x rest Ht) | apply IH].
Qed.

Lemma session_tick w : R w (tick w).
Proof.
  unfold tick. etransitivity; [apply R_clock | apply session_fire_due].
Qed.

Lemma session_step e w : R w (step e w).
Proof.
  destruct e; simpl.
  - apply session_tick.
  - destruct (quill (vars w)); [apply session_dispatch, session_engine_change | reflexivity].
  - apply session_dispatch. by_quiet.
  - apply session_dispatch, session_undoChange.
  - apply session_dispatch, session_redoChange.
  - apply session_dispatch. by_quiet.
  - apply session_dispatch. by_quiet.
  - destruct (exportBtn_disabled (page w)); [reflexivity | apply session_dispatch; by_quiet].
  - apply session_dispatch. by_quiet.
  - apply session_dispatch, session_importDocx.
  - apply R_storage.
  - apply R_dwell.
Qed.

Lemma session_run es : forall w, R w (run es w).
Proof.
  induction es as [|e es IH]; intros w; simpl; [reflexivity |].
  transitivity (step e w); [apply session_step | apply IH].
Qed.

(** The part of the page load after the top-level code of storage.js. *)
Lemma session_page_ready clear_ok w :
  R w (dispatch (console_log "✅ Export listeners attached")
         (dispatch (storage_ready clear_ok) (dispatch editor_ready w))).
Proof.
  transitivity (dispatch editor_ready w).
  { apply session_dispatch. unfold editor_ready.
    rule stable_bind; [by_quiet | intros ?].
    rule stable_bind; [by_quiet | intros ?].
    rule stable_bind; [by_quiet | intros ?].
    rule stable_bind; [by_quiet | intros ?]. by_quiet. }
  transitivity (dispatch (storage_ready clear_ok) (dispatch editor_ready w)).
  { apply session_dispatch. unfold storage_ready.
    rule stable_bind; [by_quiet | intros ?; rule stable_ret]. }
  apply session_dispatch. by_quiet.
Qed.

End Session.


(** ** The clock and the dialogs across events *)

#[global] Instance Later_preorder : PreOrder Later.
Proof.
  split.
  - intros w. split; [lia |]. exists []. rewrite app_nil_r. reflexivity.
  - intros w1 w2 w3 (Hn1 & s1 & Hd1) (Hn2 & s2 & Hd2). split; [lia |].
    exists (s1 ++ s2). rewrite Hd2, Hd1, app_assoc. reflexivity.
Qed.

Lemma Grows_Later w w' : Grows w w' -> Later w w'.
Proof. intros (Hn & shown & Hd & _). split; [exact Hn | exists shown; exact Hd]. Qed.


Lemma Still_trans w1 w2 w3 : Still w1 w2 -> Still w2 w3 -> Still w1 w3.
Proof. unfold Still. congruence. Qed.

Lemma Rearm_Grows w w' : Rearm w w' -> Grows w w'.
Proof. intros (Hn & Hd & _). apply Grows_same; assumption. Qed.

Section LaterRun.
Context {json_lib : JSON} {quill_lib : Quill}.

(** An execution of [performSave(true)] is recorded; the rest is quiet. *)
Lemma performSave_auto_fires w :
  Quiet quiet_cb (upd_out (add_call (now (loop w)) (CallPerformSave true)) w)
                 (dispatch (performSave true) w).
Proof.
  set (w1 := upd_out (add_call (now (loop w)) (CallPerformSave true)) w).
  change (dispatch (performSave true) w) with (dispatch (performSave_body true) w1).
  apply stable_dispatch; [typeclasses eauto | | intros; apply Quiet_uncaught].
  apply quiet_performSave_body; auto.
Qed.

Lemma grows_fire c w : Grows w (dispatch (run_callback c) w).
Proof.
  destruct (is_autosave_cb c) eqn:Ha.
  - rewrite (is_autosave_cb_true c Ha). simpl run_callback.
    transitivity (upd_out (add_call (now (loop w)) (CallPerformSave true)) w).
    + apply Grows_same; reflexivity.
    + apply (Quiet_Grows quiet_cb), performSave_auto_fires.
  - destruct (is_trigger_cb c) eqn:Ht.
    + destruct c; try discriminate. simpl run_callback. unfold dispatch.
      pose proof (triggerAutosave_Rearm w) as R.
      destruct (triggerAutosave_returns w) as (w' & Hw'). rewrite Hw' in *.
      apply Rearm_Grows, R.
    + apply (Quiet_Grows quiet_cb), quiet_fire. unfold quiet_cb. rewrite Ha, Ht. reflexivity.
Qed.

(** Running the due timers: time passes in dialogs only. *)
Lemma grows_fire_due fuel : forall w, Grows w (fire_due fuel w).
Proof.
  induction fuel as [|fuel IH]; intros w; simpl; [reflexivity |].
  destruct (take_due (now (loop w)) (timers (loop w))) as [[x rest]|]; [| reflexivity].
  transitivity (upd_loop (set_timers rest) w); [apply Grows_same; reflexivity |].
  etransitivity; [apply grows_fire | apply IH].
Qed.

Lemma later_tick w : Later w (tick w).
Proof.
  unfold tick. set (w1 := upd_loop (fun l => set_now (now l + 1) l) w).
  transitivity w1.
  - split; [simpl; lia |]. exists []. rewrite app_nil_r. reflexivity.
  - apply Grows_Later, grows_fire_due.
Qed.



End LaterRun.

(** ** Arming and firing the autosave timer *)

Lemma no_trigger_until_mono T T' w :
  T' <= T -> no_trigger_until T w -> no_trigger_until T' w.
Proof.
  intros Hle HT. unfold no_trigger_until in *.
  eapply Forall_impl; [exact HT |]. intros t Ht Hc. specialize (Ht Hc). lia.
Qed.






Section Arming.
Context {json_lib : JSON} {quill_lib : Quill}.









End Arming.

(** ** Claim C1: the autosave debounce *)

Lemma armed_at_console T l s w :
  armed_at T w -> armed_at T (upd_out (add_console l s) w).
Proof. intros Ha. exact Ha. Qed.

Section Autosave.
Context {json_lib : JSON} {quill_lib : Quill}.

Lemma run_listeners_returns src ls : forall w, exists w', run_listeners src ls w = Ok tt w'.
Proof.
  induction ls as [|l ls IH]; intros w; simpl; [eexists; reflexivity |].
  unfold bind. destruct (run_listener_returns src l w) as (w1 & ->). apply IH.
Qed.








End Autosave.

(** ** Claims C2 and C5: what a save writes and what it reports *)

(** Symbolic execution of a script on a world. *)
Ltac js_eval :=
  cbv [performSave performSave_body manualSave handleSaveError updateAutosaveStatus
       triggerAutosave loadSavedDocument handleLoadError manualLoad parse
       createNewDocument undoChange redoChange history_undo history_redo history_clear
       quill_setText quill_setContents engine_change quill_getContents quill_getText
       the_quill put_quill quill_on updateWordCount
       localStorage_getItem localStorage_setItem localStorage_removeItem
       alert confirm open_dialog console_log console_warn console_error Date_now setTimeout
       clearTimeout clear_if_set createElement appendChild has_parent removeChild
       remove_if_attached set_exportBtn export_catch export_click export_rendered
       export_canvas export_cleanup lift_result throw_if
       bind ret get modify throw try_catch world_of thrown dispatch].

Ltac js_simpl :=
  cbn [loop storage page out vars dwell now timers next_timer
       store_items store_denied store_write_fault
       body next_node exportBtn_disabled exportBtn_text autoSaveStatus wordCount dark_mode
       dialogs console downloads uncaught calls
       quill wordCountTimer autosaveTimer isAutosaveEnabled
       contents undo_stack redo_stack lastRecorded listeners
       upd_loop upd_storage upd_page upd_out upd_vars set_dwell shown
       set_now set_timers set_next_timer set_items
       set_body set_next_node set_exportBtn_disabled set_exportBtn_text
       set_autoSaveStatus set_wordCount set_dark_mode
       add_dialog add_console add_download add_uncaught add_call
       set_quill set_wordCountTimer set_autosaveTimer set_isAutosaveEnabled
       world_of thrown negb andb orb].

Ltac js_simpl_in H :=
  cbn [loop storage page out vars dwell now timers next_timer
       store_items store_denied store_write_fault
       body next_node exportBtn_disabled exportBtn_text autoSaveStatus wordCount dark_mode
       dialogs console downloads uncaught calls
       quill wordCountTimer autosaveTimer isAutosaveEnabled
       contents undo_stack redo_stack lastRecorded listeners
       upd_loop upd_storage upd_page upd_out upd_vars set_dwell shown
       set_now set_timers set_next_timer set_items
       set_body set_next_node set_exportBtn_disabled set_exportBtn_text
       set_autoSaveStatus set_wordCount set_dark_mode
       add_dialog add_console add_download add_uncaught add_call
       set_quill set_wordCountTimer set_autosaveTimer set_isAutosaveEnabled
       world_of thrown negb andb orb] in H.


Section Save.
Context {json_lib : JSON} {quill_lib : Quill}.

(** An automatic save of a document whose trimmed text is empty. *)
Lemma performSave_skips w q :
  quill (vars w) = Some q ->
  trim (delta_text (contents q)) = EmptyString ->
  exists w',
    performSave true w = Ok tt w' /\
    storage w' = storage w /\
    autoSaveStatus (page w') = statusMessages St_disabled /\
    dialogs (out w') = dialogs (out w).
Proof.
  intros Hq Ht. js_eval. repeat (progress (js_simpl; rewrite ?Hq, ?Ht)).
  simpl. eexists. split; [reflexivity |]. js_simpl. repeat split.
Qed.

Lemma skip_test_false (text : string) (a : bool) :
  (a = true -> text <> EmptyString) ->
  Nat.eqb (js_length text) 0 && a = false.
Proof.
  intros Ha. destruct a; [| apply andb_false_r].
  rewrite andb_true_r. apply Nat.eqb_neq. rewrite js_length_zero. auto.
Qed.

(** A save that reaches the store, on a store that accepts the write. *)
Lemma performSave_writes w q a :
  quill (vars w) = Some q ->
  (a = true -> trim (delta_text (contents q)) <> EmptyString) ->
  store_fault (storage w) = None ->
  exists w',
    performSave a w = Ok tt w' /\
    (store_items (storage w')
     = <[STORAGE_KEY := JSON_stringify (saveData (contents q) (now (loop w))
                                                (trim (delta_text (contents q))))]>
         (store_items (storage w))) /\
    store_denied (storage w') = None /\
    store_write_fault (storage w') = None /\
    autoSaveStatus (page w') = statusMessages St_saved /\
    vars w' = vars w.
Proof.
  intros Hq Ha Hf. unfold store_fault in Hf.
  destruct (store_denied (storage w)) eqn:Hd; [discriminate |].
  pose proof (skip_test_false _ a Ha) as Hskip.
  js_eval. repeat (progress (js_simpl; rewrite ?Hq, ?Hskip, ?Hd, ?Hf)).
  destruct a; js_simpl; (eexists; split; [reflexivity |]); js_simpl;
    rewrite ?Hd, ?Hf; repeat split.
Qed.

(** A save that reaches the store, on a store that rejects the write. *)
Lemma performSave_fails w q a e :
  quill (vars w) = Some q ->
  (a = true -> trim (delta_text (contents q)) <> EmptyString) ->
  store_fault (storage w) = Some e ->
  exists w',
    performSave a w = Ok tt w' /\
    storage w' = storage w /\
    autoSaveStatus (page w') = statusMessages St_error /\
    dialogs (out w')
    = dialogs (out w) ++ (if a then [] else [Alert (save_failure_message e)]) /\
    console (out w')
    = console (out w) ++ [(LError, "❌ Save failed: " +:+ show_error e)].
Proof.
  intros Hq Ha Hf. unfold store_fault in Hf.
  pose proof (skip_test_false _ a Ha) as Hskip.
  unfold save_failure_message.
  destruct (store_denied (storage w)) as [e'|] eqn:Hd.
  - injection Hf as ->.
    js_eval. repeat (progress (js_simpl; rewrite ?Hq, ?Hskip, ?Hd)).
    destruct (String.eqb (name e) "QuotaExceededError"), a; js_simpl;
      (eexists; split; [reflexivity |]); js_simpl; rewrite ?app_nil_r; repeat split.
  - js_eval. repeat (progress (js_simpl; rewrite ?Hq, ?Hskip, ?Hd, ?Hf)).
    destruct (String.eqb (name e) "QuotaExceededError"), a; js_simpl;
      (eexists; split; [reflexivity |]); js_simpl; rewrite ?app_nil_r; repeat split.
Qed.

Lemma status_disabled_distinct (s : status) :
  s <> St_disabled -> statusMessages s <> statusMessages St_disabled.
Proof. destruct s; intros Hs; try discriminate. congruence. Qed.

(** C2: an automatic save of a document whose trimmed plain text is empty
    writes nothing to the store and reports the status reserved for a skipped
    save; a manual save puts the Save Record under the fixed key whether the
    plain text is empty or not (the store accepting the write).  The record
    holds the content, the time of the save, the version "1.0" and the number
    of words of the text: its maximal runs of characters that are not white
    space. *)
Theorem blank_autosave_skipped_manual_written :
  forall (w : World) (q : Engine),
    quill (vars w) = Some q ->
    (trim (delta_text (contents q)) = EmptyString ->
     let w' := world_of (performSave true w) in
     store_items (storage w') = store_items (storage w) /\
     autoSaveStatus (page w') = statusMessages St_disabled /\
     (forall s, s <> St_disabled -> statusMessages s <> autoSaveStatus (page w'))) /\
    (store_fault (storage w) = None ->
     let w' := world_of (performSave false w) in
     store_items (storage w') !! STORAGE_KEY
     = Some (JSON_stringify
               (JObj [("content", JObj [("ops", JArr (contents q))]);
                      ("timestamp", JNum (now (loop w)));
                      ("version", JStr "1.0");
                      ("wordCount",
                       JNum (Z.of_nat (word_runs (delta_text (contents q)))))]))).
Proof.
  intros w q Hq. split.
  - intros Ht w'. destruct (performSave_skips w q Hq Ht) as (w1 & Hw1 & Hs & Hst & _).
    subst w'. rewrite Hw1. simpl. rewrite Hs, Hst.
    repeat split. apply status_disabled_distinct.
  - intros Hf w'.
    destruct (performSave_writes w q false Hq) as (w1 & Hw1 & Hs & _); [discriminate | exact Hf |].
    subst w'. rewrite Hw1. simpl. rewrite Hs, <- words_counted. apply lookup_insert_eq.
Qed.

(** C5, as amended: when the write of a save fails, the status line shows
    the error status and the store keeps what it had; a manual save also
    shows an alert, which suggests clearing browser data or exporting when
    the error is a [QuotaExceededError] and is the generic failure message
    otherwise; an automatic save shows no alert for either kind of error. *)
Theorem failed_save_reporting :
  forall (w : World) (q : Engine) (a : bool) (e : js_error),
    quill (vars w) = Some q ->
    (a = true -> trim (delta_text (contents q)) <> EmptyString) ->
    store_fault (storage w) = Some e ->
    let w' := world_of (performSave a w) in
    autoSaveStatus (page w') = statusMessages St_error /\
    store_items (storage w') = store_items (storage w) /\
    dialogs (out w')
    = dialogs (out w) ++
      (if a then []
       else [Alert (if String.eqb (name e) "QuotaExceededError"
                    then quota_message else generic_save_message)]).
Proof.
  intros w q a e Hq Ha Hf w'.
  destruct (performSave_fails w q a e Hq Ha Hf) as (w1 & Hw1 & Hs & Hst & Hd & _).
  subst w'. rewrite Hw1. simpl. rewrite Hs, Hst, Hd. repeat split.
Qed.

End Save.

(** ** Claims C3 and C4: restore, and the history after it *)

#[global] Instance only_wordcount_preorder : PreOrder only_wordcount.
Proof.
  split.
  - intros w. unfold only_wordcount. repeat split.
  - intros w1 w2 w3 H1 H2. unfold only_wordcount in *.
    destruct H1 as (?&?&?&?&?&?&?&?&?&?&?&?), H2 as (?&?&?&?&?&?&?&?&?&?&?&?).
    repeat split; congruence.
Qed.

(** Symbolic execution that stops at the calls into the engine. *)
Ltac js_ctl :=
  cbv [loadSavedDocument handleLoadError manualLoad parse createNewDocument
       performSave performSave_body manualSave handleSaveError updateAutosaveStatus
       localStorage_getItem localStorage_setItem localStorage_removeItem
       alert confirm open_dialog console_log console_warn console_error Date_now setTimeout
       lift_result throw_if quill_setText
       bind ret get modify throw try_catch].

Section Restore.
Context {json_lib : JSON} {quill_lib : Quill}.

Lemma updateWordCount_only_wordcount : stable only_wordcount updateWordCount.
Proof.
  intros w. unfold updateWordCount, bind, get. destruct (quill (vars w)); simpl;
    unfold only_wordcount; repeat split.
Qed.

Lemma run_listeners_api_only_wordcount ls : stable only_wordcount (run_listeners SrcApi ls).
Proof.
  induction ls as [|l ls IH]; simpl; [apply stable_ret; typeclasses eauto |].
  apply stable_bind; [typeclasses eauto | | intros _; exact IH].
  destruct l; simpl; [apply updateWordCount_only_wordcount | apply stable_ret; typeclasses eauto].
Qed.

(** A change through the API: the content is replaced, the history kept,
    the listeners told. *)
Lemma engine_change_api w q d :
  quill (vars w) = Some q ->
  exists w',
    engine_change d SrcApi w = Ok tt w' /\
    only_wordcount
      (upd_vars (set_quill (Some (mkEngine d (undo_stack q) (redo_stack q)
                                           (lastRecorded q) (listeners q)))) w)
      w'.
Proof.
  intros Hq. unfold engine_change. cbv [bind the_quill get Date_now ret].
  rewrite Hq. cbv [put_quill modify history_record]. js_simpl.
  match goal with
  | |- exists w', run_listeners SrcApi ?ls ?w0 = _ /\ _ =>
      destruct (run_listeners_returns SrcApi ls w0) as (w' & Hw');
      pose proof (run_listeners_api_only_wordcount ls w0) as Ho
  end.
  rewrite Hw' in Ho. simpl in Ho. exists w'. split; assumption.
Qed.

(** [setContents] on an initialised engine, by what the engine makes of the
    value. *)
Lemma setContents_accepted w q x d :
  quill (vars w) = Some q ->
  Quill_setContents x = Returns d ->
  quill_setContents x w = engine_change d SrcApi w.
Proof.
  intros Hq Hx. unfold quill_setContents.
  cbv [bind the_quill get ret lift_result]. rewrite Hq, Hx. reflexivity.
Qed.

Lemma setContents_rejected w q x e :
  quill (vars w) = Some q ->
  Quill_setContents x = Raises e ->
  quill_setContents x w = Threw e w.
Proof.
  intros Hq Hx. unfold quill_setContents.
  cbv [bind the_quill get ret lift_result throw]. rewrite Hq, Hx. reflexivity.
Qed.

(** [history.clear()] on an initialised engine. *)
Lemma history_clear_world w q :
  quill (vars w) = Some q ->
  history_clear w =
  Ok tt (upd_vars (set_quill (Some (mkEngine (contents q) [] [] (lastRecorded q)
                                             (listeners q)))) w).
Proof. intros Hq. js_eval. rewrite Hq. reflexivity. Qed.

(** An undo on an empty history changes nothing but the console. *)
Lemma undo_on_empty_history w q :
  quill (vars w) = Some q -> undo_stack q = [] ->
  vars (world_of (undoChange w)) = vars w /\
  storage (world_of (undoChange w)) = storage w /\
  page (world_of (undoChange w)) = page w.
Proof.
  intros Hq Hu. js_eval. rewrite Hq. js_simpl. rewrite Hq, Hu. js_simpl. repeat split.
Qed.

(** [loadSavedDocument] on a stored record that passes the checks: what
    happens is up to the engine. *)
Lemma loadSavedDocument_checked w c ok :
  stored_record w c ->
  exists ts,
    loadSavedDocument ok w
    = try_catch
        (quill_setContents c ;;
         history_clear ;;
         updateAutosaveStatus St_loaded ;;
         console_log ("📂 Document loaded from " +:+ show_date ts))
        (fun error => handleLoadError error ok) w.
Proof.
  intros (Hd & s & v & Hs & Hne & Hp & Hv).
  assert (Hts : exists ts, get_prop v "timestamp" = Returns ts).
  { unfold valid_record in Hv. destruct v; simpl in Hv; try discriminate. simpl. eauto. }
  destruct Hts as (ts & Hts). exists ts.
  unfold valid_record in Hv.
  destruct (get_prop v "content") as [[c0|]|] eqn:Hc; try discriminate.
  destruct (truthy (Some c0)) eqn:Htc; [| discriminate].
  destruct (get_prop c0 "ops") as [ops|] eqn:Hops; [| discriminate].
  destruct (truthy ops) eqn:Hto; [| discriminate].
  injection Hv as ->.
  assert (Htruthy : string_truthy (Some s) = true).
  { simpl. destruct s; [congruence | reflexivity]. }
  js_ctl. js_simpl. rewrite Hd, Hs. js_simpl. rewrite Htruthy. js_simpl.
  change (default EmptyString (Some s)) with s. rewrite Hp. js_simpl.
  rewrite Hc. js_simpl. rewrite Htc. js_simpl.
  unfold get_prop_opt. rewrite Hops. js_simpl. rewrite Hto. js_simpl.
  change (default JNull (Some c)) with c.
  destruct (quill_setContents c w) as [[] w1|e w1]; [| reflexivity].
  destruct (history_clear w1) as [[] w2|e w2]; [| reflexivity].
  rewrite Hts. reflexivity.
Qed.

(** The successful path of [loadSavedDocument]. *)
Lemma loadSavedDocument_loads w q c d ok :
  quill (vars w) = Some q ->
  restorable w c d ->
  exists w',
    loadSavedDocument ok w = Ok tt w' /\
    quill (vars w') = Some (mkEngine d [] [] (lastRecorded q) (listeners q)) /\
    autoSaveStatus (page w') = statusMessages St_loaded /\
    storage w' = storage w /\
    dialogs (out w') = dialogs (out w).
Proof.
  intros Hq [Hrec Hacc].
  destruct (loadSavedDocument_checked w c ok Hrec) as (ts & ->).
  destruct (engine_change_api w q d Hq) as (w1 & Hw1 & Ho).
  destruct Ho as (Hl1 & Hs1 & Hv1 & Hd1 & _ & _ & _ & _ & _ & _ & Hst1 & _).
  js_simpl_in Hl1. js_simpl_in Hs1. js_simpl_in Hv1. js_simpl_in Hd1. js_simpl_in Hst1.
  assert (Hq1 : quill (vars w1)
                = Some (mkEngine d (undo_stack q) (redo_stack q)
                                 (lastRecorded q) (listeners q))).
  { rewrite Hv1. reflexivity. }
  unfold try_catch, bind at 1. rewrite (setContents_accepted w q c d Hq Hacc), Hw1.
  unfold bind at 1. rewrite (history_clear_world w1 _ Hq1).
  cbv [updateAutosaveStatus setTimeout console_log bind ret modify].
  eexists. split; [reflexivity |]. js_simpl. repeat split; assumption.
Qed.

(** When the engine rejects the content, the restore ends in the error
    handler, the editor untouched. *)
Lemma loadSavedDocument_rejected w q c e ok :
  quill (vars w) = Some q ->
  stored_record w c ->
  Quill_setContents c = Raises e ->
  loadSavedDocument ok w = handleLoadError e ok w.
Proof.
  intros Hq Hrec Hrej. destruct (loadSavedDocument_checked w c ok Hrec) as (ts & ->).
  unfold try_catch, bind at 1. rewrite (setContents_rejected w q c e Hq Hrej). reflexivity.
Qed.

(** C4: after a confirmed [createNewDocument], and after a restore that
    succeeds (the stored record passes the checks and the engine takes its
    content), the undo and redo stacks of the engine are empty, and a
    following undo leaves the engine (its content included) as it is.  When
    the engine rejects the content, the restore has not succeeded: it ends in
    the error handler before [history.clear()] is reached. *)
Theorem history_empty_after_new_and_restore :
  (forall (w : World) (q : Engine),
     quill (vars w) = Some q ->
     let w' := world_of (createNewDocument true w) in
     exists q',
       quill (vars w') = Some q' /\
       contents q' = text_delta EmptyString /\
       undo_stack q' = [] /\ redo_stack q' = [] /\
       quill (vars (world_of (undoChange w'))) = Some q') /\
  (forall (w : World) (q : Engine) (c : json) (d : Delta) (clear_ok : bool),
     quill (vars w) = Some q ->
     restorable w c d ->
     let w' := world_of (loadSavedDocument clear_ok w) in
     exists q',
       quill (vars w') = Some q' /\
       contents q' = d /\
       undo_stack q' = [] /\ redo_stack q' = [] /\
       quill (vars (world_of (undoChange w'))) = Some q') /\
  (forall (w : World) (q : Engine) (c : json) (e : js_error) (clear_ok : bool),
     quill (vars w) = Some q ->
     stored_record w c ->
     Quill_setContents c = Raises e ->
     loadSavedDocument clear_ok w = handleLoadError e clear_ok w).
Proof.
  split; [| split].
  - intros w q Hq w'.
    set (wc := shown (Confirm
                 "Create a new document? Current document will be lost if not saved." true) w).
    assert (Hqc : quill (vars wc) = Some q) by exact Hq.
    destruct (engine_change_api wc q (text_delta EmptyString) Hqc) as (w1 & Hw1 & Ho).
    destruct Ho as (_ & _ & Hv1 & _).
    js_simpl_in Hv1.
    assert (Hq1 : quill (vars w1)
                  = Some (mkEngine (text_delta EmptyString) (undo_stack q) (redo_stack q)
                                   (lastRecorded q) (listeners q))).
    { rewrite Hv1. reflexivity. }
    set (w2 := upd_vars (set_quill (Some (mkEngine (text_delta EmptyString) [] []
                                                   (lastRecorded q) (listeners q)))) w1).
    pose proof (updateWordCount_only_wordcount w2) as Ho2.
    destruct (updateWordCount_returns w2) as (w3 & Hw3). rewrite Hw3 in Ho2. simpl in Ho2.
    destruct Ho2 as (_ & _ & Hv3 & _).
    assert (Hw' : w' = upd_out (add_console LLog "📄 New document created") w3).
    { subst w'. js_ctl. rewrite Hq. js_simpl. fold wc. rewrite Hw1.
      rewrite (history_clear_world w1 _ Hq1). js_simpl. fold w2. rewrite Hw3. reflexivity. }
    assert (Hq' : quill (vars w')
                  = Some (mkEngine (text_delta EmptyString) [] [] (lastRecorded q)
                                   (listeners q))).
    { rewrite Hw'. js_simpl. rewrite Hv3. reflexivity. }
    eexists. split; [exact Hq' |]. repeat split.
    destruct (undo_on_empty_history w' _ Hq' eq_refl) as (Hv & _). rewrite Hv. exact Hq'.
  - intros w q c d ok Hq Hr w'.
    destruct (loadSavedDocument_loads w q c d ok Hq Hr) as (w1 & Hw1 & Hq1 & _).
    subst w'. rewrite Hw1. simpl world_of at 1 2.
    eexists. split; [exact Hq1 |]. repeat split.
    destruct (undo_on_empty_history w1 _ Hq1 eq_refl) as (Hv & _). rewrite Hv. exact Hq1.
  - intros w q c e ok Hq Hrec Hrej. apply (loadSavedDocument_rejected w q c e ok Hq Hrec Hrej).
Qed.

Lemma saved_record_valid (c : Delta) (t : Z) (text : string) :
  valid_record (saveData c t text) = Some (delta_to_json c).
Proof. reflexivity. Qed.

(** C3: a save that writes the record, followed by a restore, leaves the
    engine with the content that was saved, hence with the same plain text;
    this also holds when the editor content was replaced between the two (a
    page reload).  It is assumed that [JSON.parse] reads back what
    [JSON.stringify] wrote for this record, and that the engine takes its own
    content back as it is. *)
Theorem save_restore_roundtrip :
  forall (w : World) (q : Engine) (a : bool) (clear_ok : bool),
    quill (vars w) = Some q ->
    (a = true -> trim (delta_text (contents q)) <> EmptyString) ->
    store_fault (storage w) = None ->
    let record := saveData (contents q) (now (loop w)) (trim (delta_text (contents q))) in
    JSON_parse (JSON_stringify record) = Some record ->
    JSON_stringify record <> EmptyString ->
    Quill_setContents (delta_to_json (contents q)) = Returns (contents q) ->
    let w1 := world_of (performSave a w) in
    (exists q2,
        quill (vars (world_of (loadSavedDocument clear_ok w1))) = Some q2 /\
        contents q2 = contents q /\
        delta_text (contents q2) = delta_text (contents q)) /\
    (forall q0 : Engine,
        exists q2,
          quill (vars (world_of (loadSavedDocument clear_ok
                                   (upd_vars (set_quill (Some q0)) w1)))) = Some q2 /\
          contents q2 = contents q /\
          delta_text (contents q2) = delta_text (contents q)).
Proof.
  intros w q a ok Hq Ha Hf record Hparse Hne Hown w1.
  destruct (performSave_writes w q a Hq Ha Hf) as (w' & Hw' & Hitems & Hden & _ & _ & Hvars).
  assert (Hw1 : w1 = w') by (subst w1; rewrite Hw'; reflexivity).
  assert (Hr : forall w2, storage w2 = storage w1 ->
                          restorable w2 (delta_to_json (contents q)) (contents q)).
  { intros w2 Hs. split; [| exact Hown]. unfold stored_record. rewrite Hs, Hw1.
    split; [exact Hden |].
    exists (JSON_stringify record), record. repeat split.
    - rewrite Hitems. apply lookup_insert_eq.
    - exact Hne.
    - exact Hparse. }
  split.
  - assert (Hq1 : quill (vars w1) = Some q) by (rewrite Hw1, Hvars; exact Hq).
    destruct (loadSavedDocument_loads w1 q _ _ ok Hq1 (Hr w1 eq_refl)) as (w2 & -> & Hq2 & _).
    eexists. split; [exact Hq2 |]. simpl. split; reflexivity.
  - intros q0.
    set (w1' := upd_vars (set_quill (Some q0)) w1).
    assert (Hq1 : quill (vars w1') = Some q0) by reflexivity.
    destruct (loadSavedDocument_loads w1' q0 _ _ ok Hq1 (Hr w1' eq_refl)) as (w2 & -> & Hq2 & _).
    eexists. split; [exact Hq2 |]. simpl. split; reflexivity.
Qed.

End Restore.

(** ** Claims C7 and C8: the stages of the export pipeline *)

Lemma filter_absent n l :
  existsb (Nat.eqb n) l = false -> List.filter (fun m => negb (Nat.eqb m n)) l = l.
Proof.
  induction l as [|m l IH]; simpl; [reflexivity |].
  intros Hex. apply orb_false_elim in Hex as [Hm Hl].
  rewrite Nat.eqb_sym, Hm. simpl. rewrite IH by exact Hl. reflexivity.
Qed.

Lemma filter_detached_twice n l :
  List.filter (fun m => negb (Nat.eqb m n)) (List.filter (fun m => negb (Nat.eqb m n)) l)
  = List.filter (fun m => negb (Nat.eqb m n)) l.
Proof.
  induction l as [|m l IH]; simpl; [reflexivity |].
  destruct (negb (Nat.eqb m n)) eqn:Hm; simpl; rewrite ?Hm, IH; reflexivity.
Qed.

Lemma filter_detached_both ov wr l :
  List.filter (fun m => negb (Nat.eqb m ov)) (List.filter (fun m => negb (Nat.eqb m wr)) l)
  = without ov wr l.
Proof.
  unfold without. induction l as [|m l IH]; simpl; [reflexivity |].
  destruct (negb (Nat.eqb m wr)) eqn:Hw; simpl; [| exact IH].
  destruct (negb (Nat.eqb m ov)); simpl; rewrite IH; reflexivity.
Qed.

Lemma without_absent ov wr l : ~ In ov (without ov wr l) /\ ~ In wr (without ov wr l).
Proof.
  unfold without. split; intros Hin; apply List.filter_In in Hin as [_ Hk];
    rewrite Nat.eqb_refl in Hk; simpl in Hk; try discriminate.
  rewrite andb_false_r in Hk. discriminate.
Qed.

Lemma without_other ov wr l n :
  n <> ov -> n <> wr -> (In n (without ov wr l) <-> In n l).
Proof.
  intros Ho Hw. unfold without. rewrite List.filter_In.
  apply Nat.eqb_neq in Ho, Hw. rewrite Ho, Hw. simpl. tauto.
Qed.

(** [if (n && n.parentNode) document.body.removeChild(n)] takes [n] out of
    the body, if it is there, and never throws. *)
Lemma remove_if_attached_detach n w : remove_if_attached n w = Ok tt (detach n w).
Proof.
  destruct w as [l s [b nn d t a wc dm] o v dw].
  unfold remove_if_attached, removeChild, has_parent, detach, bind, get, ret, modify.
  simpl. destruct (existsb (Nat.eqb n) b) eqn:Hex; simpl.
  - rewrite Hex. reflexivity.
  - unfold upd_page, set_body. simpl. rewrite (filter_absent n b Hex). reflexivity.
Qed.

(** The world the [catch] block of the export leaves. *)
Lemma export_catch_world e ov wr w :
  export_catch e ov wr w =
  Ok tt (upd_page (fun p => set_exportBtn_text "📄 PDF" (set_exportBtn_disabled false p))
           (detach ov (detach wr
              (shown (Alert ("Export failed: " +:+ message e))
                 (upd_out (add_console LError ("❌ Export failed: " +:+ show_error e)) w))))).
Proof.
  unfold export_catch, console_error, alert, open_dialog, set_exportBtn, bind, modify.
  rewrite !remove_if_attached_detach. reflexivity.
Qed.

Section ExportPipeline.
Context {json_lib : JSON} {quill_lib : Quill}.

(** A failing library call ends the export in the [catch] block. *)
Lemma export_canvas_fails o ov wr e w :
  export_failure o = Some e ->
  exists w0,
    export_canvas o ov wr w = export_catch e ov wr w0 /\
    loop w0 = loop w /\ storage w0 = storage w /\ vars w0 = vars w /\ page w0 = page w /\
    dialogs (out w0) = dialogs (out w) /\ downloads (out w0) = downloads (out w) /\
    uncaught (out w0) = uncaught (out w) /\ dwell w0 = dwell w.
Proof.
  unfold export_failure. intros He.
  unfold export_canvas, try_catch, bind, lift_result, throw_if, ret, throw, console_log, modify.
  destruct (canvas_result o) as [cv|e1].
  2:{ injection He as ->. eexists. split; [reflexivity |]. repeat split. }
  destruct (dataurl_result o) as [img|e2].
  2:{ injection He as ->. eexists. split; [reflexivity |]. repeat split. }
  destruct (jspdf_result o) as [sz|e3].
  2:{ injection He as ->. eexists. split; [reflexivity |]. repeat split. }
  destruct (addImage_fault o) as [e4|].
  1:{ injection He as ->. eexists. split; [reflexivity |]. repeat split. }
  rewrite He. eexists. split; [reflexivity |]. repeat split.
Qed.

(** The stage in which a library call fails, in full: the message is shown
    (the clock runs while it is open), the overlay and the wrapper leave the
    body, the button is enabled again, and no timer is set. *)
Lemma export_canvas_failed_fields o ov wr e w :
  export_failure o = Some e ->
  let w' := dispatch (export_canvas o ov wr) w in
  loop w' = set_now (now (loop w) + dialog_ms w) (loop w) /\
  body (page w') = without ov wr (body (page w)) /\
  exportBtn_disabled (page w') = false /\
  exportBtn_text (page w') = "📄 PDF" /\
  storage w' = storage w /\ vars w' = vars w /\
  dialogs (out w') = dialogs (out w) ++ [Alert ("Export failed: " +:+ message e)] /\
  downloads (out w') = downloads (out w) /\
  uncaught (out w') = uncaught (out w).
Proof.
  intros He w'.
  destruct (export_canvas_fails o ov wr e w He)
    as (w0 & Heq & Hl & Hs & Hv & Hp & Hd & Hdl & Hu & Hdw).
  subst w'. unfold dispatch. rewrite Heq, export_catch_world.
  unfold detach. js_simpl. unfold dialog_ms. js_simpl.
  rewrite Hp, Hd, Hdl, Hu, Hl, Hs, Hv, Hdw.
  rewrite filter_detached_both. repeat split.
Qed.

(** The stages of an export that does not complete.  On a document whose
    trimmed text is empty the click shows the blocking message and touches
    neither the page nor the timers; a stage in which a library call fails
    ends with the message, the overlay and the wrapper out of the body and the
    button enabled; the tear-down leaves the same state, also when a removal
    fails. *)
Lemma export_stages_leave_no_residue :
  (forall (w : World) (q : Engine) (o : render_oracle),
     quill (vars w) = Some q ->
     trim (delta_text (contents q)) = EmptyString ->
     exportBtn_disabled (page w) = false ->
     let w' := step (ClickExport o) w in
     dialogs (out w')
     = dialogs (out w) ++ [Alert "⚠️ Document is empty. Please add content first."] /\
     downloads (out w') = downloads (out w) /\
     uncaught (out w') = uncaught (out w) /\
     page w' = page w /\ timers (loop w') = timers (loop w) /\
     storage w' = storage w /\ vars w' = vars w) /\
  (forall (w : World) (o : render_oracle) (overlay wrapper : nat) (e : js_error),
     export_failure o = Some e ->
     let w' := dispatch (export_canvas o overlay wrapper) w in
     body (page w') = without overlay wrapper (body (page w)) /\
     ~ In overlay (body (page w')) /\ ~ In wrapper (body (page w')) /\
     exportBtn_disabled (page w') = false /\
     exportBtn_text (page w') = "📄 PDF" /\
     dialogs (out w') = dialogs (out w) ++ [Alert ("Export failed: " +:+ message e)] /\
     downloads (out w') = downloads (out w) /\
     uncaught (out w') = uncaught (out w) /\
     timers (loop w') = timers (loop w)) /\
  (forall (w : World) (overlay wrapper : nat),
     let w' := dispatch (export_cleanup overlay wrapper) w in
     body (page w') = without overlay wrapper (body (page w)) /\
     exportBtn_disabled (page w') = false /\
     downloads (out w') = downloads (out w) /\
     uncaught (out w') = uncaught (out w)).
Proof.
  split; [| split].
  - intros w q o Hq Ht Hen w'. subst w'. simpl step. rewrite Hen.
    unfold dispatch, export_click, bind, get, alert, open_dialog, modify. rewrite Hq, Ht. simpl.
    repeat split.
  - intros w o ov wr e He w'.
    destruct (export_canvas_fails o ov wr e w He)
      as (w0 & Heq & Hl & Hs & Hv & Hp & Hd & Hdl & Hu & _).
    subst w'. unfold dispatch. rewrite Heq, export_catch_world.
    unfold detach. js_simpl. rewrite Hp, Hd, Hdl, Hu, Hl.
    rewrite filter_detached_both.
    destruct (without_absent ov wr (body (page w))) as [Hov Hwr].
    repeat split; assumption.
  - intros w ov wr w'. subst w'.
    destruct w as [l s [b nn d t a wc dm] o v dw].
    cbv [dispatch export_cleanup try_catch bind removeChild has_parent get ret
         modify throw set_exportBtn alert open_dialog].
    js_simpl. destruct (existsb (Nat.eqb wr) b) eqn:Hw; js_simpl.
    + destruct (existsb (Nat.eqb ov) (List.filter (fun m => negb (Nat.eqb m wr)) b)) eqn:Ho;
        js_simpl.
      * rewrite filter_detached_both. repeat split.
      * rewrite export_catch_world. unfold detach. js_simpl.
        rewrite filter_detached_twice, filter_detached_both. repeat split.
    + rewrite export_catch_world. unfold detach. js_simpl.
      rewrite filter_detached_both. repeat split.
Qed.

(** C7, as amended: a successful export produces a PDF of exactly one page
    holding one image, placed 10 mm from the left and the top, as wide as the
    page less 20 mm and as high as the aspect ratio of the canvas requires
    (in exact arithmetic); the file is named after the current time; the
    number of pages does not depend on the height of the image. *)
Theorem export_places_image_on_single_page :
  forall (w : World) (o : render_oracle) (overlay wrapper : nat)
         (cw ch : Z) (img : string) (pw ph : Q),
    canvas_result o = Returns (cw, ch) ->
    dataurl_result o = Returns img ->
    jspdf_result o = Returns (pw, ph) ->
    addImage_fault o = None ->
    save_fault o = None ->
    let w' := dispatch (export_canvas o overlay wrapper) w in
    let iw := (pw - 20)%Q in
    let ih := (inject_Z ch * iw / inject_Z cw)%Q in
    downloads (out w')
    = downloads (out w) ++
      [("document_" +:+ pretty (now (loop w)) +:+ ".pdf", mkPdf [[mkPlaced 10 10 iw ih]])] /\
    (cw <> 0 -> (ih * inject_Z cw == inject_Z ch * iw)%Q) /\
    (forall file, In file (downloads (out w')) ->
                  In file (downloads (out w)) \/ List.length (pages (snd file)) = 1%nat).
Proof.
  intros w o ov wr cw ch img pw ph Hc Hd Hj Ha Hs w' iw ih.
  assert (Hdl : downloads (out w')
                = downloads (out w) ++
                  [("document_" +:+ pretty (now (loop w)) +:+ ".pdf",
                    mkPdf [[mkPlaced 10 10 iw ih]])]).
  { subst w'. js_eval. rewrite Hc, Hd, Hj, Ha, Hs. js_simpl. reflexivity. }
  split; [exact Hdl |]. split.
  - intros Hcw. subst ih. field. intros Hz. apply Hcw.
    unfold Qeq in Hz. simpl in Hz. lia.
  - intros file Hin. rewrite Hdl in Hin. apply List.in_app_or in Hin as [Hin | Hin].
    + left. exact Hin.
    + right. destruct Hin as [<- | []]. reflexivity.
Qed.

End ExportPipeline.
(** ** Claim C10: autosave stays off when the store was unavailable *)

#[global] Instance Off_preorder : PreOrder Off.
Proof.
  split.
  - intros w Hw. split; [exact Hw | reflexivity].
  - intros w1 w2 w3 H12 H23 H1. destruct (H12 H1) as [H2 Hc2].
    destruct (H23 H2) as [H3 Hc3]. split; [exact H3 | congruence].
Qed.

Lemma Quiet_Off w w' : Quiet not_auto_cb w w' -> Off w w'.
Proof.
  intros (_ & (a & Ht & Hf) & _ & He & Hc) [Hoff Hnone]. split; [split |].
  - congruence.
  - unfold auto_timers in *. rewrite Ht, List.filter_app, Hnone. simpl.
    clear -Hf. induction Hf as [|t a [Hk _] _ IH]; simpl; [reflexivity |].
    unfold not_auto_cb in Hk. destruct (is_autosave_cb (cb t)); [discriminate | exact IH].
  - exact Hc.
Qed.

Section AutosaveOff.
Context {json_lib : JSON} {quill_lib : Quill}.

Lemma off_triggerAutosave : stable Off triggerAutosave.
Proof.
  intros w [Hoff Hnone]. rewrite triggerAutosave_disabled by exact Hoff.
  split; [split; assumption | reflexivity].
Qed.

Lemma off_run_callback c :
  is_autosave_cb c = false -> stable Off (run_callback c).
Proof.
  intros Hc. destruct (is_trigger_cb c) eqn:Ht.
  - destruct c; try discriminate. simpl. apply off_triggerAutosave.
  - eapply stable_mono; [| apply quiet_run_callback].
    + intros w w' Q. apply Quiet_Off, (Quiet_weaken quiet_cb); [apply quiet_not_auto | exact Q].
    + unfold quiet_cb. rewrite Hc, Ht. reflexivity.
Qed.

Lemma off_fire w x rest :
  take_due (now (loop w)) (timers (loop w)) = Some (x, rest) ->
  Off w (dispatch (run_callback (cb x)) (upd_loop (set_timers rest) w)).
Proof.
  intros Ht [Hoff Hnone].
  destruct (take_due_Some _ _ _ _ Ht) as (l1 & l2 & Hts & Hrest & _ & _).
  assert (Hx : is_autosave_cb (cb x) = false).
  { destruct (is_autosave_cb (cb x)) eqn:Hc; [| reflexivity]. exfalso.
    assert (Hin : In x (auto_timers w)).
    { apply List.filter_In. split; [rewrite Hts; apply in_elt | exact Hc]. }
    rewrite Hnone in Hin. destruct Hin. }
  set (w1 := upd_loop (set_timers rest) w).
  assert (H1 : autosave_off w1).
  { split; [exact Hoff |]. unfold auto_timers in *. simpl. rewrite Hrest.
    rewrite Hts in Hnone.
    rewrite (filter_remove_other (fun t => is_autosave_cb (cb t)) l1 x l2 Hx) in Hnone.
    exact Hnone. }
  assert (O : Off w1 (dispatch (run_callback (cb x)) w1)).
  { apply stable_dispatch; [typeclasses eauto | apply off_run_callback, Hx |].
    intros e w0. apply Quiet_Off, Quiet_uncaught. }
  exact (O H1).
Qed.

Lemma off_run es w : Off w (run es w).
Proof.
  apply session_run; try typeclasses eauto.
  - apply Quiet_Off.
  - apply off_triggerAutosave.
  - apply off_fire.
  - intros w0 Hw. split; [exact Hw | reflexivity].
  - intros w0 d f Hw. split; [exact Hw | reflexivity].
  - intros w0 f Hw. split; [exact Hw | reflexivity].
Qed.

Lemma off_page_ready clear_ok w :
  Off w (dispatch (console_log "✅ Export listeners attached")
           (dispatch (storage_ready clear_ok) (dispatch editor_ready w))).
Proof.
  apply session_page_ready; try typeclasses eauto. apply Quiet_Off.
Qed.

(** The availability test fails exactly when a write to the store fails. *)
Lemma isLocalStorageAvailable_false w e :
  store_fault (storage w) = Some e ->
  exists w', isLocalStorageAvailable w = Ok false w'.
Proof.
  unfold store_fault. intros Hf.
  cbv [isLocalStorageAvailable try_catch bind localStorage_setItem localStorage_removeItem
       get throw_if throw ret modify console_warn].
  destruct (store_denied (storage w)) as [e0|] eqn:Hd.
  - eexists. reflexivity.
  - rewrite Hf. eexists. reflexivity.
Qed.

(** The top-level statements of storage.js on a store that rejects writes. *)
Lemma storage_module_load_unavailable w e :
  store_fault (storage w) = Some e ->
  exists w',
    storage_module_load w = Ok tt w' /\
    isAutosaveEnabled (vars w') = false /\
    timers (loop w') = timers (loop w) /\ calls (out w') = calls (out w).
Proof.
  unfold store_fault. intros Hf.
  cbv [storage_module_load isLocalStorageAvailable try_catch bind localStorage_setItem
       localStorage_removeItem get throw_if throw ret modify console_warn console_log alert
       open_dialog updateAutosaveStatus].
  destruct (store_denied (storage w)) as [e0|] eqn:Hd.
  - eexists. split; [reflexivity |]. repeat split.
  - rewrite Hf. eexists. split; [reflexivity |]. repeat split.
Qed.

Lemma page_load_off t0 s e clear_ok :
  store_fault s = Some e ->
  autosave_off (page_load clear_ok (initial_world t0 s)) /\
  auto_calls (page_load clear_ok (initial_world t0 s)) = [].
Proof.
  intros Hf. unfold page_load.
  set (w1 := dispatch (console_log "📝 Editor module loaded successfully") (initial_world t0 s)).
  destruct (storage_module_load_unavailable w1 e Hf) as (w2 & Hw2 & Hflag & Hloop & Hcalls).
  assert (Hd2 : dispatch storage_module_load w1 = w2) by (unfold dispatch; rewrite Hw2; reflexivity).
  rewrite Hd2.
  assert (H2 : autosave_off w2 /\ auto_calls w2 = []).
  { split; [split; [exact Hflag |] |].
    - unfold auto_timers. rewrite Hloop. reflexivity.
    - unfold auto_calls. rewrite Hcalls. reflexivity. }
  destruct H2 as [H2 Hc2].
  pose proof (off_page_ready clear_ok w2) as O.
  destruct (O H2) as [Hoff Hc]. split; [exact Hoff | congruence].
Qed.

(** C10: when the store rejects the test write at the time storage.js is
    loaded, the flag [isAutosaveEnabled] is false after the page load and
    after every later sequence of events; [triggerAutosave] then returns
    without changing anything, no autosave timer is ever pending and
    [performSave(true)] is never executed; a manual save on the still failing
    store reaches the write, logs its error, shows the failure alert and the
    error status, and leaves the store as it was. *)
Theorem autosave_stays_off_when_store_unavailable :
  forall (t0 : Z) (s : Storage) (e : js_error) (clear_ok : bool) (es : list event),
    store_fault s = Some e ->
    let w := run es (page_load clear_ok (initial_world t0 s)) in
    isAutosaveEnabled (vars w) = false /\
    triggerAutosave w = Ok tt w /\
    auto_timers w = [] /\
    auto_calls w = [] /\
    (forall (q : Engine) (e' : js_error),
        quill (vars w) = Some q ->
        store_fault (storage w) = Some e' ->
        let w' := world_of (performSave false w) in
        store_items (storage w') = store_items (storage w) /\
        console (out w')
        = console (out w) ++ [(LError, "❌ Save failed: " +:+ show_error e')] /\
        dialogs (out w') = dialogs (out w) ++ [Alert (save_failure_message e')] /\
        autoSaveStatus (page w') = statusMessages St_error).
Proof.
  intros t0 s e ok es Hf w.
  destruct (page_load_off t0 s e ok Hf) as [H0 Hc0].
  destruct (off_run es _ H0) as [[Hflag Hnone] Hc]. fold w in Hflag, Hnone, Hc.
  split; [exact Hflag |]. split; [apply triggerAutosave_disabled, Hflag |].
  split; [exact Hnone |]. split; [congruence |].
  intros q e' Hq Hf' w'.
  destruct (performSave_fails w q false e' Hq) as (w1 & Hw1 & Hs & Hst & Hd & Hcon);
    [discriminate | exact Hf' |].
  subst w'. rewrite Hw1. simpl. rewrite Hs, Hst, Hd, Hcon. repeat split.
Qed.

End AutosaveOff.

(** ** Claims C6 and C9: where the code departs from its documentation *)

Section Departures.
Context {json_lib : JSON} {quill_lib : Quill}.

Lemma triggerAutosave_frame w :
  exists w',
    triggerAutosave w = Ok tt w' /\
    wordCount (page w') = wordCount (page w) /\
    calls (out w') = calls (out w) /\
    wordCountTimer (vars w') = wordCountTimer (vars w) /\
    quill (vars w') = quill (vars w).
Proof.
  js_eval. destruct (isAutosaveEnabled (vars w)); js_simpl.
  - destruct (autosaveTimer (vars w)); js_simpl; eexists; (split; [reflexivity |]);
      js_simpl; repeat split.
  - eexists. split; [reflexivity |]. repeat split.
Qed.

(** C6 on the code: with the two listeners of the loaded page, every
    user change runs the word-count computation and writes the footer at
    once; no word-count timer is involved. *)
Theorem word_count_runs_on_every_change :
  forall (w : World) (q : Engine) (d : Delta),
    quill (vars w) = Some q ->
    listeners q = [WordCountListener; AutosaveListener] ->
    let w1 := step (UserEdit d) w in
    wordCount (page w1) = word_count_text d /\
    calls (out w1) = calls (out w) ++ [(now (loop w), CallUpdateWordCount)] /\
    wordCountTimer (vars w1) = wordCountTimer (vars w).
Proof.
  intros w q d Hq Hls w1. subst w1. simpl step. rewrite Hq.
  unfold dispatch, engine_change. cbv [bind the_quill get Date_now ret].
  rewrite Hq. cbv [put_quill modify].
  assert (Hl : listeners (history_record (now (loop w)) SrcUser q) = listeners q).
  { unfold history_record. destruct (_ && _); reflexivity. }
  rewrite Hl, Hls. cbn [run_listeners run_listener].
  cbv [bind updateWordCount get modify]. js_simpl.
  match goal with
  | |- context [triggerAutosave ?w0] =>
      destruct (triggerAutosave_frame w0) as (w' & Hw' & Hwc & Hc & Ht & _); rewrite Hw'
  end.
  unfold ret. js_simpl. js_simpl_in Hwc. js_simpl_in Hc. js_simpl_in Ht.
  rewrite Hwc, Hc, Ht. repeat split.
Qed.

Lemma instanceof_SyntaxError_true m : instanceof_SyntaxError (SyntaxError m) = true.
Proof. reflexivity. Qed.

(** C9 on the code: a manual load over a stored text that is not JSON,
    the user declining to clear it, ends with the [SyntaxError] of the second
    [JSON.parse] leaving [manualLoad] uncaught. *)
Theorem manual_load_rethrows_malformed_record :
  forall (w : World) (s : string),
    store_denied (storage w) = None ->
    store_items (storage w) !! STORAGE_KEY = Some s ->
    s <> EmptyString ->
    JSON_parse s = None ->
    uncaught (out (step (ClickLoad true false) w))
    = uncaught (out w) ++ [SyntaxError "Unexpected token in JSON"].
Proof.
  intros w s Hd Hs Hne Hp.
  assert (Htruthy : string_truthy (Some s) = true).
  { simpl. destruct s; [congruence | reflexivity]. }
  simpl step. unfold dispatch. js_ctl. js_simpl. rewrite Hd, Hs. js_simpl.
  rewrite Htruthy. js_simpl. change (default EmptyString (Some s)) with s.
  rewrite Hp. js_simpl. rewrite instanceof_SyntaxError_true. js_simpl.
  rewrite Hd, Hs. js_simpl. rewrite Htruthy. js_simpl.
  change (default EmptyString (Some s)) with s. rewrite Hp. js_simpl. reflexivity.
Qed.

End Departures.

(** ** The handle of the autosave timer in every reachable state *)

#[global] Instance HandleOk_preorder : PreOrder HandleOk.
Proof.
  split.
  - intros w Hw. exact Hw.
  - intros w1 w2 w3 H12 H23 H1. apply H23, H12, H1.
Qed.

Lemma Quiet_HandleOk w w' : Quiet not_auto_cb w w' -> HandleOk w w'.
Proof.
  intros (_ & (a & Ht & Hf) & Ha & _ & _) Hok.
  unfold timer_handle_ok in *. rewrite Ht, Ha. apply Forall_app. split; [exact Hok |].
  eapply Forall_impl; [exact Hf |]. intros t [Hk _] Hc.
  unfold not_auto_cb in Hk. rewrite Hc in Hk. discriminate.
Qed.

Section Reachable.
Context {json_lib : JSON} {quill_lib : Quill}.

Lemma handle_triggerAutosave : stable HandleOk triggerAutosave.
Proof. intros w. destruct (triggerAutosave_Rearm w) as (_ & _ & _ & _ & Hok & _). exact Hok. Qed.

Lemma handle_performSave_auto : stable HandleOk (performSave true).
Proof.
  intros w Hok.
  set (w1 := upd_out (add_call (now (loop w)) (CallPerformSave true)) w).
  change (performSave true w) with (performSave_body true w1).
  assert (Q : stable (Quiet not_auto_cb) (performSave_body true)).
  { apply quiet_performSave_body. apply quiet_not_auto. }
  apply (Quiet_HandleOk w1 _ (Q w1)). exact Hok.
Qed.

Lemma handle_run_callback c : stable HandleOk (run_callback c).
Proof.
  destruct (is_autosave_cb c) eqn:Ha.
  - rewrite (is_autosave_cb_true c Ha). simpl. apply handle_performSave_auto.
  - destruct (is_trigger_cb c) eqn:Ht.
    + destruct c; try discriminate. simpl. apply handle_triggerAutosave.
    + eapply stable_mono; [| apply quiet_run_callback].
      * intros w w' Q. apply Quiet_HandleOk, (Quiet_weaken quiet_cb);
          [apply quiet_not_auto | exact Q].
      * unfold quiet_cb. rewrite Ha, Ht. reflexivity.
Qed.

Lemma handle_fire w x rest :
  take_due (now (loop w)) (timers (loop w)) = Some (x, rest) ->
  HandleOk w (dispatch (run_callback (cb x)) (upd_loop (set_timers rest) w)).
Proof.
  intros Ht Hok.
  destruct (take_due_Some _ _ _ _ Ht) as (l1 & l2 & Hts & Hrest & _ & _).
  set (w1 := upd_loop (set_timers rest) w).
  assert (H1 : timer_handle_ok w1).
  { unfold timer_handle_ok in *. simpl. rewrite Hrest. rewrite Hts in Hok.
    apply Forall_app in Hok as [Ha Hb]. apply Forall_app. split; [exact Ha |].
    inversion Hb; assumption. }
  assert (O : HandleOk w1 (dispatch (run_callback (cb x)) w1)).
  { apply stable_dispatch; [typeclasses eauto | apply handle_run_callback |].
    intros e w0. apply Quiet_HandleOk, Quiet_uncaught. }
  exact (O H1).
Qed.

Lemma handle_run es w : HandleOk w (run es w).
Proof.
  apply session_run; try typeclasses eauto.
  - apply Quiet_HandleOk.
  - apply handle_triggerAutosave.
  - apply handle_fire.
  - intros w0 Hw. exact Hw.
  - intros w0 d f Hw. exact Hw.
  - intros w0 f Hw. exact Hw.
Qed.

(** The top-level code of storage.js sets no timer and keeps the handle. *)
Lemma storage_module_load_timers w :
  exists w',
    storage_module_load w = Ok tt w' /\
    timers (loop w') = timers (loop w) /\ autosaveTimer (vars w') = autosaveTimer (vars w).
Proof.
  cbv [storage_module_load isLocalStorageAvailable try_catch bind localStorage_setItem
       localStorage_removeItem get throw_if throw ret modify console_warn console_log alert
       open_dialog updateAutosaveStatus].
  destruct (store_denied (storage w)) as [e0|] eqn:Hd.
  - eexists. split; [reflexivity |]. split; reflexivity.
  - destruct (store_write_fault (storage w)) as [e1|] eqn:Hf.
    + eexists. split; [reflexivity |]. split; reflexivity.
    + js_simpl. rewrite Hd. eexists. split; [reflexivity |]. split; reflexivity.
Qed.

Lemma page_load_handle_ok clear_ok t0 s :
  timer_handle_ok (page_load clear_ok (initial_world t0 s)).
Proof.
  unfold page_load.
  set (w1 := dispatch (console_log "📝 Editor module loaded successfully") (initial_world t0 s)).
  destruct (storage_module_load_timers w1) as (w2 & Hw2 & Hl & Ha).
  assert (Hd2 : dispatch storage_module_load w1 = w2) by (unfold dispatch; rewrite Hw2; reflexivity).
  rewrite Hd2.
  assert (H2 : timer_handle_ok w2).
  { unfold timer_handle_ok. rewrite Hl. simpl. constructor. }
  assert (O : HandleOk w2 (dispatch (console_log "✅ Export listeners attached")
                             (dispatch (storage_ready clear_ok) (dispatch editor_ready w2)))).
  { apply session_page_ready; try typeclasses eauto. apply Quiet_HandleOk. }
  exact (O H2).
Qed.

Lemma reachable_timer_handle_ok w : reachable w -> timer_handle_ok w.
Proof.
  intros (t0 & s & ok & es & ->). apply handle_run, page_load_handle_ok.
Qed.

Lemma reachable_page_load clear_ok t0 s : reachable (page_load clear_ok (initial_world t0 s)).
Proof. exists t0, s, clear_ok, []. reflexivity. Qed.

Lemma reachable_step e w : reachable w -> reachable (step e w).
Proof.
  intros (t0 & s & ok & es & ->). exists t0, s, ok, (es ++ [e]).
  unfold run. rewrite List.fold_left_app. reflexivity.
Qed.

Lemma reachable_idle n : forall w, reachable w -> reachable (idle n w).
Proof.
  induction n as [|n IH]; intros w Hw; [exact Hw |].
  simpl. apply IH. apply (reachable_step Tick w Hw).
Qed.


End Reachable.

(** ** Loading: the record is missing, unusable or unreadable *)

Lemma json_null_dec (v : json) : {v = JNull} + {v <> JNull}.
Proof. destruct v; [left; reflexivity | right .. ]; discriminate. Qed.

Section Load.
Context {json_lib : JSON} {quill_lib : Quill}.

Lemma string_truthy_nonempty (s : string) :
  String.eqb s EmptyString = false -> string_truthy (Some s) = true.
Proof. intros Hs. simpl. rewrite Hs. reflexivity. Qed.

(** A record on which the checks fail was not [null]; the checks then end
    in the error they throw themselves. *)
Lemma record_error_not_null (v : json) :
  v <> JNull -> valid_record v = None ->
  record_error v = Some (Error "Invalid save data format").
Proof.
  intros Hv Hvalid. unfold record_error, valid_record in *.
  destruct (get_prop v "content") as [[c|]|e] eqn:Hc.
  - destruct (truthy (Some c)) eqn:Ht; [| reflexivity].
    change (get_prop_opt (Some c) "ops") with (get_prop c "ops").
    destruct (get_prop c "ops") as [ops|e] eqn:Hops.
    + destruct (truthy ops); [discriminate | reflexivity].
    + destruct c; simpl in Ht, Hops; discriminate.
  - reflexivity.
  - destruct v; simpl in Hc; try discriminate. congruence.
Qed.

Lemma record_error_valid (v : json) (c : json) :
  valid_record v = Some c -> record_error v = None.
Proof.
  unfold record_error, valid_record.
  destruct (get_prop v "content") as [[c0|]|e]; try discriminate.
  destruct (truthy (Some c0)); [| discriminate].
  change (get_prop_opt (Some c0) "ops") with (get_prop c0 "ops").
  destruct (get_prop c0 "ops") as [ops|e]; [| discriminate].
  destruct (truthy ops); [reflexivity | discriminate].
Qed.

(** When the [try] block fails before it reaches the editor, the world is
    still the one it started in, and the [catch] block takes over. *)
Lemma loadSavedDocument_fails w e ok :
  load_error w = Some e -> loadSavedDocument ok w = handleLoadError e ok w.
Proof.
  unfold load_error, saved_record. intros He.
  unfold loadSavedDocument, try_catch, bind at 1.
  cbv [localStorage_getItem bind get throw_if throw ret].
  destruct (store_denied (storage w)) as [e0|] eqn:Hd.
  { injection He as ->. reflexivity. }
  destruct (store_items (storage w) !! STORAGE_KEY) as [s|] eqn:Hs; [| discriminate].
  destruct (String.eqb s EmptyString) eqn:Hne; [discriminate |].
  rewrite (string_truthy_nonempty s Hne). cbn [negb].
  change (default EmptyString (Some s)) with s. unfold parse.
  destruct (JSON_parse s) as [v|] eqn:Hp.
  2:{ injection He as <-. reflexivity. }
  cbv [ret lift_result]. unfold record_error in He.
  destruct (get_prop v "content") as [c|e1] eqn:Hc; cbv [ret throw].
  2:{ injection He as ->. reflexivity. }
  destruct (truthy c) eqn:Htc; cbn [negb]; cbv [throw].
  2:{ injection He as <-. reflexivity. }
  destruct (get_prop_opt c "ops") as [ops|e2] eqn:Ho; cbv [ret throw].
  2:{ injection He as ->. reflexivity. }
  destruct (truthy ops) eqn:Hto; cbn [negb]; cbv [throw]; [discriminate |].
  injection He as <-. reflexivity.
Qed.

(** [handleLoadError] on an error it does not take for corruption. *)
Lemma handleLoadError_other e ok w :
  taken_for_corruption e = false ->
  handleLoadError e ok w =
  Ok tt (upd_page (set_autoSaveStatus (statusMessages St_error))
           (shown (Alert "Failed to load document. The saved data may be corrupted.")
              (upd_out (add_console LError ("❌ Load failed: " +:+ show_error e)) w))).
Proof.
  unfold taken_for_corruption. intros He.
  cbv [handleLoadError console_error alert open_dialog updateAutosaveStatus bind modify ret].
  rewrite He. reflexivity.
Qed.

(** [handleLoadError] on a corrupted record, the user declining to clear it. *)
Lemma handleLoadError_declined e w :
  taken_for_corruption e = true ->
  handleLoadError e false w =
  Ok tt (shown (Confirm corrupted_question false)
           (upd_out (add_console LError ("❌ Load failed: " +:+ show_error e)) w)).
Proof.
  unfold taken_for_corruption. intros He.
  cbv [handleLoadError console_error confirm open_dialog bind modify ret].
  rewrite He. reflexivity.
Qed.

(** [handleLoadError] on a corrupted record, the user agreeing to clear it. *)
Lemma handleLoadError_cleared e w q :
  taken_for_corruption e = true ->
  quill (vars w) = Some q ->
  store_denied (storage w) = None ->
  exists w',
    handleLoadError e true w = Ok tt w' /\
    store_items (storage w') = delete STORAGE_KEY (store_items (storage w)) /\
    store_denied (storage w') = None /\
    store_write_fault (storage w') = store_write_fault (storage w) /\
    quill (vars w') = Some (mkEngine (text_delta EmptyString) (undo_stack q) (redo_stack q)
                                     (lastRecorded q) (listeners q)) /\
    autoSaveStatus (page w') = statusMessages St_ready /\
    dialogs (out w')
    = dialogs (out w) ++ [Confirm corrupted_question true;
                          Alert "Corrupted data cleared. You can start a new document."] /\
    timers (loop w') = timers (loop w) /\
    uncaught (out w') = uncaught (out w).
Proof.
  unfold taken_for_corruption. intros He Hq Hd.
  cbv [handleLoadError console_error confirm localStorage_removeItem quill_setText
       updateAutosaveStatus alert open_dialog bind get modify ret throw_if].
  rewrite He. js_simpl. rewrite Hd.
  match goal with
  | |- context [engine_change _ _ ?w0] => set (w1 := w0)
  end.
  assert (Hq1 : quill (vars w1) = Some q) by exact Hq.
  destruct (engine_change_api w1 q (text_delta EmptyString) Hq1) as (w2 & Hw2 & Ho).
  destruct Ho as (Hl & Hs & Hv & Hdl & _ & Hu & _ & _ & _ & _ & Hst & _).
  subst w1. js_simpl_in Hl. js_simpl_in Hs. js_simpl_in Hv. js_simpl_in Hdl. js_simpl_in Hu.
  js_simpl_in Hst. rewrite Hw2.
  eexists. split; [reflexivity |].
  js_simpl. rewrite Hs, Hv, Hdl, Hl, Hu. js_simpl. rewrite <- app_assoc.
  repeat split; try reflexivity. exact Hd.
Qed.

(** [loadSavedDocument] when nothing is stored under the fixed key. *)
Lemma loadSavedDocument_nothing_stored w ok :
  store_denied (storage w) = None ->
  saved_record w = None \/ saved_record w = Some EmptyString ->
  loadSavedDocument ok w =
  Ok tt (upd_page (set_autoSaveStatus (statusMessages St_ready))
           (upd_out (add_console LLog "ℹ️ No saved document found (first-time user)") w)).
Proof.
  intros Hd Hs. unfold saved_record in Hs.
  cbv [loadSavedDocument try_catch localStorage_getItem bind get throw_if ret
       console_log updateAutosaveStatus modify].
  rewrite Hd. destruct Hs as [-> | ->]; reflexivity.
Qed.

(** X2: when nothing is stored under the fixed key (or the empty text),
    [loadSavedDocument] reports "Ready" and leaves the editor, the store, the
    timers and the dialogs as they are; it does so whether or not the editor
    exists, and throws nothing. *)
Theorem load_without_record :
  forall (w : World) (clear_ok : bool),
    store_denied (storage w) = None ->
    saved_record w = None \/ saved_record w = Some EmptyString ->
    let w' := world_of (loadSavedDocument clear_ok w) in
    thrown (loadSavedDocument clear_ok w) = None /\
    vars w' = vars w /\ storage w' = storage w /\ loop w' = loop w /\
    dialogs (out w') = dialogs (out w) /\
    uncaught (out w') = uncaught (out w) /\
    autoSaveStatus (page w') = "Autosave: Ready".
Proof.
  intros w ok Hd Hs w'. subst w'.
  rewrite (loadSavedDocument_nothing_stored w ok Hd Hs). simpl. repeat split.
Qed.

(** X3: a stored text that is not JSON, or that parses to a record without
    [content.ops], is taken for a corrupted record: the user is asked whether
    to clear it.  On "yes" the record is removed (the other keys stay), the
    editor holds the empty document and the status is "Ready"; on "no" the
    store, the editor and the timers stay as they are, and the clock has
    moved on by the time the question was open.  In both cases nothing is
    thrown. *)
Theorem load_corrupted_record :
  forall (w : World) (q : Engine) (s : string),
    quill (vars w) = Some q ->
    store_denied (storage w) = None ->
    saved_record w = Some s ->
    s <> EmptyString ->
    (JSON_parse s = None \/
     exists v, JSON_parse s = Some v /\ v <> JNull /\ valid_record v = None) ->
    (let w' := world_of (loadSavedDocument true w) in
     thrown (loadSavedDocument true w) = None /\
     saved_record w' = None /\
     (forall k, k <> STORAGE_KEY ->
                store_items (storage w') !! k = store_items (storage w) !! k) /\
     document w' = Some (text_delta EmptyString) /\
     autoSaveStatus (page w') = "Autosave: Ready" /\
     dialogs (out w')
     = dialogs (out w) ++ [Confirm corrupted_question true;
                           Alert "Corrupted data cleared. You can start a new document."]) /\
    (let w' := world_of (loadSavedDocument false w) in
     thrown (loadSavedDocument false w) = None /\
     storage w' = storage w /\ vars w' = vars w /\
     loop w' = set_now (now (loop w) + dialog_ms w) (loop w) /\
     autoSaveStatus (page w') = autoSaveStatus (page w) /\
     dialogs (out w') = dialogs (out w) ++ [Confirm corrupted_question false]).
Proof.
  intros w q s Hq Hd Hs Hne Hbad.
  assert (Hneb : String.eqb s EmptyString = false) by (apply String.eqb_neq; exact Hne).
  assert (He : exists e, load_error w = Some e /\ taken_for_corruption e = true).
  { unfold load_error. rewrite Hd, Hs, Hneb.
    destruct Hbad as [-> | (v & -> & Hv & Hvalid)].
    - eexists. split; reflexivity.
    - rewrite (record_error_not_null v Hv Hvalid). eexists. split; reflexivity. }
  destruct He as (e & He & Hc). split.
  - intros w'. subst w'. rewrite (loadSavedDocument_fails w e true He).
    destruct (handleLoadError_cleared e w q Hc Hq Hd)
      as (w1 & -> & Hi & _ & _ & Hq1 & Hst & Hdl & _).
    simpl. unfold saved_record, document. rewrite Hi, Hq1.
    split; [reflexivity |]. split; [apply lookup_delete_eq |].
    split; [intros k Hk; apply lookup_delete_ne; congruence |].
    split; [reflexivity |]. split; [exact Hst | exact Hdl].
  - intros w'. subst w'. rewrite (loadSavedDocument_fails w e false He).
    rewrite (handleLoadError_declined e w Hc). simpl. repeat split.
Qed.

(** X4: a failure that is neither a [SyntaxError] nor carries "Invalid" in
    its message is not taken for corruption: when the store cannot be read,
    or when the stored text is the JSON [null], the user gets the general
    failure message and the error status, is not offered to clear the record,
    and the store, the editor and the timers stay as they are; the clock has
    moved on by the time the message was open. *)
Theorem load_unrecognised_failure :
  forall (w : World) (clear_ok : bool),
    ((exists e, store_denied (storage w) = Some e /\ taken_for_corruption e = false) \/
     (store_denied (storage w) = None /\
      exists s, saved_record w = Some s /\ s <> EmptyString /\ JSON_parse s = Some JNull)) ->
    let w' := world_of (loadSavedDocument clear_ok w) in
    thrown (loadSavedDocument clear_ok w) = None /\
    storage w' = storage w /\ vars w' = vars w /\
    loop w' = set_now (now (loop w) + dialog_ms w) (loop w) /\
    autoSaveStatus (page w') = "Autosave: ⚠ Error" /\
    dialogs (out w')
    = dialogs (out w) ++ [Alert "Failed to load document. The saved data may be corrupted."].
Proof.
  intros w ok Hcase w'.
  assert (He : exists e, load_error w = Some e /\ taken_for_corruption e = false).
  { unfold load_error. destruct Hcase as [(e & Hd & Hc) | (Hd & s & Hs & Hne & Hp)].
    - rewrite Hd. eauto.
    - apply String.eqb_neq in Hne. rewrite Hd, Hs, Hne, Hp. eexists. split; reflexivity. }
  destruct He as (e & He & Hc). subst w'.
  rewrite (loadSavedDocument_fails w e ok He), (handleLoadError_other e ok w Hc).
  simpl. repeat split.
Qed.

(** What [manualLoad] does after [loadSavedDocument] has returned. *)
Lemma manualLoad_report w clear_ok w1 :
  loadSavedDocument clear_ok (shown (Confirm load_question true) w) = Ok tt w1 ->
  store_denied (storage w1) = None ->
  (saved_record w1 = None ->
   manualLoad true clear_ok w = Ok tt w1) /\
  (forall s, saved_record w1 = Some s -> s <> EmptyString ->
     match report_error s with
     | Some e => manualLoad true clear_ok w = Threw e w1
     | None =>
         exists ts v,
           JSON_parse s = Some v /\ get_prop v "timestamp" = Returns ts /\
           manualLoad true clear_ok w
           = Ok tt (shown (Alert ("✅ Loaded document from " +:+ show_date ts)) w1)
     end).
Proof.
  intros Hload Hd. unfold saved_record.
  assert (Hm : manualLoad true clear_ok w
               = bind (loadSavedDocument clear_ok)
                   (fun _ =>
                      let! savedDataString := localStorage_getItem STORAGE_KEY in
                      if string_truthy savedDataString
                      then
                        let! savedData := parse (default EmptyString savedDataString) in
                        let! timestamp := lift_result (get_prop savedData "timestamp") in
                        alert ("✅ Loaded document from " +:+ show_date timestamp)
                      else ret tt)
                   (shown (Confirm load_question true) w)) by reflexivity.
  assert (Hm1 : manualLoad true clear_ok w
                = (if string_truthy (store_items (storage w1) !! STORAGE_KEY)
                   then
                     let! savedData :=
                       parse (default EmptyString (store_items (storage w1) !! STORAGE_KEY)) in
                     let! timestamp := lift_result (get_prop savedData "timestamp") in
                     alert ("✅ Loaded document from " +:+ show_date timestamp)
                   else ret tt) w1).
  { rewrite Hm. unfold bind at 1. rewrite Hload.
    cbv [localStorage_getItem bind get throw_if ret]. rewrite Hd. reflexivity. }
  rewrite Hm1. clear Hm Hm1. split.
  - intros ->. reflexivity.
  - intros s -> Hne. apply String.eqb_neq in Hne.
    rewrite (string_truthy_nonempty s Hne).
    change (default EmptyString (Some s)) with s. unfold report_error, parse, bind.
    destruct (JSON_parse s) as [v|]; [| reflexivity].
    cbv [ret lift_result]. destruct (get_prop v "timestamp") as [ts|e] eqn:Hts; [| reflexivity].
    exists ts, v. split; [reflexivity |]. split; [exact Hts | reflexivity].
Qed.

(** X5: when [manualLoad] lets an exception escape.  With a readable store
    holding a non-empty text under the fixed key, the handler throws exactly
    when the text is not JSON and the user declines to clear it (the second
    [JSON.parse] throws), or when the text is the JSON [null] (reading its
    [timestamp] throws); a usable record, a record without [content.ops], and
    a cleared record end without exception. *)
Theorem manual_load_escapes :
  forall (w : World) (q : Engine) (s : string) (clear_ok : bool),
    quill (vars w) = Some q ->
    store_denied (storage w) = None ->
    saved_record w = Some s ->
    s <> EmptyString ->
    thrown (manualLoad true clear_ok w)
    = match JSON_parse s with
      | None => if clear_ok then None else Some (SyntaxError "Unexpected token in JSON")
      | Some JNull => Some (TypeError "Cannot read properties of null (reading 'timestamp')")
      | Some _ => None
      end.
Proof.
  intros w q s ok Hq Hd Hs Hne.
  set (w0 := shown (Confirm load_question true) w).
  assert (Hq0 : quill (vars w0) = Some q) by exact Hq.
  assert (Hd0 : store_denied (storage w0) = None) by exact Hd.
  assert (Hs0 : saved_record w0 = Some s) by exact Hs.
  assert (Hneb : String.eqb s EmptyString = false) by (apply String.eqb_neq; exact Hne).
  (* the record is cleared: nothing is left to report *)
  assert (Hcleared : forall e, loadSavedDocument ok w0 = handleLoadError e ok w0 ->
                               taken_for_corruption e = true ->
                               ok = true -> thrown (manualLoad true ok w) = None).
  { intros e He Hc ->.
    destruct (handleLoadError_cleared e w0 q Hc Hq0 Hd0) as (w1 & Hw1 & Hi & Hd1 & _).
    rewrite <- He in Hw1.
    destruct (manualLoad_report w true w1 Hw1 Hd1) as [Hnone _].
    rewrite Hnone; [reflexivity |]. unfold saved_record. rewrite Hi. apply lookup_delete_eq. }
  (* the record stays: the report is made on it *)
  assert (Hkept : forall w1, loadSavedDocument ok w0 = Ok tt w1 -> storage w1 = storage w0 ->
                             thrown (manualLoad true ok w) = report_error s).
  { intros w1 Hw1 Hst.
    assert (Hd1 : store_denied (storage w1) = None) by (rewrite Hst; exact Hd0).
    destruct (manualLoad_report w ok w1 Hw1 Hd1) as [_ Hsome].
    specialize (Hsome s). unfold saved_record in Hsome. rewrite Hst in Hsome.
    specialize (Hsome Hs0 Hne). destruct (report_error s) as [e|].
    - rewrite Hsome. reflexivity.
    - destruct Hsome as (ts & v & _ & _ & ->). reflexivity. }
  destruct (JSON_parse s) as [v|] eqn:Hp.
  - destruct (valid_record v) as [c|] eqn:Hvalid.
    + (* a usable record: the engine takes it, or the error handler runs *)
      assert (Hrec : stored_record w0 c).
      { split; [exact Hd0 |]. exists s, v. repeat split; assumption. }
      assert (Hnone : report_error s = None).
      { unfold report_error. rewrite Hp. destruct v; try discriminate; reflexivity. }
      assert (Hgoal : thrown (manualLoad true ok w) = None).
      { destruct (Quill_setContents c) as [d|e] eqn:Hset.
        - destruct (loadSavedDocument_loads w0 q c d ok Hq0 (conj Hrec Hset))
            as (w1 & Hw1 & _ & _ & Hst & _).
          rewrite (Hkept w1 Hw1 Hst). exact Hnone.
        - pose proof (loadSavedDocument_rejected w0 q c e ok Hq0 Hrec Hset) as Hfail.
          destruct (taken_for_corruption e) eqn:Hc.
          + destruct ok.
            * apply (Hcleared e Hfail Hc eq_refl).
            * rewrite (Hkept _ (eq_trans Hfail (handleLoadError_declined e w0 Hc)) eq_refl).
              exact Hnone.
          + rewrite (Hkept _ (eq_trans Hfail (handleLoadError_other e ok w0 Hc)) eq_refl).
            exact Hnone. }
      rewrite Hgoal. destruct v; try discriminate; reflexivity.
    + destruct (json_null_dec v) as [-> | Hv].
      * (* the JSON null *)
        assert (He : load_error w0
                     = Some (TypeError "Cannot read properties of null (reading 'content')")).
        { unfold load_error. rewrite Hd0, Hs0, Hneb, Hp. reflexivity. }
        pose proof (handleLoadError_other _ ok w0
                      (eq_refl : taken_for_corruption
                                   (TypeError "Cannot read properties of null (reading 'content')")
                                 = false)) as Hh.
        rewrite (Hkept _ (eq_trans (loadSavedDocument_fails w0 _ ok He) Hh) eq_refl).
        unfold report_error. rewrite Hp. reflexivity.
      * (* a record without the content *)
        assert (He : load_error w0 = Some (Error "Invalid save data format")).
        { unfold load_error. rewrite Hd0, Hs0, Hneb, Hp.
          apply record_error_not_null; assumption. }
        assert (Hnone : report_error s = None).
        { unfold report_error. rewrite Hp. destruct v; try reflexivity. congruence. }
        destruct ok.
        -- rewrite (Hcleared _ (loadSavedDocument_fails w0 _ true He) eq_refl eq_refl).
           destruct v; try reflexivity. congruence.
        -- pose proof (handleLoadError_declined _ w0
                         (eq_refl : taken_for_corruption (Error "Invalid save data format")
                                    = true)) as Hh.
           rewrite (Hkept _ (eq_trans (loadSavedDocument_fails w0 _ false He) Hh) eq_refl).
           rewrite Hnone. destruct v; try reflexivity. congruence.
  - (* not JSON *)
    assert (He : load_error w0 = Some (SyntaxError "Unexpected token in JSON")).
    { unfold load_error. rewrite Hd0, Hs0, Hneb, Hp. reflexivity. }
    destruct ok.
    + apply (Hcleared _ (loadSavedDocument_fails w0 _ true He) eq_refl eq_refl).
    + pose proof (handleLoadError_declined _ w0
                    (eq_refl : taken_for_corruption (SyntaxError "Unexpected token in JSON")
                               = true)) as Hh.
      rewrite (Hkept _ (eq_trans (loadSavedDocument_fails w0 _ false He) Hh) eq_refl).
      unfold report_error. rewrite Hp. reflexivity.
Qed.

(** X6: [manualLoad] reports a load that did not take place.  When the
    stored record parses but lacks [content.ops] and the user declines to
    clear it, the editor and the store stay as they are, and the handler
    still ends with the message "Loaded document from ...". *)
Theorem manual_load_reports_unloaded_record :
  forall (w : World) (q : Engine) (s : string) (v : json),
    quill (vars w) = Some q ->
    store_denied (storage w) = None ->
    saved_record w = Some s ->
    s <> EmptyString ->
    JSON_parse s = Some v ->
    v <> JNull ->
    valid_record v = None ->
    let w' := world_of (manualLoad true false w) in
    thrown (manualLoad true false w) = None /\
    vars w' = vars w /\ storage w' = storage w /\
    exists ts,
      get_prop v "timestamp" = Returns ts /\
      dialogs (out w')
      = dialogs (out w) ++ [Confirm load_question true;
                            Confirm corrupted_question false;
                            Alert ("✅ Loaded document from " +:+ show_date ts)].
Proof.
  intros w q s v Hq Hd Hs Hne Hp Hv Hvalid w'.
  set (w0 := shown (Confirm load_question true) w).
  assert (Hneb : String.eqb s EmptyString = false) by (apply String.eqb_neq; exact Hne).
  assert (He : load_error w0 = Some (Error "Invalid save data format")).
  { unfold load_error, saved_record. change (storage w0) with (storage w).
    unfold saved_record in Hs. rewrite Hd, Hs, Hneb, Hp.
    apply record_error_not_null; assumption. }
  pose proof (eq_trans (loadSavedDocument_fails w0 _ false He)
                       (handleLoadError_declined _ w0
                          (eq_refl : taken_for_corruption (Error "Invalid save data format")
                                     = true))) as Hload.
  destruct (manualLoad_report w false _ Hload Hd) as [_ Hsome].
  specialize (Hsome s Hs Hne). unfold report_error in Hsome. rewrite Hp in Hsome.
  destruct (get_prop v "timestamp") as [ts|e] eqn:Hts.
  2:{ destruct v; simpl in Hts; try discriminate. congruence. }
  destruct Hsome as (ts' & v' & Hp' & Hts' & Hm).
  assert (v' = v) by congruence. subst v'.
  assert (ts' = ts) by congruence. subst ts'.
  subst w'. rewrite Hm. simpl. split; [reflexivity |]. split; [reflexivity |].
  split; [reflexivity |]. exists ts. split; [reflexivity |].
  rewrite <- !app_assoc. reflexivity.
Qed.

End Load.

(** ** The store: saving, clearing, probing, and the theme preference *)

Section Store.
Context {json_lib : JSON} {quill_lib : Quill}.

(** [handleSaveError] always returns. *)
Lemma handleSaveError_world e a w :
  let w1 := upd_out (add_console LError ("❌ Save failed: " +:+ show_error e)) w in
  handleSaveError e a w =
  Ok tt (upd_page (set_autoSaveStatus (statusMessages St_error))
           (if a then w1 else shown (Alert (save_failure_message e)) w1)).
Proof.
  unfold save_failure_message.
  cbv [handleSaveError console_error alert open_dialog updateAutosaveStatus bind modify ret].
  destruct (String.eqb (name e) "QuotaExceededError"), a; reflexivity.
Qed.

(** The body of [performSave] ends without exception, whatever the state of
    the editor and of the store. *)
Lemma performSave_body_returns a w : exists w', performSave_body a w = Ok tt w'.
Proof.
  unfold performSave_body, try_catch.
  match goal with
  | |- exists w', match ?c w with _ => _ end = _ => destruct (c w) as [[] w1|e w1]
  end.
  - eauto.
  - rewrite handleSaveError_world. eauto.
Qed.

(** [performSave] while the editor does not exist yet. *)
Lemma performSave_no_editor a w :
  quill (vars w) = None ->
  performSave a w =
  handleSaveError (TypeError "Cannot read properties of null") a
    (upd_out (add_call (now (loop w)) (CallPerformSave a)) w).
Proof.
  intros Hq.
  cbv [performSave performSave_body try_catch quill_getContents the_quill
       Date_now bind get modify ret throw].
  js_simpl. rewrite Hq. reflexivity.
Qed.

(** X7: [performSave] never lets an exception escape, whatever the state of
    the editor and of the store; called while the editor does not exist, it
    ends in its own error handling: the store keeps what it had, the status
    shows the error, and a manual save shows the general failure message. *)
Theorem save_never_throws :
  (forall (w : World) (a : bool), thrown (performSave a w) = None) /\
  (forall (w : World) (a : bool),
     quill (vars w) = None ->
     let w' := world_of (performSave a w) in
     storage w' = storage w /\
     autoSaveStatus (page w') = "Autosave: ⚠ Error" /\
     dialogs (out w')
     = dialogs (out w) ++ (if a then [] else [Alert generic_save_message])).
Proof.
  split.
  - intros w a. unfold performSave, bind at 1. cbv [Date_now bind get ret modify].
    match goal with
    | |- thrown (performSave_body a ?w1) = None =>
        destruct (performSave_body_returns a w1) as (w' & ->)
    end.
    reflexivity.
  - intros w a Hq w'. subst w'.
    rewrite (performSave_no_editor a w Hq), handleSaveError_world.
    destruct a; simpl; rewrite ?app_nil_r; repeat split.
Qed.

(** X8: [clearSavedDocument], confirmed, removes the record and nothing
    else from the store, reports "Ready", and a following
    [loadSavedDocument] finds nothing and leaves the editor alone; declined,
    it changes nothing but the list of dialogs, and the clock has moved on
    by the time the question was open. *)
Theorem clear_saved_document :
  (forall (w : World) (clear_ok : bool),
     store_denied (storage w) = None ->
     let w' := world_of (clearSavedDocument true w) in
     thrown (clearSavedDocument true w) = None /\
     saved_record w' = None /\
     (forall k, k <> STORAGE_KEY ->
                store_items (storage w') !! k = store_items (storage w) !! k) /\
     vars w' = vars w /\
     autoSaveStatus (page w') = "Autosave: Ready" /\
     dialogs (out w')
     = dialogs (out w) ++ [Confirm "⚠️ Delete saved document? This cannot be undone." true;
                           Alert "Saved document deleted."] /\
     thrown (loadSavedDocument clear_ok w') = None /\
     vars (world_of (loadSavedDocument clear_ok w')) = vars w /\
     dialogs (out (world_of (loadSavedDocument clear_ok w'))) = dialogs (out w')) /\
  (forall w : World,
     let w' := world_of (clearSavedDocument false w) in
     thrown (clearSavedDocument false w) = None /\
     storage w' = storage w /\ vars w' = vars w /\ page w' = page w /\
     loop w' = set_now (now (loop w) + dialog_ms w) (loop w) /\
     dialogs (out w')
     = dialogs (out w) ++ [Confirm "⚠️ Delete saved document? This cannot be undone." false]).
Proof.
  split.
  - intros w ok Hd w'.
    assert (Hw' : clearSavedDocument true w
                  = Ok tt (upd_out (add_console LLog "🗑️ Saved document cleared")
                            (upd_page (set_autoSaveStatus (statusMessages St_ready))
                              (shown (Alert "Saved document deleted.")
                                (upd_storage
                                   (fun s => set_items (delete STORAGE_KEY (store_items s)) s)
                                   (shown (Confirm
                                      "⚠️ Delete saved document? This cannot be undone." true)
                                      w)))))).
    { cbv [clearSavedDocument confirm localStorage_removeItem alert open_dialog
           updateAutosaveStatus
           console_log bind get modify ret throw_if].
      js_simpl. rewrite Hd. reflexivity. }
    subst w'. rewrite Hw'. cbn [world_of thrown].
    match goal with |- context [loadSavedDocument ok ?w0] => set (w1 := w0) end.
    assert (Hnone : saved_record w1 = None) by (unfold saved_record; apply lookup_delete_eq).
    rewrite (loadSavedDocument_nothing_stored w1 ok Hd (or_introl Hnone)).
    split; [reflexivity |]. split; [exact Hnone |].
    split; [intros k Hk; subst w1; js_simpl; apply lookup_delete_ne; congruence |].
    subst w1. js_simpl. rewrite <- app_assoc. repeat split.
  - intros w w'. subst w'.
    cbv [clearSavedDocument confirm open_dialog bind modify ret]. simpl. repeat split.
Qed.

(** X9: the availability test answers "yes" exactly when a write to the
    store succeeds; it never throws, leaves every other key of the store as
    it is, and leaves nothing under its own key after a "yes" (an entry the
    user had stored under that key is removed); after a "no" the store is
    unchanged. *)
Theorem availability_probe :
  forall w : World,
    exists (b : bool) (w' : World),
      isLocalStorageAvailable w = Ok b w' /\
      (b = true <-> store_fault (storage w) = None) /\
      (forall k, k <> TEST_KEY ->
                 store_items (storage w') !! k = store_items (storage w) !! k) /\
      (b = true -> store_items (storage w') !! TEST_KEY = None) /\
      (b = false -> storage w' = storage w) /\
      vars w' = vars w /\ loop w' = loop w /\ page w' = page w /\
      dialogs (out w') = dialogs (out w).
Proof.
  intros w. unfold store_fault.
  cbv [isLocalStorageAvailable try_catch localStorage_setItem localStorage_removeItem
       console_warn bind get modify ret throw_if throw].
  destruct (store_denied (storage w)) as [e|] eqn:Hd.
  { exists false. eexists. split; [reflexivity |]. simpl.
    repeat split; intros; try reflexivity; discriminate. }
  destruct (store_write_fault (storage w)) as [e|] eqn:Hf.
  { exists false. eexists. split; [reflexivity |]. simpl.
    repeat split; intros; try reflexivity; discriminate. }
  js_simpl. rewrite Hd. exists true. eexists. split; [reflexivity |]. js_simpl.
  split; [split; reflexivity |].
  split; [intros k Hk; rewrite lookup_delete_ne by (unfold TEST_KEY in Hk; congruence);
          apply lookup_insert_ne; unfold TEST_KEY in Hk; congruence |].
  split; [intros _; apply lookup_delete_eq |].
  split; [discriminate |]. repeat split.
Qed.

(** What [toggleDarkMode] does on a store that accepts the write. *)
Lemma toggleDarkMode_stores w :
  store_fault (storage w) = None ->
  toggleDarkMode w =
  Ok tt (upd_out (add_console LLog "🎨 Theme toggled")
           (upd_storage (fun s => set_items (<[THEME_KEY := theme_name (negb (dark_mode (page w)))]>
                                               (store_items s)) s)
              (upd_page (fun p => set_dark_mode (negb (dark_mode p)) p) w))).
Proof.
  unfold store_fault. intros Hf.
  destruct (store_denied (storage w)) eqn:Hd; [discriminate |].
  cbv [toggleDarkMode localStorage_setItem console_log bind get modify ret throw_if].
  js_simpl. destruct (dark_mode (page w)); js_simpl; rewrite Hd, Hf; reflexivity.
Qed.

(** What [toggleDarkMode] does on a store that rejects the write. *)
Lemma toggleDarkMode_fails w e :
  store_fault (storage w) = Some e ->
  toggleDarkMode w = Threw e (upd_page (fun p => set_dark_mode (negb (dark_mode p)) p) w).
Proof.
  unfold store_fault. intros Hf.
  cbv [toggleDarkMode localStorage_setItem console_log bind get modify ret throw_if throw].
  js_simpl. destruct (store_denied (storage w)) eqn:Hd.
  - injection Hf as ->. destruct (dark_mode (page w)); js_simpl; rewrite Hd; reflexivity.
  - destruct (dark_mode (page w)); js_simpl; rewrite Hd, Hf; reflexivity.
Qed.

(** The top-level code of storage.js on a store that accepts writes. *)
Lemma storage_module_load_available w :
  store_fault (storage w) = None ->
  exists w',
    storage_module_load w = Ok tt w' /\
    (forall k, k <> TEST_KEY ->
               store_items (storage w') !! k = store_items (storage w) !! k) /\
    store_denied (storage w') = None /\
    page w' = page w /\ vars w' = vars w /\ loop w' = loop w.
Proof.
  unfold store_fault. intros Hf.
  destruct (store_denied (storage w)) eqn:Hd; [discriminate |].
  cbv [storage_module_load isLocalStorageAvailable try_catch localStorage_setItem
       localStorage_removeItem console_warn console_log alert updateAutosaveStatus
       bind get modify ret throw_if throw].
  rewrite Hd, Hf. js_simpl. rewrite Hd. eexists. split; [reflexivity |]. js_simpl.
  split; [| repeat split; exact Hd].
  intros k Hk. unfold TEST_KEY in Hk.
  rewrite lookup_delete_ne by congruence. apply lookup_insert_ne. congruence.
Qed.

(** [checkDarkModePreference] on a store that holds a theme written by
    [toggleDarkMode]. *)
Lemma checkDarkModePreference_restores w (dark : bool) :
  store_denied (storage w) = None ->
  store_items (storage w) !! THEME_KEY = Some (theme_name dark) ->
  dark_mode (page w) = false ->
  exists w',
    checkDarkModePreference w = Ok tt w' /\ dark_mode (page w') = dark.
Proof.
  intros Hd Hth Hp.
  cbv [checkDarkModePreference localStorage_getItem bind get modify ret throw_if].
  rewrite Hd. js_simpl. unfold THEME_KEY in Hth. rewrite Hth.
  destruct dark; simpl; eexists; (split; [reflexivity |]); [reflexivity | exact Hp].
Qed.

(** The theme class after a page load over a store holding a theme. *)
Lemma page_load_theme (s : Storage) (t0 : Z) (clear_ok dark : bool) :
  store_fault s = None ->
  store_items s !! THEME_KEY = Some (theme_name dark) ->
  dark_mode (page (page_load clear_ok (initial_world t0 s))) = dark.
Proof.
  intros Hf Hth. unfold page_load.
  set (w1 := dispatch (console_log "📝 Editor module loaded successfully") (initial_world t0 s)).
  destruct (storage_module_load_available w1 Hf) as (w2 & Hw2 & Hk & Hd2 & Hp2 & _).
  assert (Hd : dispatch storage_module_load w1 = w2) by (unfold dispatch; rewrite Hw2; reflexivity).
  rewrite Hd. clear Hd.
  assert (Hth2 : store_items (storage w2) !! THEME_KEY = Some (theme_name dark)).
  { rewrite Hk by discriminate. exact Hth. }
  (* the handler of editor.js, up to the theme *)
  assert (He : exists w3,
             (initializeEditor ;;
              console_log "✅ Event listeners attached" ;;
              console_log "✅ Custom keyboard shortcuts registered" ;;
              updateWordCount) w2 = Ok tt w3 /\
             storage w3 = storage w2 /\ dark_mode (page w3) = false).
  { cbv [initializeEditor quill_on the_quill put_quill console_log updateWordCount
         bind get modify ret].
    js_simpl. eexists. split; [reflexivity |]. js_simpl. split; [reflexivity |].
    rewrite Hp2. reflexivity. }
  destruct He as (w3 & Hw3 & Hs3 & Hp3).
  destruct (checkDarkModePreference_restores w3 dark) as (w4 & Hw4 & Hp4);
    [rewrite Hs3; exact Hd2 | rewrite Hs3; exact Hth2 | exact Hp3 |].
  assert (Hready : editor_ready w2 = Ok tt w4).
  { change (editor_ready w2)
      with (bind (initializeEditor ;;
                  console_log "✅ Event listeners attached" ;;
                  console_log "✅ Custom keyboard shortcuts registered" ;;
                  updateWordCount)
                 (fun _ => checkDarkModePreference) w2).
    unfold bind at 1. rewrite Hw3. exact Hw4. }
  unfold dispatch at 3. rewrite Hready.
  cbv [dispatch storage_ready setTimeout console_log bind modify ret]. js_simpl. exact Hp4.
Qed.

(** X10: the theme preference survives a reload.  On a store that accepts
    the write, [toggleDarkMode] flips the theme class, stores "dark" or
    "light" accordingly and leaves the saved document alone; a page loaded
    over the resulting store comes up with the same theme. *)
Theorem theme_preference_roundtrip :
  forall (w : World) (t0 : Z) (clear_ok : bool),
    store_fault (storage w) = None ->
    let w' := step ClickDarkMode w in
    dark_mode (page w') = negb (dark_mode (page w)) /\
    store_items (storage w') !! THEME_KEY = Some (theme_name (dark_mode (page w'))) /\
    saved_record w' = saved_record w /\
    uncaught (out w') = uncaught (out w) /\
    dark_mode (page (page_load clear_ok (initial_world t0 (storage w'))))
    = dark_mode (page w').
Proof.
  intros w t0 ok Hf w'.
  assert (Hw' : w' = upd_out (add_console LLog "🎨 Theme toggled")
                       (upd_storage
                          (fun s => set_items (<[THEME_KEY := theme_name (negb (dark_mode (page w)))]>
                                                 (store_items s)) s)
                          (upd_page (fun p => set_dark_mode (negb (dark_mode p)) p) w))).
  { subst w'. simpl step. unfold dispatch. rewrite (toggleDarkMode_stores w Hf). reflexivity. }
  rewrite Hw'. js_simpl.
  split; [reflexivity |]. split; [apply lookup_insert_eq |].
  split; [unfold saved_record; js_simpl; apply lookup_insert_ne; discriminate |].
  split; [reflexivity |].
  apply page_load_theme.
  - unfold store_fault in *. js_simpl. exact Hf.
  - js_simpl. apply lookup_insert_eq.
Qed.

(** X11: on a store that rejects the write (storage blocked or full),
    [toggleDarkMode] still flips the theme class, but the preference is not
    stored and the exception of the store leaves the handler uncaught. *)
Theorem theme_toggle_on_failing_store :
  forall (w : World) (e : js_error),
    store_fault (storage w) = Some e ->
    let w' := step ClickDarkMode w in
    dark_mode (page w') = negb (dark_mode (page w)) /\
    storage w' = storage w /\
    uncaught (out w') = uncaught (out w) ++ [e].
Proof.
  intros w e Hf w'. subst w'. simpl step. unfold dispatch.
  rewrite (toggleDarkMode_fails w e Hf). simpl. repeat split.
Qed.

End Store.

(** ** Keyboard shortcuts, and the start of an export *)

Section Keyboard.
Context {json_lib : JSON} {quill_lib : Quill}.

Lemma manualSave_returns w : exists w', manualSave w = Ok tt w'.
Proof.
  unfold manualSave, performSave. cbv [Date_now bind get ret modify].
  match goal with
  | |- exists w', performSave_body false ?w1 = _ =>
      destruct (performSave_body_returns false w1) as (w' & ->)
  end.
  eauto.
Qed.

(** The first part of the export handler always returns. *)
Lemma export_click_returns o w : exists w', export_click o w = Ok tt w'.
Proof.
  cbv [export_click alert set_exportBtn console_log createElement appendChild setTimeout
       bind get modify ret].
  destruct (quill (vars w)) as [q|]; [| eauto].
  destruct (Nat.eqb (js_length (trim (delta_text (contents q)))) 0); eauto.
Qed.

(** The export handler on a document with text, its button enabled. *)
Lemma export_click_starts o w q :
  quill (vars w) = Some q ->
  trim (delta_text (contents q)) <> EmptyString ->
  exists w1,
    export_click o w = Ok tt w1 /\
    exportBtn_disabled (page w1) = true /\
    exportBtn_text (page w1) = "⏳ Exporting..." /\
    body (page w1) = body (page w) ++ [next_node (page w); S (next_node (page w))] /\
    next_node (page w1) = S (S (next_node (page w))) /\
    autoSaveStatus (page w1) = autoSaveStatus (page w) /\
    loop w1 = mkLoop (now (loop w))
                (timers (loop w) ++ [mkTimer (next_timer (loop w)) (now (loop w) + 1000)
                                       (CbExportRendered o (next_node (page w))
                                                           (S (next_node (page w))))])
                (Pos.succ (next_timer (loop w))) /\
    storage w1 = storage w /\ vars w1 = vars w /\
    downloads (out w1) = downloads (out w) /\
    dialogs (out w1) = dialogs (out w) /\
    uncaught (out w1) = uncaught (out w) /\
    calls (out w1) = calls (out w) /\
    dwell w1 = dwell w.
Proof.
  intros Hq Ht.
  assert (Hlen : Nat.eqb (js_length (trim (delta_text (contents q)))) 0 = false).
  { apply Nat.eqb_neq. rewrite js_length_zero. exact Ht. }
  cbv [export_click alert set_exportBtn console_log createElement appendChild setTimeout
       bind get modify ret].
  rewrite Hq, Hlen. eexists. split; [reflexivity |]. js_simpl.
  rewrite <- app_assoc. repeat split.
Qed.

(** X12: the keyboard shortcuts.  Ctrl+S does what the Save button does
    (and adds a console line), also on a blank document; Ctrl+P starts an
    export as the button does, and does nothing while an export is running
    (the button is disabled); Escape moves the focus from the editing area to
    the toolbar; every other key, a capital S or P included, changes
    nothing. *)
Theorem keyboard_shortcuts :
  (forall (w : World) (o : render_oracle) (active : focus),
     keydown true "s" o active w
     = Ok active (upd_out (add_console LLog "⌨️ Ctrl+S pressed: Save triggered")
                    (world_of (manualSave w)))) /\
  (forall (w : World) (o : render_oracle) (active : focus),
     exportBtn_disabled (page w) = true ->
     keydown true "p" o active w = Ok active w) /\
  (forall (w : World) (o : render_oracle) (active : focus),
     exportBtn_disabled (page w) = false ->
     keydown true "p" o active w
     = Ok active (upd_out (add_console LLog "⌨️ Ctrl+P pressed: PDF export triggered")
                    (step (ClickExport o) w))) /\
  (forall (w : World) (q : Engine) (ctrlKey : bool) (o : render_oracle),
     quill (vars w) = Some q ->
     keydown ctrlKey "Escape" o FocusEditor w
     = Ok FocusNewDoc
         (upd_out (add_console LLog "⌨️ Escape pressed: Focus moved to toolbar") w) /\
     keydown ctrlKey "Escape" o FocusElsewhere w = Ok FocusElsewhere w) /\
  (forall (w : World) (ctrlKey : bool) (key : string) (o : render_oracle) (active : focus),
     ctrlKey = false \/ (key <> "s" /\ key <> "p") ->
     key <> "Escape" ->
     keydown ctrlKey key o active w = Ok active w).
Proof.
  split; [| split; [| split; [| split]]].
  - intros w o f. destruct (manualSave_returns w) as (w1 & Hw1).
    unfold keydown. cbn [andb String.eqb Ascii.eqb Bool.eqb].
    cbv [bind ret console_log modify]. rewrite Hw1. reflexivity.
  - intros w o f Hdis. unfold keydown. cbn [andb String.eqb Ascii.eqb Bool.eqb].
    cbv [bind ret get]. rewrite Hdis. reflexivity.
  - intros w o f Hen. destruct (export_click_returns o w) as (w1 & Hw1).
    unfold keydown. cbn [andb String.eqb Ascii.eqb Bool.eqb].
    cbv [bind ret get console_log modify]. rewrite Hen. cbn [negb].
    simpl step. rewrite Hen. unfold dispatch. rewrite Hw1. reflexivity.
  - intros w q c o Hq. unfold keydown. cbn [String.eqb Ascii.eqb Bool.eqb].
    rewrite !andb_false_r. cbv [bind ret get the_quill console_log modify].
    rewrite Hq. split; reflexivity.
  - intros w c key o f Hkey Hesc. unfold keydown.
    apply String.eqb_neq in Hesc. rewrite Hesc.
    assert (Hs : c && String.eqb key "s" = false).
    { destruct Hkey as [-> | [Hs _]]; [reflexivity |].
      apply String.eqb_neq in Hs. rewrite Hs. apply andb_false_r. }
    assert (Hp : c && String.eqb key "p" = false).
    { destruct Hkey as [-> | [_ Hp]]; [reflexivity |].
      apply String.eqb_neq in Hp. rewrite Hp. apply andb_false_r. }
    rewrite Hs, Hp. reflexivity.
Qed.

(** X13: a click on the export button of a document with text puts the page
    in the busy state: the button is disabled and relabelled, the overlay and
    the wrapper are the two newest children of the body, and one timer waits
    for the rendering pause of 1000 ms; nothing is downloaded or asked yet.
    In that state a second click, or Ctrl+P, starts nothing. *)
Theorem export_click_enters_busy_state :
  forall (w : World) (q : Engine) (o o2 : render_oracle),
    quill (vars w) = Some q ->
    trim (delta_text (contents q)) <> EmptyString ->
    exportBtn_disabled (page w) = false ->
    let w1 := step (ClickExport o) w in
    exportBtn_disabled (page w1) = true /\
    exportBtn_text (page w1) = "⏳ Exporting..." /\
    body (page w1) = body (page w) ++ [next_node (page w); S (next_node (page w))] /\
    timers (loop w1)
    = timers (loop w) ++ [mkTimer (next_timer (loop w)) (now (loop w) + 1000)
                            (CbExportRendered o (next_node (page w)) (S (next_node (page w))))] /\
    downloads (out w1) = downloads (out w) /\
    dialogs (out w1) = dialogs (out w) /\
    uncaught (out w1) = uncaught (out w) /\
    step (ClickExport o2) w1 = w1 /\
    (forall active, keydown true "p" o2 active w1 = Ok active w1).
Proof.
  intros w q o o2 Hq Ht Hen w1.
  destruct (export_click_starts o w q Hq Ht)
    as (w' & Hw' & Hdis & Htxt & Hbody & _ & _ & Hloop & _ & _ & Hdl & Hdg & Hun & _).
  assert (Hw1 : w1 = w').
  { subst w1. simpl step. rewrite Hen. unfold dispatch. rewrite Hw'. reflexivity. }
  rewrite Hw1. rewrite Hloop.
  split; [exact Hdis |]. split; [exact Htxt |]. split; [exact Hbody |].
  split; [reflexivity |]. split; [exact Hdl |]. split; [exact Hdg |]. split; [exact Hun |].
  split.
  - simpl step. rewrite Hdis. reflexivity.
  - intros f. unfold keydown. cbn [andb String.eqb Ascii.eqb Bool.eqb].
    cbv [bind ret get]. rewrite Hdis. reflexivity.
Qed.

End Keyboard.

(** ** The event loop while nothing else is due *)

Lemma later_than_mono (T T' : Z) (ts : list timer) :
  T' <= T -> later_than T ts -> later_than T' ts.
Proof.
  intros Hle Hl. unfold later_than in *. eapply Forall_impl; [exact Hl |].
  intros t Ht. simpl in *. lia.
Qed.

Lemma later_than_app (T : Z) (l1 l2 : list timer) :
  later_than T (l1 ++ l2) <-> later_than T l1 /\ later_than T l2.
Proof. unfold later_than. apply Forall_app. Qed.

Lemma later_than_filter (T : Z) (P : timer -> bool) (ts : list timer) :
  later_than T ts -> later_than T (List.filter P ts).
Proof.
  unfold later_than. intros Hl. apply Forall_forall. intros t Hin.
  apply list_elem_of_In, List.filter_In in Hin as [Hin _].
  rewrite Forall_forall in Hl. apply Hl, list_elem_of_In, Hin.
Qed.

Lemma take_due_later (t : Z) (ts : list timer) :
  later_than t ts -> take_due t ts = None.
Proof.
  induction 1 as [|x ts Hx _ IH]; simpl; [reflexivity |].
  unfold is_due. destruct (Z.leb_spec (due x) t); [lia |]. rewrite IH. reflexivity.
Qed.

Lemma take_due_split (t : Z) (l1 : list timer) (x : timer) (l2 : list timer) :
  later_than t l1 -> due x <= t -> take_due t (l1 ++ x :: l2) = Some (x, l1 ++ l2).
Proof.
  intros Hl Hx. induction Hl as [|y l1 Hy _ IH]; simpl.
  - unfold is_due. destruct (Z.leb_spec (due x) t); [reflexivity | lia].
  - unfold is_due at 1. destruct (Z.leb_spec (due y) t); [lia |]. rewrite IH. reflexivity.
Qed.

Lemma advance_advance (a b : Z) (w : World) : advance b (advance a w) = advance (a + b) w.
Proof.
  unfold advance, upd_loop, set_now. cbn [loop storage page out vars now timers next_timer].
  rewrite Z.add_assoc. reflexivity.
Qed.

Lemma advance_0 (w : World) : advance 0 w = w.
Proof.
  destruct w as [[n ts nt] s p o v dw]. unfold advance, upd_loop, set_now.
  cbn [loop storage page out vars now timers next_timer]. rewrite Z.add_0_r. reflexivity.
Qed.

Section Idle.
Context {json_lib : JSON} {quill_lib : Quill}.

Lemma fire_due_idle (fuel : nat) (w : World) :
  later_than (now (loop w)) (timers (loop w)) -> fire_due fuel w = w.
Proof.
  intros Hl. destruct fuel; simpl; [reflexivity |]. rewrite (take_due_later _ _ Hl). reflexivity.
Qed.

Lemma tick_idle (w : World) :
  later_than (now (loop w) + 1) (timers (loop w)) -> tick w = advance 1 w.
Proof. intros Hl. unfold tick. apply fire_due_idle. exact Hl. Qed.

(** While no timer is due, time passes and nothing else happens. *)
Lemma idle_quiet (n : nat) : forall w : World,
  later_than (now (loop w) + Z.of_nat n) (timers (loop w)) ->
  idle n w = advance (Z.of_nat n) w.
Proof.
  induction n as [|n IH]; intros w Hl.
  - simpl. symmetry. apply advance_0.
  - simpl idle. rewrite tick_idle by (eapply later_than_mono; [| exact Hl]; lia).
    rewrite IH.
    + rewrite advance_advance. f_equal. lia.
    + unfold advance. cbn [loop upd_loop set_now now timers].
      eapply later_than_mono; [| exact Hl]. lia.
Qed.

Lemma idle_add (a b : nat) : forall w : World, idle (a + b) w = idle b (idle a w).
Proof.
  induction a as [|a IH]; intros w; [reflexivity |]. simpl. apply IH.
Qed.

Lemma idle_succ (n : nat) : forall w : World, idle (S n) w = tick (idle n w).
Proof.
  intros w. replace (S n) with (n + 1)%nat by lia. rewrite idle_add. reflexivity.
Qed.

Lemma fire_due_S (fuel : nat) (w : World) :
  fire_due (S fuel) w =
  match take_due (now (loop w)) (timers (loop w)) with
  | None => w
  | Some (x, rest) =>
      fire_due fuel (dispatch (run_callback (cb x)) (upd_loop (set_timers rest) w))
  end.
Proof. reflexivity. Qed.

(** The tick at which exactly one pending timer is due runs its callback
    and nothing else, provided no timer is due when the callback returns
    (its dialogs, if any, dismissed). *)
Lemma tick_single (w : World) (l1 : list timer) (x : timer) (l2 : list timer) :
  timers (loop w) = l1 ++ x :: l2 ->
  due x <= now (loop w) + 1 ->
  later_than (now (loop w) + 1) (l1 ++ l2) ->
  let w1 := dispatch (run_callback (cb x))
              (upd_loop (fun l => mkLoop (now l + 1) (l1 ++ l2) (next_timer l)) w) in
  later_than (now (loop w1)) (timers (loop w1)) ->
  tick w = w1.
Proof.
  intros Hts Hx Hl w1 Hl1. unfold tick. cbv zeta.
  set (w' := upd_loop (fun l => set_now (now l + 1) l) w).
  assert (Hts' : timers (loop w') = l1 ++ x :: l2) by exact Hts.
  rewrite Hts'. rewrite length_app. cbn [List.length]. rewrite Nat.add_succ_r.
  rewrite fire_due_S, Hts'.
  change (now (loop w')) with (now (loop w) + 1).
  rewrite (take_due_split _ l1 x l2); [| apply later_than_app in Hl; tauto | exact Hx].
  change (upd_loop (set_timers (l1 ++ l2)) w')
    with (upd_loop (fun l => mkLoop (now l + 1) (l1 ++ l2) (next_timer l)) w).
  fold w1. apply fire_due_idle. exact Hl1.
Qed.

Lemma upd_loop_advance (a : Z) (ts : list timer) (w : World) :
  upd_loop (fun l => mkLoop (now l + 1) ts (next_timer l)) (advance a w)
  = upd_loop (fun l => mkLoop (now l + (a + 1)) ts (next_timer l)) w.
Proof.
  unfold advance, upd_loop, set_now. cbn [loop storage page out vars now timers next_timer].
  rewrite Z.add_assoc. reflexivity.
Qed.

(** Waiting for the one timer that is due next: until it is due nothing
    happens, and when it is due its callback runs. *)
Lemma idle_until_due_dialog (w : World) (k : nat) (l1 : list timer) (x : timer)
      (l2 : list timer) :
  timers (loop w) = l1 ++ x :: l2 ->
  due x = now (loop w) + Z.of_nat (S k) ->
  later_than (now (loop w) + Z.of_nat (S k)) (l1 ++ l2) ->
  let w1 := dispatch (run_callback (cb x))
              (upd_loop (fun l => mkLoop (now l + Z.of_nat (S k)) (l1 ++ l2) (next_timer l)) w) in
  later_than (now (loop w1)) (timers (loop w1)) ->
  (forall n, (n <= k)%nat -> idle n w = advance (Z.of_nat n) w) /\
  idle (S k) w = w1.
Proof.
  intros Hts Hx Hl w1 Hl1.
  assert (Hquiet : forall n, (n <= k)%nat -> idle n w = advance (Z.of_nat n) w).
  { intros n Hn. apply idle_quiet. rewrite Hts. apply later_than_app.
    apply later_than_app in Hl as [Ha Hb]. split.
    - eapply later_than_mono; [| exact Ha]. lia.
    - constructor; [lia |]. eapply later_than_mono; [| exact Hb]. lia. }
  split; [exact Hquiet |].
  rewrite idle_succ, (Hquiet k (Nat.le_refl k)).
  assert (Heq : upd_loop (fun l => mkLoop (now l + 1) (l1 ++ l2) (next_timer l))
                  (advance (Z.of_nat k) w)
                = upd_loop (fun l => mkLoop (now l + Z.of_nat (S k)) (l1 ++ l2) (next_timer l)) w).
  { rewrite upd_loop_advance. replace (Z.of_nat k + 1) with (Z.of_nat (S k)) by lia. reflexivity. }
  subst w1. rewrite <- Heq in Hl1 |- *.
  apply tick_single.
  - exact Hts.
  - unfold advance. cbn [loop upd_loop set_now now]. lia.
  - unfold advance. cbn [loop upd_loop set_now now].
    eapply later_than_mono; [| exact Hl]. lia.
  - exact Hl1.
Qed.

(** The same, for a callback that shows no dialog. *)
Lemma idle_until_due (w : World) (k : nat) (l1 : list timer) (x : timer) (l2 : list timer) :
  timers (loop w) = l1 ++ x :: l2 ->
  due x = now (loop w) + Z.of_nat (S k) ->
  later_than (now (loop w) + Z.of_nat (S k)) (l1 ++ l2) ->
  let w1 := dispatch (run_callback (cb x))
              (upd_loop (fun l => mkLoop (now l + Z.of_nat (S k)) (l1 ++ l2) (next_timer l)) w) in
  now (loop w1) = now (loop w) + Z.of_nat (S k) ->
  later_than (now (loop w) + Z.of_nat (S k)) (timers (loop w1)) ->
  (forall n, (n <= k)%nat -> idle n w = advance (Z.of_nat n) w) /\
  idle (S k) w = w1.
Proof.
  intros Hts Hx Hl w1 Hn1 Hl1. apply idle_until_due_dialog; try assumption.
  fold w1. rewrite Hn1. exact Hl1.
Qed.

End Idle.

Section Settled.
Context {json_lib : JSON} {quill_lib : Quill}.

(** A save that reaches the store, on a store that accepts the write: the
    whole of the world it leaves. *)
Lemma performSave_saved w q a :
  quill (vars w) = Some q ->
  (a = true -> trim (delta_text (contents q)) <> EmptyString) ->
  store_fault (storage w) = None ->
  exists w',
    performSave a w = Ok tt w' /\
    (store_items (storage w')
     = <[STORAGE_KEY := JSON_stringify (saveData (contents q) (now (loop w))
                                                (trim (delta_text (contents q))))]>
         (store_items (storage w))) /\
    store_denied (storage w') = None /\
    store_write_fault (storage w') = None /\
    vars w' = vars w /\
    page w' = set_autoSaveStatus (statusMessages St_saved) (page w) /\
    loop w' = mkLoop (if a then now (loop w) else now (loop w) + dialog_ms w)
                (timers (loop w) ++ [mkTimer (next_timer (loop w)) (now (loop w) + 3000)
                                       CbStatusReady])
                (Pos.succ (next_timer (loop w))) /\
    dialogs (out w')
    = dialogs (out w) ++ (if a then [] else [Alert "✅ Document saved successfully!"]) /\
    uncaught (out w') = uncaught (out w) /\
    downloads (out w') = downloads (out w).
Proof.
  intros Hq Ha Hf. unfold store_fault in Hf.
  destruct (store_denied (storage w)) eqn:Hd; [discriminate |].
  pose proof (skip_test_false _ a Ha) as Hskip.
  js_eval. repeat (progress (js_simpl; rewrite ?Hq, ?Hskip, ?Hd, ?Hf)).
  destruct a; js_simpl; (eexists; split; [reflexivity |]); unfold dialog_ms; js_simpl;
    rewrite ?Hd, ?Hf, ?app_nil_r; repeat split.
Qed.

(** X14: the "Saved" status lasts until three seconds after the save, the
    time the success message stays open included.  After a manual save that
    succeeds, the message dismissed after [D] ms, on a page where no other
    timer is due in the meantime, the status line reads "Saved" when the
    handler returns and as long as less than 3000 ms have passed since the
    save; it reads "Ready" once 3000 ms have passed, or at the first
    millisecond after the message is dismissed if that took longer.  The
    reset touches neither the record nor the other timers. *)
Theorem saved_status_lasts_three_seconds :
  forall (w : World) (q : Engine),
    quill (vars w) = Some q ->
    store_fault (storage w) = None ->
    later_than (now (loop w) + Z.max 3000 (dialog_ms w + 1)) (timers (loop w)) ->
    let D := dialog_ms w in
    let w1 := step ClickSave w in
    now (loop w1) = now (loop w) + D /\
    dialogs (out w1) = dialogs (out w) ++ [Alert "✅ Document saved successfully!"] /\
    (forall n : nat, D + Z.of_nat n < 3000 ->
       autoSaveStatus (page (idle n w1)) = "Autosave: ✓ Saved" /\
       now (loop (idle n w1)) = now (loop w) + D + Z.of_nat n) /\
    autoSaveStatus (page w1) = "Autosave: ✓ Saved" /\
    let m := Z.to_nat (Z.max 1 (3000 - D)) in
    autoSaveStatus (page (idle m w1)) = "Autosave: Ready" /\
    now (loop (idle m w1)) = now (loop w) + Z.max 3000 (D + 1) /\
    saved_record (idle m w1) = saved_record w1 /\
    timers (loop (idle m w1)) = timers (loop w).
Proof.
  intros w q Hq Hf Hl D w1. fold D in Hl.
  destruct (performSave_saved w q false Hq)
    as (w' & Hw' & _ & _ & _ & _ & Hp & Hloop & Hdg & _);
    [discriminate | exact Hf |].
  assert (Hw1 : w1 = w').
  { subst w1. simpl step. unfold dispatch, manualSave. rewrite Hw'. reflexivity. }
  clearbody w1. subst w1. fold D in Hloop.
  assert (HD : 0 <= D) by (unfold D, dialog_ms; lia).
  set (x := mkTimer (next_timer (loop w)) (now (loop w) + 3000) CbStatusReady).
  assert (Hts : timers (loop w') = timers (loop w) ++ x :: []) by (rewrite Hloop; reflexivity).
  assert (Hn : now (loop w') = now (loop w) + D) by (rewrite Hloop; reflexivity).
  assert (Hst : autoSaveStatus (page w') = "Autosave: ✓ Saved") by (rewrite Hp; reflexivity).
  split; [exact Hn |]. split; [exact Hdg |].
  assert (Hcb : forall k : Z,
             let w2 := dispatch (run_callback (cb x))
                         (upd_loop (fun l => mkLoop (now l + k) (timers (loop w) ++ [])
                                                    (next_timer l)) w') in
             autoSaveStatus (page w2) = "Autosave: Ready" /\
             now (loop w2) = now (loop w) + D + k /\
             saved_record w2 = saved_record w' /\
             timers (loop w2) = timers (loop w)).
  { intros k.
    cbv [dispatch run_callback cb x updateAutosaveStatus bind modify ret].
    unfold saved_record. js_simpl. rewrite app_nil_r, Hn. repeat split. }
  destruct (Z_lt_le_dec D 3000) as [Hlt | Hge].
  - (* the message is dismissed within the three seconds *)
    assert (Hk : exists k, 3000 - D = Z.of_nat (S k)).
    { exists (Z.to_nat (3000 - D - 1)). lia. }
    destruct Hk as (k & Hk).
    destruct (Hcb (Z.of_nat (S k))) as (Hs2 & Hn2 & Hr2 & Ht2).
    destruct (idle_until_due w' k (timers (loop w)) x [] Hts) as [Hquiet Hfire].
    + rewrite Hn. cbn [due x]. lia.
    + rewrite app_nil_r, Hn. eapply later_than_mono; [| exact Hl]. lia.
    + rewrite Hn2, Hn. reflexivity.
    + rewrite Ht2, Hn. eapply later_than_mono; [| exact Hl]. lia.
    + split; [| split; [exact Hst |]].
      * intros n Hlt'. rewrite Hquiet by lia. unfold advance. js_simpl.
        rewrite Hst, Hn. split; reflexivity.
      * cbv zeta. replace (Z.to_nat (Z.max 1 (3000 - D))) with (S k) by lia.
        rewrite Hfire, Hs2, Hn2, Hr2, Ht2. repeat split. lia.
  - (* the message has stayed open for three seconds or more *)
    destruct (Hcb 1) as (Hs2 & Hn2 & Hr2 & Ht2).
    assert (Hfire : tick w' = dispatch (run_callback (cb x))
                                (upd_loop (fun l => mkLoop (now l + 1) (timers (loop w) ++ [])
                                                           (next_timer l)) w')).
    { apply tick_single.
      - exact Hts.
      - rewrite Hn. cbn [due x]. lia.
      - rewrite app_nil_r, Hn. eapply later_than_mono; [| exact Hl]. lia.
      - rewrite Ht2, Hn2. eapply later_than_mono; [| exact Hl]. lia. }
    split; [| split; [exact Hst |]].
    + intros n Hlt'. lia.
    + cbv zeta. replace (Z.to_nat (Z.max 1 (3000 - D))) with 1%nat by lia.
      change (idle 1 w') with (tick w').
      rewrite Hfire, Hs2, Hn2, Hr2, Ht2. repeat split. lia.
Qed.

End Settled.

(** ** From the keystroke to the stored record *)

#[global] Instance Typing_preorder : PreOrder Typing.
Proof.
  split.
  - intros w. unfold Typing. repeat split; auto.
  - intros w1 w2 w3 (Hs1 & Hq1 & Hd1 & Hu1 & Ht1) (Hs2 & Hq2 & Hd2 & Hu2 & Ht2).
    unfold Typing. repeat split; try congruence. auto.
Qed.

Lemma filter_singleton_split {A} (P : A -> bool) (l : list A) (x : A) :
  List.filter P l = [x] ->
  exists l1 l2, l = l1 ++ x :: l2 /\ List.filter P l1 = [] /\ List.filter P l2 = [].
Proof.
  induction l as [|y l IH]; simpl; [discriminate |].
  destruct (P y) eqn:Hy.
  - intros [= -> Hl]. exists [], l. repeat split. exact Hl.
  - intros Hl. destruct (IH Hl) as (l1 & l2 & -> & H1 & H2).
    exists (y :: l1), l2. repeat split; [| exact H2]. simpl. rewrite Hy. exact H1.
Qed.

Lemma later_than_others (T : Z) (ts : list timer) :
  Forall (fun t => is_autosave_cb (cb t) = false -> T < due t) ts ->
  List.filter (fun t => is_autosave_cb (cb t)) ts = [] ->
  later_than T ts.
Proof.
  unfold later_than. induction 1 as [|t ts Ht _ IH]; simpl; [constructor |].
  destruct (is_autosave_cb (cb t)) eqn:Hc; [discriminate |].
  intros Hnone. constructor; [apply Ht; reflexivity | apply IH, Hnone].
Qed.

Section TypedText.
Context {json_lib : JSON} {quill_lib : Quill}.

Lemma typing_updateWordCount : stable Typing updateWordCount.
Proof.
  intros w. destruct (updateWordCount_only_wordcount w)
    as (Hl & Hs & Hv & Hd & _ & Hu & _).
  unfold Typing, others_later_than. rewrite Hl, Hs, Hv, Hd, Hu. repeat split; auto.
Qed.

Lemma typing_triggerAutosave : stable Typing triggerAutosave.
Proof.
  intros w. destruct (isAutosaveEnabled (vars w)) eqn:He.
  2:{ rewrite triggerAutosave_disabled by exact He. reflexivity. }
  assert (Hw : exists w',
             triggerAutosave w = Ok tt w' /\
             storage w' = storage w /\ quill (vars w') = quill (vars w) /\
             out w' = out w /\
             timers (loop w')
             = List.filter (kept (autosaveTimer (vars w))) (timers (loop w))
               ++ [mkTimer (next_timer (loop w)) (now (loop w) + AUTOSAVE_DELAY)
                     CbPerformAutosave]).
  { js_eval. rewrite He. js_simpl.
    destruct (autosaveTimer (vars w)); js_simpl; eexists; (split; [reflexivity |]);
      js_simpl; repeat split.
    rewrite filter_kept_None. reflexivity. }
  destruct Hw as (w' & -> & Hs & Hq & Ho & Ht). simpl.
  unfold Typing, others_later_than. rewrite Hs, Hq, Ho, Ht. repeat split.
  intros T HT. apply Forall_app. split.
  - apply Forall_forall. intros t Hin.
    apply list_elem_of_In, List.filter_In in Hin as [Hin _].
    rewrite Forall_forall in HT. apply HT, list_elem_of_In, Hin.
  - constructor; [| constructor]. simpl. discriminate.
Qed.

Lemma typing_run_listeners src ls : stable Typing (run_listeners src ls).
Proof.
  induction ls as [|l ls IH]; simpl; [rule stable_ret |].
  rule stable_bind; [| intros _; exact IH].
  destruct l; simpl; [apply typing_updateWordCount |].
  destruct src; [apply typing_triggerAutosave | rule stable_ret].
Qed.

(** A change made by the user, seen from the listeners: the editor already
    holds the new content. *)
Lemma user_edit_typed d w q :
  quill (vars w) = Some q ->
  exists q2,
    contents q2 = d /\
    step (UserEdit d) w =
    world_of (run_listeners SrcUser (listeners q) (upd_vars (set_quill (Some q2)) w)).
Proof.
  intros Hq. simpl step. rewrite Hq. unfold dispatch, engine_change.
  cbv [bind the_quill get Date_now ret]. rewrite Hq. cbv [put_quill modify].
  assert (Hls : listeners (history_record (now (loop w)) SrcUser q) = listeners q).
  { unfold history_record. destruct (_ && _); reflexivity. }
  rewrite Hls.
  match goal with
  | |- context [run_listeners ?s ?ls (upd_vars (set_quill (Some ?q0)) w)] =>
      exists q0; split; [reflexivity |];
      destruct (run_listeners_returns s ls (upd_vars (set_quill (Some q0)) w)) as (w' & Hw');
      rewrite Hw'; reflexivity
  end.
Qed.

(** X15: what the user typed is in the store two seconds later.  On a page
    the scripts have brought about, with autosave enabled, its listener
    attached, a store that accepts writes and no other timer due in the
    meantime, a change by the user to a document with text leaves the store
    alone for 1999 ms and, at 2000 ms, has put the Save Record of exactly that
    document under the fixed key: the serialised object with the content of
    the editor, the time of the save, the version "1.0" and the number of
    words of the text (its maximal runs of characters that are not white
    space).  The status reads "Saved", and no dialog was shown. *)
Theorem typed_text_is_saved :
  forall (w : World) (q : Engine) (d : Delta),
    reachable w ->
    quill (vars w) = Some q ->
    In AutosaveListener (listeners q) ->
    isAutosaveEnabled (vars w) = true ->
    store_fault (storage w) = None ->
    trim (delta_text d) <> EmptyString ->
    others_later_than (now (loop w) + 2000) w ->
    let w1 := step (UserEdit d) w in
    (forall n : nat, (n < 2000)%nat ->
       storage (idle n w1) = storage w /\ document (idle n w1) = Some d) /\
    let w2 := idle 2000 w1 in
    saved_record w2
    = Some (JSON_stringify
              (JObj [("content", JObj [("ops", JArr d)]);
                     ("timestamp", JNum (now (loop w) + 2000));
                     ("version", JStr "1.0");
                     ("wordCount", JNum (Z.of_nat (word_runs (delta_text d))))])) /\
    document w2 = Some d /\
    autoSaveStatus (page w2) = "Autosave: ✓ Saved" /\
    dialogs (out w2) = dialogs (out w) /\
    uncaught (out w2) = uncaught (out w).
Proof.
  intros w q d Hr Hq Hin He Hf Htext Hothers w1.
  pose proof (reachable_timer_handle_ok w Hr) as Hok.
  destruct (user_edit_typed d w q Hq) as (q2 & Hc2 & Hw1).
  set (wp := upd_vars (set_quill (Some q2)) w) in Hw1.
  fold w1 in Hw1.
  (* the world the listeners leave *)
  pose proof (run_listeners_arms (listeners q) wp Hin He Hok) as Harm.
  pose proof (run_listeners_Rearm SrcUser (listeners q) wp) as (Hn & _).
  pose proof (typing_run_listeners SrcUser (listeners q) wp) as (Hs & Hq1 & Hd & Hu & Ht).
  rewrite <- Hw1 in Harm, Hn, Hs, Hq1, Hd, Hu, Ht.
  change (now (loop wp)) with (now (loop w)) in Harm, Hn.
  change (storage wp) with (storage w) in Hs.
  change (quill (vars wp)) with (Some q2) in Hq1.
  change (dialogs (out wp)) with (dialogs (out w)) in Hd.
  change (uncaught (out wp)) with (uncaught (out w)) in Hu.
  specialize (Ht (now (loop w) + 2000) Hothers).
  destruct Harm as (id & _ & Hx).
  change (now (loop w) + AUTOSAVE_DELAY) with (now (loop w) + 2000) in Hx.
  set (x := mkTimer id (now (loop w) + 2000) CbPerformAutosave) in Hx.
  destruct (filter_singleton_split _ _ _ Hx) as (l1 & l2 & Hts & Hf1 & Hf2).
  assert (Hlater : later_than (now (loop w1) + Z.of_nat 2000) (l1 ++ l2)).
  { rewrite Hn. unfold others_later_than in Ht. rewrite Hts in Ht.
    apply Forall_app in Ht as [Ha Hb]. inversion Hb as [|? ? _ Hb']; subst.
    apply later_than_app. split; apply later_than_others; assumption. }
  (* the save the timer runs *)
  set (w0 := upd_loop (fun l => mkLoop (now l + Z.of_nat 2000) (l1 ++ l2) (next_timer l)) w1).
  assert (Hq0 : quill (vars w0) = Some q2) by exact Hq1.
  assert (Hf0 : store_fault (storage w0) = None).
  { unfold store_fault. change (storage w0) with (storage w1). rewrite Hs. exact Hf. }
  destruct (performSave_saved w0 q2 true Hq0) as
    (w2 & Hw2 & Hitems & _ & _ & Hv2 & Hp2 & Hl2 & Hd2 & Hu2 & _);
    [intros _; rewrite Hc2; exact Htext | exact Hf0 |].
  assert (Hfire : dispatch (run_callback (cb x)) w0 = w2).
  { unfold dispatch. simpl run_callback. rewrite Hw2. reflexivity. }
  destruct (idle_until_due w1 1999 l1 x l2 Hts) as [Hquiet Hlast].
  - rewrite Hn. reflexivity.
  - exact Hlater.
  - fold w0. rewrite Hfire, Hl2. reflexivity.
  - fold w0. rewrite Hfire, Hl2. cbn [timers]. apply later_than_app. split.
    + exact Hlater.
    + constructor; [| constructor]. cbn [due now loop w0 upd_loop]. lia.
  - split.
    + intros n Hlt. rewrite Hquiet by lia. unfold advance, document. js_simpl.
      rewrite Hs, Hq1. cbn [option_map]. rewrite Hc2. split; reflexivity.
    + fold w0 in Hlast. rewrite Hfire in Hlast. cbv zeta. rewrite Hlast.
      unfold saved_record, document. rewrite Hitems, Hv2, Hp2, Hd2, Hu2.
      change (vars w0) with (vars w1). change (storage w0) with (storage w1).
      change (out w0) with (out w1). rewrite Hq1. cbn [option_map].
      rewrite Hc2, Hd, Hu, app_nil_r.
      split.
      * rewrite lookup_insert_eq. change (now (loop w0)) with (now (loop w1) + Z.of_nat 2000).
        rewrite Hn, <- words_counted. reflexivity.
      * repeat split.
Qed.

End TypedText.

(** ** An export from the click to the download *)

Lemma without_fresh (overlay wrapper : nat) (b : list nat) :
  ~ In overlay b -> ~ In wrapper b ->
  without overlay wrapper (b ++ [overlay; wrapper]) = b.
Proof.
  intros Ho Hw. unfold without. rewrite List.filter_app. simpl.
  rewrite !Nat.eqb_refl. simpl. rewrite andb_false_r. rewrite app_nil_r.
  induction b as [|n b IH]; simpl; [reflexivity |].
  assert (Hn1 : Nat.eqb n wrapper = false).
  { apply Nat.eqb_neq. intros ->. apply Hw. left. reflexivity. }
  assert (Hn2 : Nat.eqb n overlay = false).
  { apply Nat.eqb_neq. intros ->. apply Ho. left. reflexivity. }
  rewrite Hn1, Hn2. simpl. rewrite IH; [reflexivity | |]; intros Hin; [apply Ho | apply Hw];
    right; exact Hin.
Qed.

Lemma nodes_known_fresh (w : World) :
  nodes_known w ->
  ~ In (next_node (page w)) (body (page w)) /\ ~ In (S (next_node (page w))) (body (page w)).
Proof.
  unfold nodes_known. intros Hk. rewrite Forall_forall in Hk.
  split; intros Hin; apply list_elem_of_In, Hk in Hin; lia.
Qed.

Section ExportRun.
Context {json_lib : JSON} {quill_lib : Quill}.

(** The handler resumed after the rendering pause. *)
Lemma export_rendered_fields o ov wr w :
  let w' := dispatch (export_rendered o ov wr) w in
  loop w' = mkLoop (now (loop w))
              (timers (loop w) ++ [mkTimer (next_timer (loop w))
                                     (now (loop w) + Z.pos (settle_ms o))
                                     (CbExportCanvas o ov wr)])
              (Pos.succ (next_timer (loop w))) /\
  page w' = page w /\ storage w' = storage w /\ vars w' = vars w /\
  dialogs (out w') = dialogs (out w) /\ downloads (out w') = downloads (out w) /\
  uncaught (out w') = uncaught (out w) /\ dwell w' = dwell w.
Proof.
  cbv [dispatch export_rendered console_log setTimeout bind modify ret]. js_simpl.
  repeat split.
Qed.



(** From the click to the moment the rasteriser has settled: the page is
    busy for 1000 ms and the time the rasteriser takes, and nothing but the
    two pauses happens. *)
Lemma export_reaches_canvas (w : World) (q : Engine) (o : render_oracle) :
  quill (vars w) = Some q ->
  trim (delta_text (contents q)) <> EmptyString ->
  exportBtn_disabled (page w) = false ->
  later_than (now (loop w) + 1000 + Z.pos (settle_ms o)) (timers (loop w)) ->
  let ov := next_node (page w) in
  let wr := S (next_node (page w)) in
  let w1 := step (ClickExport o) w in
  exists wc : World,
    now (loop wc) = now (loop w) + 1000 + Z.pos (settle_ms o) /\
    timers (loop wc) = timers (loop w) /\
    body (page wc) = body (page w) ++ [ov; wr] /\
    exportBtn_disabled (page wc) = true /\
    storage wc = storage w /\ vars wc = vars w /\
    dialogs (out wc) = dialogs (out w) /\
    downloads (out wc) = downloads (out w) /\
    uncaught (out wc) = uncaught (out w) /\
    dwell wc = dwell w /\
    let w3 := dispatch (export_canvas o ov wr) wc in
    (later_than (now (loop w3)) (timers (loop w3)) ->
     (forall n : nat, (n < 1000 + Pos.to_nat (settle_ms o))%nat ->
        exportBtn_disabled (page (idle n w1)) = true) /\
     idle (1000 + Pos.to_nat (settle_ms o)) w1 = w3).
Proof.
  intros Hq Ht Hen Hl ov wr w1.
  destruct (Pos2Nat.is_succ (settle_ms o)) as (ks & Hks).
  assert (Hsettle : Z.pos (settle_ms o) = Z.of_nat (S ks)).
  { rewrite <- Hks. symmetry. apply positive_nat_Z. }
  (* the click *)
  destruct (export_click_starts o w q Hq Ht)
    as (w' & Hw' & Hdis1 & _ & Hbody1 & _ & _ & Hloop1 & Hst1 & Hv1 & Hdl1 & Hdg1 & Hun1 & _
        & Hdw1).
  assert (Hw1 : w1 = w').
  { subst w1. simpl step. rewrite Hen. unfold dispatch. rewrite Hw'. reflexivity. }
  clearbody w1. subst w'. fold ov wr in Hbody1, Hloop1.
  set (x1 := mkTimer (next_timer (loop w)) (now (loop w) + 1000) (CbExportRendered o ov wr))
    in Hloop1.
  assert (Hn1 : now (loop w1) = now (loop w)) by (rewrite Hloop1; reflexivity).
  assert (Hts1 : timers (loop w1) = timers (loop w) ++ x1 :: []) by (rewrite Hloop1; reflexivity).
  (* the rendering pause *)
  set (w1' := upd_loop (fun l => mkLoop (now l + Z.of_nat 1000) (timers (loop w) ++ [])
                                   (next_timer l)) w1).
  destruct (export_rendered_fields o ov wr w1')
    as (Hloop2 & Hp2 & Hst2 & Hv2 & Hdg2 & Hdl2 & Hun2 & Hdw2).
  set (w2 := dispatch (export_rendered o ov wr) w1') in *.
  assert (Hlater0 : later_than (now (loop w) + 1000 + Z.pos (settle_ms o))
                      (timers (loop w) ++ [])) by (rewrite app_nil_r; exact Hl).
  destruct (idle_until_due w1 999 (timers (loop w)) x1 [] Hts1) as [Hquiet1 Hfire1].
  { rewrite Hn1. reflexivity. }
  { rewrite Hn1. eapply later_than_mono; [| exact Hlater0]. lia. }
  { change (run_callback (cb x1)) with (export_rendered o ov wr). fold w1' w2.
    rewrite Hloop2. reflexivity. }
  { change (run_callback (cb x1)) with (export_rendered o ov wr). fold w1' w2.
    rewrite Hloop2. cbn [timers]. apply later_than_app. split.
    - rewrite Hn1. eapply later_than_mono; [| exact Hlater0]. lia.
    - constructor; [| constructor]. cbn [due now loop w1' upd_loop]. lia. }
  change (run_callback (cb x1)) with (export_rendered o ov wr) in Hfire1.
  fold w1' w2 in Hfire1.
  set (x2 := mkTimer (next_timer (loop w1')) (now (loop w1') + Z.pos (settle_ms o))
               (CbExportCanvas o ov wr)) in Hloop2.
  assert (Hn2 : now (loop w2) = now (loop w) + 1000).
  { rewrite Hloop2. cbn [now loop w1' upd_loop]. rewrite Hn1. reflexivity. }
  assert (Hts2 : timers (loop w2) = timers (loop w) ++ x2 :: []).
  { rewrite Hloop2. cbn [timers loop w1' upd_loop]. rewrite app_nil_r. reflexivity. }
  assert (Hdis2 : exportBtn_disabled (page w2) = true).
  { rewrite Hp2. exact Hdis1. }
  (* the rasteriser *)
  set (w2' := upd_loop (fun l => mkLoop (now l + Z.of_nat (S ks)) (timers (loop w) ++ [])
                                   (next_timer l)) w2).
  exists w2'.
  split. { cbn [now loop w2' upd_loop]. rewrite Hn2. lia. }
  split. { cbn [timers loop w2' upd_loop]. apply app_nil_r. }
  split. { change (page w2') with (page w2). rewrite Hp2. exact Hbody1. }
  split. { exact Hdis2. }
  split. { change (storage w2') with (storage w2). rewrite Hst2. exact Hst1. }
  split. { change (vars w2') with (vars w2). rewrite Hv2. exact Hv1. }
  split. { change (out w2') with (out w2). rewrite Hdg2. exact Hdg1. }
  split. { change (out w2') with (out w2). rewrite Hdl2. exact Hdl1. }
  split. { change (out w2') with (out w2). rewrite Hun2. exact Hun1. }
  split. { change (dwell w2') with (dwell w2). rewrite Hdw2. exact Hdw1. }
  intros w3 Hl3.
  destruct (idle_until_due_dialog w2 ks (timers (loop w)) x2 [] Hts2) as [Hquiet2 Hfire2].
  { rewrite Hn2. cbn [due x2 now loop w1' upd_loop]. rewrite Hn1. lia. }
  { rewrite Hn2. eapply later_than_mono; [| exact Hlater0]. lia. }
  { change (run_callback (cb x2)) with (export_canvas o ov wr). fold w2' w3. exact Hl3. }
  change (run_callback (cb x2)) with (export_canvas o ov wr) in Hfire2.
  fold w2' w3 in Hfire2.
  split.
  - intros n Hlt. rewrite Hks in Hlt.
    destruct (Nat.le_gt_cases n 999) as [Ha1 | Ha1].
    + rewrite (Hquiet1 n Ha1). exact Hdis1.
    + replace n with (1000 + (n - 1000))%nat by lia. rewrite idle_add, Hfire1.
      rewrite Hquiet2 by lia. exact Hdis2.
  - rewrite Hks, idle_add, Hfire1. exact Hfire2.
Qed.


End ExportRun.

(** ** The debouncer of the word count *)

Section WordCountDebounce.
Context {json_lib : JSON} {quill_lib : Quill}.

(** One call of [debouncedWordCountUpdate]. *)
Lemma debouncedWordCountUpdate_fields w :
  exists w',
    debouncedWordCountUpdate w = Ok tt w' /\
    loop w' = mkLoop (now (loop w))
                (List.filter (kept (wordCountTimer (vars w))) (timers (loop w))
                 ++ [mkTimer (next_timer (loop w)) (now (loop w) + 300) CbWordCount])
                (Pos.succ (next_timer (loop w))) /\
    wordCountTimer (vars w') = Some (next_timer (loop w)) /\
    quill (vars w') = quill (vars w) /\
    out w' = out w /\ page w' = page w /\ storage w' = storage w.
Proof.
  cbv [debouncedWordCountUpdate clear_if_set clearTimeout setTimeout bind get modify ret].
  destruct (wordCountTimer (vars w)) as [id|]; js_simpl.
  - eexists. split; [reflexivity |]. js_simpl. repeat split.
  - eexists. split; [reflexivity |]. js_simpl. rewrite filter_kept_None. repeat split.
Qed.

(** The word count run by the timer. *)
Lemma updateWordCount_fields w q :
  quill (vars w) = Some q ->
  let w' := dispatch updateWordCount w in
  loop w' = loop w /\
  calls (out w') = calls (out w) ++ [(now (loop w), CallUpdateWordCount)] /\
  wordCount (page w') = word_count_text (contents q).
Proof.
  intros Hq. cbv [dispatch updateWordCount bind get modify]. rewrite Hq. js_simpl.
  repeat split.
Qed.

(** X17: [debouncedWordCountUpdate] coalesces a burst.  Two calls less than
    300 ms apart, on a page where no other timer is due in the meantime, run
    the word count once, 300 ms after the second call; before that the count
    is not computed.  (No script calls this function; it is the debouncer the
    source holds for the word count.) *)
Theorem word_count_debouncer_coalesces :
  forall (w : World) (q : Engine) (k : nat),
    quill (vars w) = Some q ->
    (k < 300)%nat ->
    later_than (now (loop w) + Z.of_nat k + 300) (timers (loop w)) ->
    let w1 := world_of (debouncedWordCountUpdate w) in
    let w2 := world_of (debouncedWordCountUpdate (idle k w1)) in
    (forall n : nat, (n <= k)%nat -> wordcount_calls (idle n w1) = wordcount_calls w) /\
    (forall n : nat, (n < 300)%nat -> wordcount_calls (idle n w2) = wordcount_calls w) /\
    wordcount_calls (idle 300 w2)
    = wordcount_calls w ++ [(now (loop w) + Z.of_nat k + 300, CallUpdateWordCount)] /\
    wordCount (page (idle 300 w2)) = word_count_text (contents q).
Proof.
  intros w q k Hq Hk Hl w1 w2.
  (* the first call *)
  destruct (debouncedWordCountUpdate_fields w) as (w1' & Hw1 & Hloop1 & Hh1 & Hq1 & Ho1 & _).
  assert (Ew1 : w1 = w1') by (subst w1; rewrite Hw1; reflexivity).
  clearbody w1. subst w1'. clear Hw1.
  set (F0 := List.filter (kept (wordCountTimer (vars w))) (timers (loop w))) in Hloop1.
  set (t1 := mkTimer (next_timer (loop w)) (now (loop w) + 300) CbWordCount) in Hloop1.
  assert (HF0 : later_than (now (loop w) + Z.of_nat k + 300) F0)
    by (apply later_than_filter, Hl).
  assert (Hquiet1 : forall n, (n <= k)%nat -> idle n w1 = advance (Z.of_nat n) w1).
  { intros n Hn. apply idle_quiet. rewrite Hloop1. cbn [now timers].
    apply later_than_app. split.
    - eapply later_than_mono; [| exact HF0]. lia.
    - constructor; [| constructor]. cbn [due t1]. lia. }
  (* the second call *)
  set (w1k := idle k w1) in *.
  assert (Ew1k : w1k = advance (Z.of_nat k) w1) by (apply Hquiet1; lia).
  destruct (debouncedWordCountUpdate_fields w1k) as (w2' & Hw2 & Hloop2 & _ & Hq2 & Ho2 & _).
  assert (Ew2 : w2 = w2') by (subst w2; rewrite Hw2; reflexivity).
  clearbody w2. subst w2'. clear Hw2.
  rewrite Ew1k in Hloop2, Hq2, Ho2. unfold advance in Hloop2, Hq2, Ho2.
  js_simpl_in Hloop2. js_simpl_in Hq2. js_simpl_in Ho2.
  rewrite Hh1, Hloop1 in Hloop2. cbn [now timers next_timer] in Hloop2.
  rewrite List.filter_app in Hloop2. cbn [List.filter kept tid t1] in Hloop2.
  rewrite Pos.eqb_refl in Hloop2. cbn [negb] in Hloop2. rewrite app_nil_r in Hloop2.
  set (F1 := List.filter (kept (Some (next_timer (loop w)))) F0) in Hloop2.
  set (t2 := mkTimer (Pos.succ (next_timer (loop w))) (now (loop w) + Z.of_nat k + 300)
               CbWordCount) in Hloop2.
  assert (HF1 : later_than (now (loop w) + Z.of_nat k + 300) F1)
    by (apply later_than_filter, HF0).
  assert (Hn2 : now (loop w2) = now (loop w) + Z.of_nat k) by (rewrite Hloop2; reflexivity).
  assert (Hts2 : timers (loop w2) = F1 ++ t2 :: []) by (rewrite Hloop2; reflexivity).
  (* the timer of the second call *)
  set (w2' := upd_loop (fun l => mkLoop (now l + Z.of_nat 300) (F1 ++ []) (next_timer l)) w2).
  assert (Hq2' : quill (vars w2') = Some q).
  { change (vars w2') with (vars w2). rewrite Hq2, Hq1. exact Hq. }
  destruct (updateWordCount_fields w2' q Hq2') as (Hloop3 & Hc3 & Hwc3).
  set (w3 := dispatch updateWordCount w2') in *.
  destruct (idle_until_due w2 299 F1 t2 [] Hts2) as [Hquiet2 Hfire2].
  { rewrite Hn2. cbn [due t2]. lia. }
  { rewrite app_nil_r, Hn2. eapply later_than_mono; [| exact HF1]. lia. }
  { change (run_callback (cb t2)) with updateWordCount. fold w2' w3.
    rewrite Hloop3. reflexivity. }
  { change (run_callback (cb t2)) with updateWordCount. fold w2' w3.
    rewrite Hloop3. cbn [timers loop w2' upd_loop]. rewrite app_nil_r, Hn2.
    eapply later_than_mono; [| exact HF1]. lia. }
  change (run_callback (cb t2)) with updateWordCount in Hfire2. fold w2' w3 in Hfire2.
  assert (Hcalls2 : calls (out w2) = calls (out w)) by (rewrite Ho2, Ho1; reflexivity).
  split; [| split; [| split]].
  - intros n Hn. rewrite (Hquiet1 n Hn). unfold wordcount_calls, advance. js_simpl.
    rewrite Ho1. reflexivity.
  - intros n Hn. rewrite Hquiet2 by lia. unfold wordcount_calls, advance. js_simpl.
    rewrite Hcalls2. reflexivity.
  - rewrite Hfire2. unfold wordcount_calls. rewrite Hc3.
    change (out w2') with (out w2). rewrite Hcalls2, List.filter_app.
    cbn [List.filter snd]. change (now (loop w2')) with (now (loop w2) + Z.of_nat 300).
    rewrite Hn2. reflexivity.
  - rewrite Hfire2. exact Hwc3.
Qed.

End WordCountDebounce.

(** ** Claim C8: an export that does not complete *)

Section FailedExport.
Context {json_lib : JSON} {quill_lib : Quill}.

(** C8: an export that does not complete leaves nothing behind.  On a
    document whose trimmed text is empty, the click shows the blocking
    message and touches neither the page nor the timers: no file, no overlay,
    no wrapper, the button as it was.  On a document with text, when a
    library call of the rasterisation or the assembly throws, the run from
    the click (1000 ms, then the time the rasteriser takes, no other timer
    being due before the message is dismissed) keeps the button disabled
    while it lasts and ends with the message carrying the text of the error,
    the children of the body those before the click (neither the overlay nor
    the wrapper among them), the button enabled and labelled as before, no
    file, nothing uncaught and no timer left.  Whatever the state of the page,
    the failing stage and the tear-down take the overlay and the wrapper out
    of the body and enable the button, also when a removal fails. *)
Theorem failed_export_leaves_no_residue :
  (forall (w : World) (q : Engine) (o : render_oracle),
     quill (vars w) = Some q ->
     trim (delta_text (contents q)) = EmptyString ->
     exportBtn_disabled (page w) = false ->
     let w' := step (ClickExport o) w in
     dialogs (out w')
     = dialogs (out w) ++ [Alert "⚠️ Document is empty. Please add content first."] /\
     downloads (out w') = downloads (out w) /\
     uncaught (out w') = uncaught (out w) /\
     page w' = page w /\ timers (loop w') = timers (loop w) /\
     storage w' = storage w /\ vars w' = vars w) /\
  (forall (w : World) (q : Engine) (o : render_oracle) (e : js_error),
     quill (vars w) = Some q ->
     trim (delta_text (contents q)) <> EmptyString ->
     exportBtn_disabled (page w) = false ->
     nodes_known w ->
     export_failure o = Some e ->
     later_than (now (loop w) + 1000 + Z.pos (settle_ms o) + dialog_ms w) (timers (loop w)) ->
     let total := (1000 + Pos.to_nat (settle_ms o))%nat in
     let w1 := step (ClickExport o) w in
     (forall n : nat, (n < total)%nat -> exportBtn_disabled (page (idle n w1)) = true) /\
     let w2 := idle total w1 in
     body (page w2) = body (page w) /\
     ~ In (next_node (page w)) (body (page w2)) /\
     ~ In (S (next_node (page w))) (body (page w2)) /\
     exportBtn_disabled (page w2) = false /\
     exportBtn_text (page w2) = "📄 PDF" /\
     dialogs (out w2) = dialogs (out w) ++ [Alert ("Export failed: " +:+ message e)] /\
     downloads (out w2) = downloads (out w) /\
     uncaught (out w2) = uncaught (out w) /\
     timers (loop w2) = timers (loop w) /\
     storage w2 = storage w /\ vars w2 = vars w) /\
  (forall (w : World) (o : render_oracle) (overlay wrapper : nat) (e : js_error),
     export_failure o = Some e ->
     let w' := dispatch (export_canvas o overlay wrapper) w in
     body (page w') = without overlay wrapper (body (page w)) /\
     ~ In overlay (body (page w')) /\ ~ In wrapper (body (page w')) /\
     exportBtn_disabled (page w') = false /\
     exportBtn_text (page w') = "📄 PDF" /\
     dialogs (out w') = dialogs (out w) ++ [Alert ("Export failed: " +:+ message e)] /\
     downloads (out w') = downloads (out w) /\
     uncaught (out w') = uncaught (out w) /\
     timers (loop w') = timers (loop w)) /\
  (forall (w : World) (overlay wrapper : nat),
     let w' := dispatch (export_cleanup overlay wrapper) w in
     body (page w') = without overlay wrapper (body (page w)) /\
     exportBtn_disabled (page w') = false /\
     downloads (out w') = downloads (out w) /\
     uncaught (out w') = uncaught (out w)).
Proof.
  destruct export_stages_leave_no_residue as (Hblank & Hstage & Hclean).
  split; [exact Hblank |]. split; [| split; [exact Hstage | exact Hclean]].
  intros w q o e Hq Ht Hen Hk He Hl total w1.
  assert (HD : 0 <= dialog_ms w) by (unfold dialog_ms; lia).
  set (ov := next_node (page w)). set (wr := S (next_node (page w))).
  destruct (export_reaches_canvas w q o Hq Ht Hen) as
    (wc & Hnc & Htc & Hbc & _ & Hsc & Hvc & Hdgc & Hdlc & Hunc & Hdwc & Hrun).
  { eapply later_than_mono; [| exact Hl]. lia. }
  fold ov wr in Hbc, Hrun. cbv zeta in Hrun. fold w1 total in Hrun.
  destruct (export_canvas_failed_fields o ov wr e wc He)
    as (Hl3 & Hb3 & Hdis3 & Htxt3 & Hs3 & Hv3 & Hdg3 & Hdl3 & Hun3).
  set (w3 := dispatch (export_canvas o ov wr) wc) in *.
  assert (Hms : dialog_ms wc = dialog_ms w).
  { unfold dialog_ms. rewrite Hdwc, Hdgc. reflexivity. }
  assert (Hlater3 : later_than (now (loop w3)) (timers (loop w3))).
  { rewrite Hl3. cbn [now timers set_now]. rewrite Htc, Hnc, Hms. exact Hl. }
  destruct (Hrun Hlater3) as [Hbusy Hend].
  split; [exact Hbusy |].
  cbv zeta. rewrite Hend. change (dispatch (export_canvas o ov (S ov)) wc) with w3.
  destruct (nodes_known_fresh w Hk) as [Hfo Hfw].
  assert (Hbody : body (page w3) = body (page w)).
  { rewrite Hb3, Hbc. apply without_fresh; assumption. }
  rewrite Hbody, Hdis3, Htxt3, Hdg3, Hdl3, Hun3, Hl3, Hs3, Hv3, Hdgc, Hdlc, Hunc, Hsc, Hvc.
  cbn [timers set_now]. rewrite Htc. repeat split; assumption.
Qed.

End FailedExport.

(** ** Whole sessions: the autosave switch *)

#[global] Instance SameSwitch_preorder : PreOrder SameSwitch.
Proof.
  split.
  - intros w. reflexivity.
  - intros w1 w2 w3 H1 H2. unfold SameSwitch in *. congruence.
Qed.

Lemma Quiet_SameSwitch K w w' : Quiet K w w' -> SameSwitch w w'.
Proof. intros (_ & _ & _ & He & _). exact He. Qed.

Section Switch.
Context {json_lib : JSON} {quill_lib : Quill}.

Lemma switch_triggerAutosave : stable SameSwitch triggerAutosave.
Proof. intros w. destruct (triggerAutosave_Rearm w) as (_ & _ & He & _). exact He. Qed.

Lemma switch_run_callback c : stable SameSwitch (run_callback c).
Proof.
  destruct (is_autosave_cb c) eqn:Ha.
  - rewrite (is_autosave_cb_true c Ha). intros w.
    pose proof (performSave_auto_fires w) as Q. unfold dispatch in Q. simpl run_callback.
    destruct (performSave true w) as [[] w'|e w']; simpl in *;
      apply Quiet_SameSwitch in Q; exact Q.
  - destruct (is_trigger_cb c) eqn:Ht.
    + destruct c; try discriminate. simpl. apply switch_triggerAutosave.
    + eapply stable_mono; [| apply quiet_run_callback].
      * intros w w'. apply Quiet_SameSwitch.
      * unfold quiet_cb. rewrite Ha, Ht. reflexivity.
Qed.

Lemma switch_run es w : SameSwitch w (run es w).
Proof.
  apply session_run; try typeclasses eauto.
  - intros w0 w'. apply Quiet_SameSwitch.
  - apply switch_triggerAutosave.
  - intros w0 x rest _. transitivity (upd_loop (set_timers rest) w0); [reflexivity |].
    apply (stable_dispatch SameSwitch); [apply switch_run_callback |].
    intros e w1. reflexivity.
  - intros w0. reflexivity.
  - intros w0 d f. reflexivity.
  - intros w0 f. reflexivity.
Qed.

Lemma switch_page_ready clear_ok w :
  SameSwitch w (dispatch (console_log "✅ Export listeners attached")
                  (dispatch (storage_ready clear_ok) (dispatch editor_ready w))).
Proof.
  apply session_page_ready; try typeclasses eauto. intros w0 w'. apply Quiet_SameSwitch.
Qed.

(** X18: the autosave switch is set once.  After the page load, and after
    every later sequence of events, [isAutosaveEnabled] is true exactly when
    the store accepted the test write at the time storage.js was loaded:
    nothing switches autosave on later, and nothing switches it off, not even
    a store that starts to fail. *)
Theorem autosave_switch_is_set_once :
  forall (t0 : Z) (s : Storage) (clear_ok : bool) (es : list event),
    isAutosaveEnabled (vars (run es (page_load clear_ok (initial_world t0 s))))
    = match store_fault s with
      | None => true
      | Some _ => false
      end.
Proof.
  intros t0 s ok es. rewrite (switch_run es). unfold page_load.
  set (w1 := dispatch (console_log "📝 Editor module loaded successfully") (initial_world t0 s)).
  rewrite (switch_page_ready ok).
  destruct (store_fault s) as [e|] eqn:Hf.
  - destruct (storage_module_load_unavailable w1 e Hf) as (w2 & Hw2 & Hflag & _).
    unfold dispatch. rewrite Hw2. exact Hflag.
  - destruct (storage_module_load_available w1 Hf) as (w2 & Hw2 & _ & _ & _ & Hv & _).
    unfold dispatch. rewrite Hw2, Hv. reflexivity.
Qed.

End Switch.

(** ** Whole sessions: what the handlers keep *)

(** The scripts, unfolded down to the primitives of the monad. *)
Ltac unfold_scripts :=
  cbv [performSave performSave_body manualSave handleSaveError updateAutosaveStatus
       triggerAutosave loadSavedDocument handleLoadError manualLoad parse
       createNewDocument undoChange redoChange history_undo history_redo history_clear
       quill_setText quill_setContents engine_change quill_getContents quill_getText
       the_quill put_quill quill_on updateWordCount initializeEditor
       setupStorageListeners storage_start storage_init insertHtmlIntoQuill importDocx
       toggleDarkMode checkDarkModePreference
       localStorage_getItem localStorage_setItem localStorage_removeItem
       alert confirm open_dialog console_log console_warn console_error Date_now
       clearTimeout clear_if_set appendChild has_parent removeChild
       remove_if_attached set_exportBtn export_catch export_click export_rendered
       export_canvas export_cleanup run_callback run_listener].

(** One step of the decomposition of a goal [stable R c]; [leaf] closes the
    goals on a primitive that changes the world. *)
Ltac frame_step leaf :=
  first
    [ rule stable_ret
    | rule stable_throw
    | rule stable_get
    | rule stable_lift_result
    | rule stable_throw_if
    | rule stable_bind; [| intros ?]
    | rule stable_try_catch; [| intros ?]
    | match goal with
      | |- stable _ (match ?x with _ => _ end) => destruct x
      end
    | solve [leaf] ].

Ltac frame_go leaf := unfold_scripts; repeat (frame_step leaf).

(** A relation that holds across every handler and every callback holds
    across every event. *)
Section Handlers.
Context {json_lib : JSON} {quill_lib : Quill}.
Variable R : World -> World -> Prop.
Context {R_pre : PreOrder R}.
Hypothesis R_edit : forall d, stable R (engine_change d SrcUser).
Hypothesis R_new : forall ok, stable R (createNewDocument ok).
Hypothesis R_undo : stable R undoChange.
Hypothesis R_redo : stable R redoChange.
Hypothesis R_save : stable R manualSave.
Hypothesis R_load : forall ok clear_ok, stable R (manualLoad ok clear_ok).
Hypothesis R_export : forall o, stable R (export_click o).
Hypothesis R_dark : stable R toggleDarkMode.
Hypothesis R_import : forall d, stable R (importDocx d).
Hypothesis R_callback : forall c, stable R (run_callback c).
Hypothesis R_uncaught : forall e w, R w (upd_out (add_uncaught e) w).
Hypothesis R_take : forall w rest, R w (upd_loop (set_timers rest) w).
Hypothesis R_clock : forall w, R w (upd_loop (fun l => set_now (now l + 1) l) w).
Hypothesis R_storage : forall w d f,
  R w (upd_storage (fun s => mkStorage (store_items s) d f) w).
Hypothesis R_dwell : forall w f, R w (set_dwell f w).

Lemma handlers_dispatch c w : stable R c -> R w (dispatch c w).
Proof. intros Hc. apply stable_dispatch; [exact R_pre | exact Hc | exact R_uncaught]. Qed.

Lemma handlers_fire_due fuel : forall w, R w (fire_due fuel w).
Proof.
  induction fuel as [|fuel IH]; intros w; simpl; [reflexivity |].
  destruct (take_due (now (loop w)) (timers (loop w))) as [[x rest]|]; [| reflexivity].
  etransitivity; [apply (R_take w rest) |].
  etransitivity; [apply handlers_dispatch, R_callback | apply IH].
Qed.

Lemma handlers_step e w : R w (step e w).
Proof.
  destruct e; simpl.
  - unfold tick. etransitivity; [apply R_clock | apply handlers_fire_due].
  - destruct (quill (vars w)); [apply handlers_dispatch, R_edit | reflexivity].
  - apply handlers_dispatch, R_new.
  - apply handlers_dispatch, R_undo.
  - apply handlers_dispatch, R_redo.
  - apply handlers_dispatch, R_save.
  - apply handlers_dispatch, R_load.
  - destruct (exportBtn_disabled (page w)); [reflexivity | apply handlers_dispatch, R_export].
  - apply handlers_dispatch, R_dark.
  - apply handlers_dispatch, R_import.
  - apply R_storage.
  - apply R_dwell.
Qed.

Lemma handlers_run es : forall w, R w (run es w).
Proof.
  induction es as [|e es IH]; intros w; simpl; [reflexivity |].
  transitivity (step e w); [apply handlers_step | apply IH].
Qed.

End Handlers.

(** *** The keys of the store *)

#[global] Instance kept_keys_preorder P : PreOrder (kept_keys P).
Proof.
  split.
  - intros w k _. reflexivity.
  - intros w1 w2 w3 H1 H2 k Hk. rewrite (H2 k Hk). apply H1, Hk.
Qed.

Section KeptKeys.
Context {json_lib : JSON} {quill_lib : Quill}.
Variable P : string -> Prop.

Lemma kept_same w w' : storage w' = storage w -> kept_keys P w w'.
Proof. intros Hs k _. rewrite Hs. reflexivity. Qed.

Lemma kept_insert k v w :
  ~ P k ->
  kept_keys P w (upd_storage (fun s => set_items (<[k := v]> (store_items s)) s) w).
Proof. intros Hk k' Hk'. simpl. apply lookup_insert_ne. intros ->. contradiction. Qed.

Lemma kept_delete k w :
  ~ P k ->
  kept_keys P w (upd_storage (fun s => set_items (delete k (store_items s)) s) w).
Proof. intros Hk k' Hk'. simpl. apply lookup_delete_ne. intros ->. contradiction. Qed.

(** The leaves that leave the store alone, and the writes to keys outside [P]. *)
Ltac keys_leaf :=
  first
    [ rule stable_modify; intros ?; apply kept_same; reflexivity
    | rule stable_modify; intros ?; apply kept_insert; assumption
    | rule stable_modify; intros ?; apply kept_delete; assumption
    | intros ?; apply kept_same; reflexivity
    | match goal with H : _ |- _ => solve [apply H] end ].

Lemma keys_run_listeners src ls : stable (kept_keys P) (run_listeners src ls).
Proof.
  induction ls as [|l ls IH]; simpl run_listeners; [rule stable_ret |].
  rule stable_bind; [| intros _; exact IH].
  destruct l, src; frame_go keys_leaf.
Qed.

Lemma keys_engine_change d src : stable (kept_keys P) (engine_change d src).
Proof. pose proof keys_run_listeners. frame_go keys_leaf. Qed.

Lemma keys_createNewDocument ok : stable (kept_keys P) (createNewDocument ok).
Proof. pose proof keys_run_listeners. frame_go keys_leaf. Qed.

Lemma keys_undoChange : stable (kept_keys P) undoChange.
Proof. pose proof keys_run_listeners. frame_go keys_leaf. Qed.

Lemma keys_redoChange : stable (kept_keys P) redoChange.
Proof. pose proof keys_run_listeners. frame_go keys_leaf. Qed.

Lemma keys_export_click o : stable (kept_keys P) (export_click o).
Proof. frame_go keys_leaf. Qed.

Lemma keys_importDocx d : stable (kept_keys P) (importDocx d).
Proof. pose proof keys_run_listeners. frame_go keys_leaf. Qed.

Lemma keys_toggleDarkMode : ~ P THEME_KEY -> stable (kept_keys P) toggleDarkMode.
Proof. intros Hth. change THEME_KEY with "theme" in Hth. frame_go keys_leaf. Qed.

Hypothesis P_doc : ~ P STORAGE_KEY.

Lemma keys_manualSave : stable (kept_keys P) manualSave.
Proof. frame_go keys_leaf. Qed.

Lemma keys_manualLoad ok clear_ok : stable (kept_keys P) (manualLoad ok clear_ok).
Proof. pose proof keys_run_listeners. frame_go keys_leaf. Qed.

Lemma keys_run_callback c : stable (kept_keys P) (run_callback c).
Proof. pose proof keys_run_listeners. frame_go keys_leaf. Qed.

End KeptKeys.

Section StoreSessions.
Context {json_lib : JSON} {quill_lib : Quill}.

(** X19: once the page is loaded, the scripts write two keys of the store
    and no other.  Whatever the sequence of events, every entry under a key
    other than the one of the document and the one of the theme is after it
    what it was before. *)
Theorem store_keeps_foreign_keys :
  forall (es : list event) (w : World) (k : string),
    k <> STORAGE_KEY -> k <> THEME_KEY ->
    store_items (storage (run es w)) !! k = store_items (storage w) !! k.
Proof.
  intros es w k Hdoc Hth.
  assert (Pd : ~ foreign_key STORAGE_KEY) by (intros [Hk _]; congruence).
  assert (Pt : ~ foreign_key THEME_KEY) by (intros [_ Hk]; congruence).
  assert (Hrun : kept_keys foreign_key w (run es w)).
  { apply handlers_run; try typeclasses eauto.
    - intros d. apply keys_engine_change.
    - intros ok. apply keys_createNewDocument.
    - apply keys_undoChange.
    - apply keys_redoChange.
    - apply keys_manualSave, Pd.
    - intros ok c. apply keys_manualLoad, Pd.
    - intros o. apply keys_export_click.
    - apply keys_toggleDarkMode, Pt.
    - intros d. apply keys_importDocx.
    - intros c. apply keys_run_callback, Pd.
    - intros e w0. apply kept_same. reflexivity.
    - intros w0 rest. apply kept_same. reflexivity.
    - intros w0. apply kept_same. reflexivity.
    - intros w0 d f k0 _. reflexivity.
    - intros w0 f. apply kept_same. reflexivity. }
  apply Hrun. split; assumption.
Qed.

(** X20: editing never overwrites the saved document at once.  A change by
    the user, New, Undo, Redo, a click on Export, the theme toggle and an
    import leave the record under the fixed key as it is: only a save (the
    button, or the autosave timer) and the clearing of a corrupted record
    change it.  In particular the document saved before "New" can still be
    loaded. *)
Theorem handlers_keep_saved_record :
  forall (w : World) (e : event),
    keeps_record e = true ->
    saved_record (step e w) = saved_record w.
Proof.
  intros w e He. unfold saved_record.
  set (P := fun k : string => k = STORAGE_KEY).
  assert (Pt : ~ P THEME_KEY) by (unfold P; discriminate).
  assert (Hd : forall c : M unit, stable (kept_keys P) c -> kept_keys P w (dispatch c w)).
  { intros c Hc. apply stable_dispatch; [typeclasses eauto | exact Hc |].
    intros e0 w0. apply kept_same. reflexivity. }
  assert (Hstep : kept_keys P w (step e w)).
  { destruct e; try discriminate; simpl step.
    - destruct (quill (vars w)); [apply Hd, keys_engine_change | reflexivity].
    - apply Hd, keys_createNewDocument.
    - apply Hd, keys_undoChange.
    - apply Hd, keys_redoChange.
    - destruct (exportBtn_disabled (page w)); [reflexivity | apply Hd, keys_export_click].
    - apply Hd, keys_toggleDarkMode, Pt.
    - apply Hd, keys_importDocx. }
  apply Hstep. reflexivity.
Qed.

End StoreSessions.

(** *** Exceptions that leave a handler *)

#[global] Instance Sound_preorder rd : PreOrder (Sound rd).
Proof.
  split.
  - intros w. split; [auto | reflexivity].
  - intros w1 w2 w3 [H1 U1] [H2 U2]. split; [auto | congruence].
Qed.

Section ReturnsRules.
Variable rd : bool.

Lemma returns_ret {A} (a : A) : returns rd (ret a).
Proof. intros w Hs. simpl. split; [exact Hs | reflexivity]. Qed.

Lemma returns_get : returns rd get.
Proof. intros w Hs. simpl. split; [exact Hs | reflexivity]. Qed.

Lemma returns_bind {A B} (c : M A) (k : A -> M B) :
  returns rd c -> (forall a, returns rd (k a)) -> returns rd (bind c k).
Proof.
  intros Hc Hk w Hs. unfold bind. specialize (Hc w Hs).
  destruct (c w) as [a w'|e w']; [| exact Hc]. destruct Hc as [Hs' Hu].
  specialize (Hk a w' Hs'). destruct (k a w') as [b w''|e w'']; [| exact Hk].
  destruct Hk as [Hs'' Hu']. split; [exact Hs'' | congruence].
Qed.

Lemma returns_try_catch {A} (c : M A) (h : js_error -> M A) :
  stable (Sound rd) c -> (forall e, returns rd (h e)) -> returns rd (try_catch c h).
Proof.
  intros Hc Hh w Hs. unfold try_catch. destruct (Hc w) as [Hs' Hu].
  destruct (c w) as [a w'|e w']; simpl in Hs', Hu.
  - split; [apply Hs', Hs | exact Hu].
  - specialize (Hh e w' (Hs' Hs)). destruct (h e w') as [b w''|e' w'']; [| exact Hh].
    destruct Hh as [Hs'' Hu']. split; [exact Hs'' | congruence].
Qed.

Lemma returns_modify (f : World -> World) :
  (forall w, sound rd w -> sound rd (f w) /\ uncaught (out (f w)) = uncaught (out w)) ->
  returns rd (modify f).
Proof. intros Hf w Hs. simpl. apply Hf, Hs. Qed.

Lemma returns_the_quill : returns rd the_quill.
Proof.
  intros w Hs. unfold the_quill, bind, get. destruct Hs as [Hq Hd].
  destruct (quill (vars w)) as [q|] eqn:E; [| congruence].
  simpl. split; [split; [congruence | exact Hd] | reflexivity].
Qed.

Lemma returns_setTimeout c d : returns rd (setTimeout c d).
Proof. intros w Hs. simpl. split; [exact Hs | reflexivity]. Qed.

Lemma returns_createElement : returns rd createElement.
Proof. intros w Hs. simpl. split; [exact Hs | reflexivity]. Qed.

Lemma returns_remove_if_attached n : returns rd (remove_if_attached n).
Proof.
  intros w Hs. rewrite remove_if_attached_detach. split; [exact Hs | reflexivity].
Qed.

End ReturnsRules.

Lemma returns_getItem k : returns true (localStorage_getItem k).
Proof.
  intros w Hs. destruct Hs as [Hq Hd].
  cbv [localStorage_getItem bind get throw_if ret]. rewrite (Hd eq_refl).
  split; [split; assumption | reflexivity].
Qed.

Lemma returns_removeItem k : returns true (localStorage_removeItem k).
Proof.
  intros w Hs. destruct Hs as [Hq Hd].
  cbv [localStorage_removeItem bind get throw_if ret modify]. rewrite (Hd eq_refl).
  split; [split; assumption | reflexivity].
Qed.

(** The scripts, unfolded down to the calls that need the page to be sound. *)
Ltac unfold_handlers :=
  cbv [performSave manualSave handleSaveError updateAutosaveStatus
       triggerAutosave handleLoadError
       createNewDocument undoChange redoChange history_undo history_redo history_clear
       quill_setText quill_setContents engine_change
       put_quill quill_on updateWordCount initializeEditor
       setupStorageListeners storage_start storage_init importDocx
       checkDarkModePreference
       alert confirm open_dialog console_log console_warn console_error Date_now
       clearTimeout clear_if_set appendChild
       set_exportBtn export_catch export_click export_rendered
       run_callback run_listener].

(** A [modify] that keeps the page sound: the editor stays or is set, the
    condition of the store is not touched. *)
Ltac sound_world :=
  intros ?w ?Hs; split;
  [ first [ exact Hs | split; [discriminate | apply Hs] ] | reflexivity ].

Ltac sound_leaf :=
  first
    [ rule stable_modify; intros ?w; split;
      [ intros ?Hs; first [ exact Hs | split; [discriminate | apply Hs] ] | reflexivity ]
    | intros ?w; split; [ intros ?Hs; exact Hs | reflexivity ]
    | match goal with H : _ |- _ => solve [apply H] end ].

Ltac returns_step :=
  first
    [ apply returns_ret
    | apply returns_get
    | apply returns_the_quill
    | apply returns_setTimeout
    | apply returns_createElement
    | apply returns_remove_if_attached
    | apply returns_getItem
    | apply returns_removeItem
    | apply returns_bind; [| intros ?]
    | apply returns_try_catch; [solve [frame_go sound_leaf] | intros ?]
    | match goal with
      | |- returns _ (match ?x with _ => _ end) => destruct x
      end
    | solve [apply returns_modify; sound_world]
    | match goal with H : _ |- _ => solve [apply H] end ].

Ltac returns_go := unfold_handlers; repeat returns_step.

Section Exceptions.
Context {json_lib : JSON} {quill_lib : Quill}.

Lemma sound_run_listeners rd src ls : stable (Sound rd) (run_listeners src ls).
Proof.
  induction ls as [|l ls IH]; simpl run_listeners; [rule stable_ret |].
  rule stable_bind; [| intros _; exact IH].
  destruct l, src; frame_go sound_leaf.
Qed.

Lemma returns_run_listeners rd src ls : returns rd (run_listeners src ls).
Proof.
  induction ls as [|l ls IH]; simpl run_listeners; [apply returns_ret |].
  apply returns_bind; [| intros _; exact IH].
  destruct l, src; returns_go.
Qed.

Lemma returns_engine_change rd d src : returns rd (engine_change d src).
Proof. pose proof (returns_run_listeners rd). returns_go. Qed.

Lemma returns_createNewDocument rd ok : returns rd (createNewDocument ok).
Proof. pose proof (returns_run_listeners rd). returns_go. Qed.

Lemma returns_undoChange rd : returns rd undoChange.
Proof. pose proof (returns_run_listeners rd). returns_go. Qed.

Lemma returns_redoChange rd : returns rd redoChange.
Proof. pose proof (returns_run_listeners rd). returns_go. Qed.

Lemma returns_performSave rd a : returns rd (performSave a).
Proof. unfold_handlers. unfold performSave_body. repeat returns_step. Qed.

Lemma returns_export_click rd o : returns rd (export_click o).
Proof. returns_go. Qed.

Lemma returns_importDocx rd d : returns rd (importDocx d).
Proof. pose proof (sound_run_listeners rd). returns_go. Qed.

Lemma returns_loadSavedDocument ok : returns true (loadSavedDocument ok).
Proof.
  pose proof (sound_run_listeners true). pose proof (returns_run_listeners true).
  unfold loadSavedDocument. returns_go.
Qed.

Lemma returns_run_callback c : returns true (run_callback c).
Proof.
  pose proof (sound_run_listeners true). pose proof (returns_run_listeners true).
  pose proof returns_loadSavedDocument. pose proof (returns_performSave true).
  destruct c; simpl run_callback.
  - returns_go.
  - returns_go.
  - apply returns_performSave.
  - returns_go.
  - returns_go.
  - returns_go.
  - returns_go.
  - unfold export_canvas. returns_go.
  - unfold export_cleanup. returns_go.
Qed.

(** A handler that returns adds nothing to the uncaught exceptions. *)
Lemma returns_dispatch rd (c : M unit) w :
  returns rd c -> sound rd w ->
  sound rd (dispatch c w) /\ uncaught (out (dispatch c w)) = uncaught (out w).
Proof.
  intros Hc Hs. unfold dispatch. specialize (Hc w Hs).
  destruct (c w) as [a w'|e w']; [exact Hc | contradiction].
Qed.

Lemma fire_due_sound fuel : forall w,
  sound true w ->
  sound true (fire_due fuel w) /\ uncaught (out (fire_due fuel w)) = uncaught (out w).
Proof.
  induction fuel as [|fuel IH]; intros w Hs; simpl; [split; [exact Hs | reflexivity] |].
  destruct (take_due (now (loop w)) (timers (loop w))) as [[x rest]|];
    [| split; [exact Hs | reflexivity]].
  set (w1 := upd_loop (set_timers rest) w).
  assert (Hs1 : sound true w1) by exact Hs.
  destruct (returns_dispatch true (run_callback (cb x)) w1 (returns_run_callback (cb x)) Hs1)
    as [Hs2 Hu2].
  destruct (IH _ Hs2) as [Hs3 Hu3]. split; [exact Hs3 |]. rewrite Hu3, Hu2. reflexivity.
Qed.

Lemma step_sound e w :
  safe_event e = true -> sound true w ->
  sound true (step e w) /\ uncaught (out (step e w)) = uncaught (out w).
Proof.
  intros He Hs. destruct e; try discriminate; simpl step.
  - unfold tick. cbv zeta.
    set (w' := upd_loop (fun l => set_now (now l + 1) l) w).
    assert (Hs' : sound true w') by exact Hs.
    destruct (fire_due_sound (List.length (timers (loop w'))) w' Hs') as [Hs2 Hu2].
    split; [exact Hs2 | exact Hu2].
  - destruct (quill (vars w)); [| split; [exact Hs | reflexivity]].
    apply returns_dispatch; [apply returns_engine_change | exact Hs].
  - apply returns_dispatch; [apply returns_createNewDocument | exact Hs].
  - apply returns_dispatch; [apply returns_undoChange | exact Hs].
  - apply returns_dispatch; [apply returns_redoChange | exact Hs].
  - apply returns_dispatch; [apply returns_performSave | exact Hs].
  - destruct (exportBtn_disabled (page w)); [split; [exact Hs | reflexivity] |].
    apply returns_dispatch; [apply returns_export_click | exact Hs].
  - apply returns_dispatch; [apply returns_importDocx | exact Hs].
  - split; [exact Hs | reflexivity].
Qed.

Lemma run_sound es : forall w,
  Forall (fun e => safe_event e = true) es -> sound true w ->
  sound true (run es w) /\ uncaught (out (run es w)) = uncaught (out w).
Proof.
  induction es as [|e es IH]; intros w Hes Hs; simpl; [split; [exact Hs | reflexivity] |].
  inversion Hes as [|? ? He Hes']; subst.
  destruct (step_sound e w He Hs) as [Hs1 Hu1].
  destruct (IH (step e w) Hes' Hs1) as [Hs2 Hu2]. split; [exact Hs2 | congruence].
Qed.

(** The top-level code of storage.js on a store that can be read. *)
Lemma storage_module_load_readable w :
  store_denied (storage w) = None ->
  exists w',
    storage_module_load w = Ok tt w' /\
    store_denied (storage w') = None /\
    uncaught (out w') = uncaught (out w).
Proof.
  intros Hd.
  cbv [storage_module_load isLocalStorageAvailable try_catch localStorage_setItem
       localStorage_removeItem console_warn console_log alert updateAutosaveStatus
       bind get modify ret throw_if throw].
  rewrite Hd. destruct (store_write_fault (storage w)) eqn:Hf.
  - eexists. split; [reflexivity |]. split; [exact Hd | reflexivity].
  - js_simpl. rewrite Hd. eexists. split; [reflexivity |]. split; [exact Hd | reflexivity].
Qed.

(** The page load over a store that can be read. *)
Lemma page_load_sound t0 s clear_ok :
  store_denied s = None ->
  sound true (page_load clear_ok (initial_world t0 s)) /\
  uncaught (out (page_load clear_ok (initial_world t0 s))) = [].
Proof.
  intros Hd. unfold page_load.
  set (w1 := dispatch (console_log "📝 Editor module loaded successfully") (initial_world t0 s)).
  destruct (storage_module_load_readable w1 Hd) as (w2 & Hw2 & Hd2 & Hu2).
  assert (E2 : dispatch storage_module_load w1 = w2) by (unfold dispatch; rewrite Hw2; reflexivity).
  rewrite E2. clear E2.
  set (w2' := upd_vars (set_quill (Some new_engine)) w2).
  assert (Hs2 : sound true w2') by (split; [discriminate | intros _; exact Hd2]).
  assert (Hrest : returns true
            ((quill_on WordCountListener ;;
              console_log "✅ Quill editor initialized successfully") ;;
             console_log "✅ Event listeners attached" ;;
             console_log "✅ Custom keyboard shortcuts registered" ;;
             updateWordCount ;;
             checkDarkModePreference)).
  { returns_go. }
  assert (E3 : editor_ready w2
               = ((quill_on WordCountListener ;;
                   console_log "✅ Quill editor initialized successfully") ;;
                  console_log "✅ Event listeners attached" ;;
                  console_log "✅ Custom keyboard shortcuts registered" ;;
                  updateWordCount ;;
                  checkDarkModePreference) w2') by reflexivity.
  specialize (Hrest w2' Hs2). rewrite <- E3 in Hrest.
  assert (Hs3 : sound true (dispatch editor_ready w2) /\
                uncaught (out (dispatch editor_ready w2)) = uncaught (out w2')).
  { unfold dispatch. destruct (editor_ready w2) as [a w3|e w3]; [exact Hrest | contradiction]. }
  destruct Hs3 as [Hs3 Hu3].
  destruct (returns_dispatch true (storage_ready clear_ok) _ ltac:(unfold storage_ready; returns_go) Hs3)
    as [Hs4 Hu4].
  destruct (returns_dispatch true (console_log "✅ Export listeners attached") _
              ltac:(returns_go) Hs4) as [Hs5 Hu5].
  split; [exact Hs5 |]. rewrite Hu5, Hu4, Hu3. change (out w2') with (out w2).
  rewrite Hu2. reflexivity.
Qed.

(** X21: where no exception can escape.  On a page where the editor exists
    and the store can be read, no sequence of ticks of the clock, changes by
    the user, New, Undo, Redo, Save, Export and imports leaves an exception
    uncaught, and the page stays in that condition; this holds in particular
    for the page as loaded over a readable store, which starts with no
    uncaught exception.  (The Load button and the theme toggle are the
    handlers from which an exception can escape.) *)
Theorem no_exception_escapes :
  (forall (w : World) (es : list event),
     quill (vars w) <> None ->
     store_denied (storage w) = None ->
     Forall (fun e => safe_event e = true) es ->
     uncaught (out (run es w)) = uncaught (out w) /\
     quill (vars (run es w)) <> None /\
     store_denied (storage (run es w)) = None) /\
  (forall (t0 : Z) (s : Storage) (clear_ok : bool) (es : list event),
     store_denied s = None ->
     Forall (fun e => safe_event e = true) es ->
     uncaught (out (run es (page_load clear_ok (initial_world t0 s)))) = []).
Proof.
  split.
  - intros w es Hq Hd Hes.
    assert (Hs : sound true w) by (split; [exact Hq | intros _; exact Hd]).
    destruct (run_sound es w Hes Hs) as [[Hq' Hd'] Hu].
    split; [exact Hu |]. split; [exact Hq' | apply Hd'; reflexivity].
  - intros t0 s ok es Hd Hes.
    destruct (page_load_sound t0 s ok Hd) as [Hs Hu].
    destruct (run_sound es _ Hes Hs) as [_ Hu']. rewrite Hu'. exact Hu.
Qed.

End Exceptions.

(** ** import.js: the checks on the file and the end of the import *)

Lemma warn_each_returns (msgs : list string) : forall w,
  exists w', warn_each msgs w = Ok tt w' /\ only_wordcount w w'.
Proof.
  induction msgs as [|m msgs IH]; intros w; simpl warn_each.
  - exists w. split; [reflexivity | reflexivity].
  - cbv [bind console_warn modify].
    destruct (IH (upd_out (add_console LWarn ("  - " +:+ m)) w)) as (w' & -> & Ho).
    exists w'. split; [reflexivity |].
    etransitivity; [| exact Ho]. unfold only_wordcount. repeat split.
Qed.

Section DocxImport.
Context {json_lib : JSON} {quill_lib : Quill}.
Variable formatFileSize : Z -> string.

(** [insertHtmlIntoQuill] on an existing editor, up to the call of
    [setContents]: the editor has been emptied. *)
Lemma insertHtmlIntoQuill_emptied d w q :
  quill (vars w) = Some q ->
  exists w1,
    only_wordcount
      (upd_vars (set_quill (Some (mkEngine (text_delta EmptyString) (undo_stack q)
                                           (redo_stack q) (lastRecorded q) (listeners q)))) w)
      w1 /\
    insertHtmlIntoQuill d w
    = (quill_setContents (delta_to_json d) ;;
       history_clear ;;
       (let! _ := setTimeout CbTriggerAutosave 500 in ret tt) ;;
       console_log "✅ Content inserted into editor") w1.
Proof.
  intros Hq.
  destruct (engine_change_api w q (text_delta EmptyString) Hq) as (w1 & Hw1 & Ho1).
  exists w1. split; [exact Ho1 |].
  cbv [insertHtmlIntoQuill quill_setText bind get]. rewrite Hq, Hw1. reflexivity.
Qed.

(** [insertHtmlIntoQuill] when the engine takes the converted content. *)
Lemma insertHtmlIntoQuill_fields d d' w q :
  quill (vars w) = Some q ->
  Quill_setContents (delta_to_json d) = Returns d' ->
  exists w',
    insertHtmlIntoQuill d w = Ok tt w' /\
    quill (vars w') = Some (mkEngine d' [] [] (lastRecorded q) (listeners q)) /\
    autosaveTimer (vars w') = autosaveTimer (vars w) /\
    loop w' = mkLoop (now (loop w))
                (timers (loop w) ++ [mkTimer (next_timer (loop w)) (now (loop w) + 500)
                                       CbTriggerAutosave])
                (Pos.succ (next_timer (loop w))) /\
    storage w' = storage w /\
    dialogs (out w') = dialogs (out w) /\
    uncaught (out w') = uncaught (out w).
Proof.
  intros Hq Hacc.
  destruct (insertHtmlIntoQuill_emptied d w q Hq) as (w1 & Ho1 & ->).
  destruct Ho1 as (Hl1 & Hs1 & Hv1 & Hd1 & _ & Hu1 & _).
  js_simpl_in Hl1. js_simpl_in Hs1. js_simpl_in Hv1. js_simpl_in Hd1. js_simpl_in Hu1.
  assert (Hq1 : quill (vars w1)
                = Some (mkEngine (text_delta EmptyString) (undo_stack q) (redo_stack q)
                                 (lastRecorded q) (listeners q))) by (rewrite Hv1; reflexivity).
  destruct (engine_change_api w1 _ d' Hq1) as (w2 & Hw2 & Ho2).
  destruct Ho2 as (Hl2 & Hs2 & Hv2 & Hd2 & _ & Hu2 & _).
  js_simpl_in Hl2. js_simpl_in Hs2. js_simpl_in Hv2. js_simpl_in Hd2. js_simpl_in Hu2.
  assert (Hq2 : quill (vars w2)
                = Some (mkEngine d' (undo_stack q) (redo_stack q) (lastRecorded q) (listeners q)))
    by (rewrite Hv2; reflexivity).
  unfold bind at 1. rewrite (setContents_accepted w1 _ _ d' Hq1 Hacc), Hw2.
  unfold bind at 1. rewrite (history_clear_world w2 _ Hq2).
  cbv [setTimeout console_log bind modify ret]. js_simpl.
  eexists. split; [reflexivity |]. js_simpl.
  rewrite Hl2, Hl1, Hs2, Hs1, Hd2, Hd1, Hu2, Hu1, Hv2, Hv1. js_simpl. repeat split.
Qed.

(** [insertHtmlIntoQuill] when the engine rejects the converted content:
    the editor has been emptied, and nothing else has happened. *)
Lemma insertHtmlIntoQuill_rejected d e w q :
  quill (vars w) = Some q ->
  Quill_setContents (delta_to_json d) = Raises e ->
  exists w',
    insertHtmlIntoQuill d w = Threw e w' /\
    quill (vars w') = Some (mkEngine (text_delta EmptyString) (undo_stack q) (redo_stack q)
                                     (lastRecorded q) (listeners q)) /\
    loop w' = loop w /\
    storage w' = storage w /\
    dialogs (out w') = dialogs (out w) /\
    uncaught (out w') = uncaught (out w).
Proof.
  intros Hq Hrej.
  destruct (insertHtmlIntoQuill_emptied d w q Hq) as (w1 & Ho1 & ->).
  destruct Ho1 as (Hl1 & Hs1 & Hv1 & Hd1 & _ & Hu1 & _).
  js_simpl_in Hl1. js_simpl_in Hs1. js_simpl_in Hv1. js_simpl_in Hd1. js_simpl_in Hu1.
  assert (Hq1 : quill (vars w1)
                = Some (mkEngine (text_delta EmptyString) (undo_stack q) (redo_stack q)
                                 (lastRecorded q) (listeners q))) by (rewrite Hv1; reflexivity).
  unfold bind at 1. rewrite (setContents_rejected w1 _ _ e Hq1 Hrej).
  exists w1. split; [reflexivity |]. repeat split; assumption.
Qed.

(** The console lines written once the converter has returned, and what
    follows them. *)
Lemma conversion_logged (len : Z) (msgs : list string) w :
  exists w0,
    only_wordcount w w0 /\
    forall (A : Type) (K : M A),
      (console_log "✅ Conversion complete" ;;
       console_log ("📊 HTML length: " +:+ pretty len +:+ " characters") ;;
       console_log ("📊 Messages: " +:+ pretty (List.length msgs)) ;;
       (if Nat.ltb 0 (List.length msgs)
        then console_warn "⚠️ Conversion warnings:" ;; warn_each msgs
        else ret tt) ;;
       K) w = K w0.
Proof.
  cbv [bind console_log console_warn modify ret].
  destruct (Nat.ltb 0 (List.length msgs)).
  - match goal with
    | |- context [warn_each msgs ?w1] =>
        destruct (warn_each_returns msgs w1) as (w' & Hw' & Ho)
    end.
    exists w'. split.
    + etransitivity; [| exact Ho]. unfold only_wordcount. repeat split.
    + intros A K. rewrite Hw'. reflexivity.
  - eexists. split; [| intros A K; reflexivity]. unfold only_wordcount. repeat split.
Qed.

(** [import_converted] on a conversion that succeeded. *)
Lemma import_converted_unfold (len : Z) (msgs : list string) (d : Delta)
                              (originalText : string) (ui : ImportUi) w :
  import_converted (Returns (len, msgs, d)) originalText ui w
  = bind (try_catch
            (console_log "✅ Conversion complete" ;;
             console_log ("📊 HTML length: " +:+ pretty len +:+ " characters") ;;
             console_log ("📊 Messages: " +:+ pretty (List.length msgs)) ;;
             (if Nat.ltb 0 (List.length msgs)
              then console_warn "⚠️ Conversion warnings:" ;; warn_each msgs
              else ret tt) ;;
             (insertHtmlIntoQuill d ;;
              console_log "✅ Import complete" ;;
              alert "✅ Document imported successfully!"))
            import_catch)
         (fun _ => ret (import_finally originalText ui)) w.
Proof. reflexivity. Qed.

(** X22: the checks [handleFileSelect] makes before it reads the file.  A
    cancelled dialog changes nothing.  A file whose name does not end in
    ".docx" (in any case of the letters), or whose size exceeds 20 MB, is
    refused with a message and the file input reset: the editor, the store
    and the timers stay as they are.  When the editor holds text the user is
    asked first, and a "no" ends the import in the same way; on a blank
    document nothing is asked.  Only then the button enters its busy state.
    The clock moves on by the time a message or the question is open.  When
    the editor does not exist, a file that passes the two checks makes the
    handler throw a [TypeError] at the test for existing content, which is
    before its [try] block: no message is shown, and the file input is not
    reset. *)
Theorem import_file_checks :
  (forall (ok : bool) (ui : ImportUi) (w : World),
     handleFileSelect formatFileSize None ok ui w = Ok (ui, None) w) /\
  (forall (f : file) (ok : bool) (ui : ImportUi) (w : World),
     endsWith (toLowerCase (file_name f)) ".docx" = false \/ maxSize < file_size f ->
     exists w',
       handleFileSelect formatFileSize (Some f) ok ui w = Ok (resetFileInput ui, None) w' /\
       vars w' = vars w /\ storage w' = storage w /\ page w' = page w /\
       loop w' = set_now (now (loop w) + dialog_ms w) (loop w) /\
       dialogs (out w')
       = dialogs (out w) ++
         [Alert (if endsWith (toLowerCase (file_name f)) ".docx"
                 then "⚠️ File too large. Maximum size is 20MB."
                 else "⚠️ Invalid file type. Please select a .docx file.")]) /\
  (forall (f : file) (ok : bool) (ui : ImportUi) (w : World) (q : Engine),
     endsWith (toLowerCase (file_name f)) ".docx" = true ->
     file_size f <= maxSize ->
     quill (vars w) = Some q ->
     let blank := String.eqb (trim (delta_text (contents q))) EmptyString in
     exists w',
       handleFileSelect formatFileSize (Some f) ok ui w
       = Ok (if negb blank && negb ok
             then (resetFileInput ui, None)
             else (mkImportUi true "⏳ Importing..." (fileInput_value ui),
                   Some (importBtn_text ui)))
            w' /\
       vars w' = vars w /\ storage w' = storage w /\ page w' = page w /\
       loop w' = (if blank then loop w else set_now (now (loop w) + dialog_ms w) (loop w)) /\
       dialogs (out w')
       = dialogs (out w) ++ (if blank then [] else [Confirm replace_question ok])) /\
  (forall (f : file) (ok : bool) (ui : ImportUi) (w : World),
     endsWith (toLowerCase (file_name f)) ".docx" = true ->
     file_size f <= maxSize ->
     quill (vars w) = None ->
     exists w',
       handleFileSelect formatFileSize (Some f) ok ui w
       = Threw (TypeError "Cannot read properties of null") w' /\
       vars w' = vars w /\ storage w' = storage w /\ page w' = page w /\
       loop w' = loop w /\ dialogs (out w') = dialogs (out w)).
Proof.
  split; [| split; [| split]].
  - intros ok ui w. reflexivity.
  - intros f ok ui w Hbad.
    cbv [handleFileSelect bind console_log alert open_dialog modify ret].
    destruct (endsWith (toLowerCase (file_name f)) ".docx") eqn:He; cbn [negb].
    + destruct Hbad as [Hbad | Hbig]; [discriminate |].
      apply Z.ltb_lt in Hbig. rewrite Hbig.
      eexists. split; [reflexivity |]. repeat split.
    + eexists. split; [reflexivity |]. repeat split.
  - intros f ok ui w q He Hsize Hq blank.
    assert (Hsmall : Z.ltb maxSize (file_size f) = false) by (apply Z.ltb_ge; exact Hsize).
    cbv [handleFileSelect bind console_log quill_getText the_quill get confirm open_dialog
         modify ret].
    rewrite He, Hsmall. cbn [negb]. js_simpl. rewrite Hq. cbv beta iota.
    rewrite js_length_ltb. fold blank.
    destruct blank.
    + simpl. eexists. split; [reflexivity |]. rewrite app_nil_r. repeat split.
    + simpl. destruct ok; simpl; eexists; (split; [reflexivity |]); repeat split.
  - intros f ok ui w He Hsize Hq.
    assert (Hsmall : Z.ltb maxSize (file_size f) = false) by (apply Z.ltb_ge; exact Hsize).
    cbv [handleFileSelect bind console_log quill_getText the_quill get throw modify ret].
    rewrite He, Hsmall. cbn [negb]. js_simpl. rewrite Hq.
    eexists. split; [reflexivity |]. repeat split.
Qed.

(** X23: how an import ends.  From its [try] block on, the handler lets no
    exception escape and always puts the button back (enabled, with the text
    it had) and resets the file input.  When the reader or the converter
    fails, the user sees the failure message with the text of the error, and
    the editor, the store and the timers are as they were.  When the
    conversion succeeds and the engine takes the converted content, the
    editor holds what the engine made of it, with an empty history, the
    success message is shown, the store is untouched, and one call of
    [triggerAutosave] is scheduled 500 ms later.  When the engine rejects the
    converted content, the user sees the failure message with the text of
    that error, the editor has already been emptied, its history is not
    cleared, the store is untouched and no call of [triggerAutosave] is
    scheduled. *)
Theorem import_outcome :
  (forall (r : result (Z * list string * Delta)) (originalText : string)
          (ui : ImportUi) (w : World),
     exists w',
       import_converted r originalText ui w = Ok (mkImportUi false originalText EmptyString) w') /\
  (forall (e : js_error) (originalText : string) (ui : ImportUi) (w : World),
     let w' := world_of (import_converted (Raises e) originalText ui w) in
     vars w' = vars w /\ storage w' = storage w /\
     loop w' = set_now (now (loop w) + dialog_ms w) (loop w) /\
     dialogs (out w') = dialogs (out w) ++ [Alert (import_failure_message e)]) /\
  (forall (originalText : string) (ui : ImportUi) (w : World),
     let w' := world_of (import_file_read None originalText ui w) in
     import_file_read None originalText ui w
     = Ok (mkImportUi false originalText EmptyString, false) w' /\
     vars w' = vars w /\ storage w' = storage w /\
     loop w' = set_now (now (loop w) + dialog_ms w) (loop w) /\
     dialogs (out w') = dialogs (out w) ++ [Alert (import_failure_message read_failure)]) /\
  (forall (len : Z) (msgs : list string) (d d' : Delta) (originalText : string)
          (ui : ImportUi) (w : World) (q : Engine),
     quill (vars w) = Some q ->
     Quill_setContents (delta_to_json d) = Returns d' ->
     let w' := world_of (import_converted (Returns (len, msgs, d)) originalText ui w) in
     quill (vars w') = Some (mkEngine d' [] [] (lastRecorded q) (listeners q)) /\
     storage w' = storage w /\
     timers (loop w')
     = timers (loop w) ++ [mkTimer (next_timer (loop w)) (now (loop w) + 500) CbTriggerAutosave] /\
     dialogs (out w') = dialogs (out w) ++ [Alert "✅ Document imported successfully!"] /\
     uncaught (out w') = uncaught (out w)) /\
  (forall (len : Z) (msgs : list string) (d : Delta) (e : js_error) (originalText : string)
          (ui : ImportUi) (w : World) (q : Engine),
     quill (vars w) = Some q ->
     Quill_setContents (delta_to_json d) = Raises e ->
     let w' := world_of (import_converted (Returns (len, msgs, d)) originalText ui w) in
     quill (vars w') = Some (mkEngine (text_delta EmptyString) (undo_stack q) (redo_stack q)
                                      (lastRecorded q) (listeners q)) /\
     storage w' = storage w /\
     timers (loop w') = timers (loop w) /\
     dialogs (out w') = dialogs (out w) ++ [Alert (import_failure_message e)] /\
     uncaught (out w') = uncaught (out w)).
Proof.
  split; [| split; [| split; [| split]]].
  - intros r original ui w. unfold import_converted, import_finally, bind at 1, try_catch.
    match goal with
    | |- exists w', match match ?c w with _ => _ end with _ => _ end = _ =>
        destruct (c w) as [[] w1|e w1]
    end.
    + eexists. reflexivity.
    + cbv [import_catch console_error alert open_dialog bind modify ret]. eexists. reflexivity.
  - intros e original ui w w'. subst w'.
    cbv [import_converted import_catch try_catch lift_result throw console_error alert
         open_dialog bind modify ret].
    simpl. repeat split.
  - intros original ui w w'. subst w'.
    cbv [import_file_read import_catch import_finally console_error alert open_dialog
         bind modify ret].
    simpl. repeat split.
  - intros len msgs d d' original ui w q Hq Hacc w'.
    destruct (conversion_logged len msgs w) as (w0 & Ho & Hlog).
    destruct Ho as (Hl & Hs & Hv & Hd & _ & Hu & _).
    assert (Hq0 : quill (vars w0) = Some q) by (rewrite Hv; exact Hq).
    destruct (insertHtmlIntoQuill_fields d d' w0 q Hq0 Hacc)
      as (w1 & Hw1 & Hq1 & _ & Hl1 & Hs1 & Hd1 & Hu1).
    assert (E : import_converted (Returns (len, msgs, d)) original ui w
                = Ok (import_finally original ui)
                    (shown (Alert "✅ Document imported successfully!")
                       (upd_out (add_console LLog "✅ Import complete") w1))).
    { rewrite import_converted_unfold. unfold bind at 1, try_catch. rewrite Hlog.
      unfold bind at 1. rewrite Hw1. reflexivity. }
    subst w'. rewrite E. js_simpl.
    rewrite Hq1, Hs1, Hl1, Hd1, Hu1, Hs, Hl, Hd, Hu. repeat split.
  - intros len msgs d e original ui w q Hq Hrej w'.
    destruct (conversion_logged len msgs w) as (w0 & Ho & Hlog).
    destruct Ho as (Hl & Hs & Hv & Hd & _ & Hu & _).
    assert (Hq0 : quill (vars w0) = Some q) by (rewrite Hv; exact Hq).
    destruct (insertHtmlIntoQuill_rejected d e w0 q Hq0 Hrej)
      as (w1 & Hw1 & Hq1 & Hl1 & Hs1 & Hd1 & Hu1).
    assert (E : import_converted (Returns (len, msgs, d)) original ui w
                = Ok (import_finally original ui)
                    (shown (Alert (import_failure_message e))
                       (upd_out (add_console LError ("❌ Import failed: " +:+ show_error e))
                          w1))).
    { rewrite import_converted_unfold. unfold bind at 1, try_catch. rewrite Hlog.
      unfold bind at 1. rewrite Hw1. reflexivity. }
    subst w'. rewrite E. js_simpl.
    rewrite Hq1, Hs1, Hl1, Hd1, Hu1, Hs, Hl, Hd, Hu. repeat split.
Qed.

End DocxImport.

(** ** The statements on concrete pages *)

#[local] Existing Instance mini_json.
#[local] Existing Instance mini_quill.

Lemma demo_typing_quill :
  exists q, quill (vars demo_typing) = Some q /\
            listeners q = [WordCountListener; AutosaveListener] /\
            contents q = demo_doc "Hello" /\
            undo_stack q = [blank_document].
Proof. eexists. split; [vm_compute; reflexivity |]. repeat split. Qed.




Lemma blank_autosave_skipped_manual_written_witness :
  (store_items (storage (world_of (performSave true demo_page))) = ∅ /\
   autoSaveStatus (page (world_of (performSave true demo_page))) = "Autosave: Off (empty doc)") /\
  store_items (storage (world_of (performSave false demo_page))) !! STORAGE_KEY
  = Some (JSON_stringify
            (JObj [("content", JObj [("ops", JArr blank_document)]);
                   ("timestamp", JNum 1200);
                   ("version", JStr "1.0");
                   ("wordCount", JNum 0)])).
Proof.
  assert (Hq : quill (vars demo_page)
               = Some (mkEngine blank_document [] [] 0 [WordCountListener; AutosaveListener]))
    by (vm_compute; reflexivity).
  destruct (blank_autosave_skipped_manual_written demo_page _ Hq) as [Hauto Hman].
  split.
  - destruct Hauto as (Hs & Hst & _); [vm_compute; reflexivity |].
    split; [rewrite Hs; vm_compute; reflexivity | exact Hst].
  - rewrite Hman by (vm_compute; reflexivity). vm_compute. reflexivity.
Defined.

Lemma save_restore_roundtrip_witness :
  let w1 := world_of (performSave false demo_typing) in
  exists q2,
    quill (vars (world_of (loadSavedDocument false
                             (upd_vars (set_quill (Some new_engine)) w1)))) = Some q2 /\
    contents q2 = demo_doc "Hello" /\
    delta_text (contents q2) = "Hello" +:+ LF.
Proof.
  destruct demo_typing_quill as (q & Hq & _ & Hc & _).
  destruct (save_restore_roundtrip demo_typing q false false Hq) as [_ Hreload].
  - discriminate.
  - vm_compute. reflexivity.
  - rewrite Hc. vm_compute. reflexivity.
  - rewrite Hc. vm_compute. discriminate.
  - rewrite Hc. vm_compute. reflexivity.
  - destruct (Hreload new_engine) as (q2 & Hq2 & Hc2 & Ht2).
    exists q2. rewrite Hc in Hc2, Ht2. split; [exact Hq2 | split; [exact Hc2 | exact Ht2]].
Defined.

Lemma history_empty_after_new_and_restore_witness :
  (exists q',
      quill (vars (world_of (createNewDocument true demo_typing))) = Some q' /\
      undo_stack q' = [] /\
      quill (vars (world_of (undoChange (world_of (createNewDocument true demo_typing)))))
      = Some q') /\
  (let w := world_of (performSave false demo_typing) in
   exists q',
      quill (vars (world_of (loadSavedDocument false w))) = Some q' /\
      contents q' = demo_doc "Hello" /\
      undo_stack q' = [] /\
      quill (vars (world_of (undoChange (world_of (loadSavedDocument false w))))) = Some q') /\
  loadSavedDocument false demo_typing_rejected
  = handleLoadError (TypeError "Cannot read properties of undefined (reading 'length')")
      false demo_typing_rejected.
Proof.
  destruct demo_typing_quill as (q & Hq & _).
  destruct history_empty_after_new_and_restore as (Hnew & Hrestore & Hrejected).
  split; [| split].
  - destruct (Hnew demo_typing q Hq) as (q' & H1 & _ & H2 & _ & H3).
    exists q'. split; [exact H1 | split; [exact H2 | exact H3]].
  - intros w.
    assert (Hqw : quill (vars w) = quill (vars demo_typing)) by (vm_compute; reflexivity).
    rewrite Hq in Hqw.
    destruct (Hrestore w q (delta_to_json (demo_doc "Hello")) (demo_doc "Hello") false Hqw)
      as (q' & H1 & H0 & H2 & _ & H3).
    + split; [split; [vm_compute; reflexivity |] | vm_compute; reflexivity].
      eexists. eexists.
      split; [vm_compute; reflexivity |]. split; [discriminate |].
      split; [vm_compute; reflexivity | vm_compute; reflexivity].
    + exists q'. split; [exact H1 |]. split; [exact H0 |]. split; [exact H2 | exact H3].
  - assert (Hqr : quill (vars demo_typing_rejected) = Some q) by exact Hq.
    apply (Hrejected demo_typing_rejected q (JObj [("ops", JArr [JNum 5])])
             (TypeError "Cannot read properties of undefined (reading 'length')") false Hqr).
    + split; [vm_compute; reflexivity |]. eexists. eexists.
      split; [vm_compute; reflexivity |]. split; [discriminate |].
      split; [vm_compute; reflexivity | vm_compute; reflexivity].
    + vm_compute. reflexivity.
Defined.

(** A restore the engine rejects leaves the content and the history as they
    were, and the user is told that the load failed. *)
Example rejected_restore_keeps_history :
  let w' := world_of (loadSavedDocument false demo_typing_rejected) in
  option_map contents (quill (vars w')) = Some (demo_doc "Hello") /\
  option_map undo_stack (quill (vars w')) = Some [blank_document] /\
  dialogs (out w') = [Alert "Failed to load document. The saved data may be corrupted."].
Proof. vm_compute. repeat split. Qed.

(** Without the clearing, undo does change the content. *)
Example undo_restores_previous_text :
  option_map contents (quill (vars (world_of (undoChange demo_typing))))
  = Some blank_document.
Proof. vm_compute. reflexivity. Qed.

Lemma failed_save_reporting_witness :
  dialogs (out (world_of (performSave false demo_typing_full)))
  = dialogs (out demo_typing_full) ++ [Alert quota_message] /\
  autoSaveStatus (page (world_of (performSave false demo_typing_full))) = "Autosave: ⚠ Error".
Proof.
  destruct demo_typing_quill as (q & Hq & _ & Hc & _).
  assert (Hq' : quill (vars demo_typing_full) = Some q)
    by (rewrite <- Hq; vm_compute; reflexivity).
  destruct (failed_save_reporting demo_typing_full q false
              (mkError "QuotaExceededError" "The quota has been exceeded.") Hq')
    as (Hst & _ & Hd).
  - discriminate.
  - vm_compute. reflexivity.
  - split; [exact Hd | exact Hst].
Defined.

Lemma failed_autosave_shows_no_message :
  let w' := world_of (performSave true demo_typing_full) in
  store_fault (storage demo_typing_full)
  = Some (mkError "QuotaExceededError" "The quota has been exceeded.") /\
  calls (out w') = calls (out demo_typing_full) ++ [(1700, CallPerformSave true)] /\
  dialogs (out w') = dialogs (out demo_typing_full) /\
  dialogs (out w') = [] /\
  autoSaveStatus (page w') = "Autosave: ⚠ Error".
Proof. vm_compute. repeat split. Qed.

Lemma export_places_image_on_single_page_witness :
  let w' := dispatch (export_canvas long_render 0 1) demo_typing in
  downloads (out w')
  = [("document_1700.pdf",
      mkPdf [[mkPlaced 10 10 (210 - 20) (inject_Z 10000 * (210 - 20) / inject_Z 1400)]])].
Proof.
  destruct (export_places_image_on_single_page demo_typing long_render 0 1
              1400 10000 "data:image/jpeg;base64,..." 210 297)
    as (Hd & _ & _); [reflexivity | reflexivity | reflexivity | reflexivity | reflexivity |].
  intros w'. subst w'. rewrite Hd. vm_compute. reflexivity.
Defined.

Lemma long_document_on_one_page :
  let w' := idle 1300 (step (ClickExport long_render) demo_typing) in
  exists name img,
    downloads (out w') = [(name, mkPdf [[img]])] /\
    (297 < img_h img)%Q /\
    List.length (pages (mkPdf [[img]])) = 1%nat.
Proof.
  eexists. eexists. split; [vm_compute; reflexivity |].
  split; [vm_compute; reflexivity | reflexivity].
Qed.

Lemma failed_export_leaves_no_residue_witness :
  (let w' := step (ClickExport long_render) demo_page in
   dialogs (out w') = [Alert "⚠️ Document is empty. Please add content first."] /\
   page w' = page demo_page) /\
  (let w1 := step (ClickExport failing_render) demo_settled in
   let w2 := idle 1300 w1 in
   exportBtn_disabled (page (idle 1299 w1)) = true /\
   body (page w2) = body (page demo_settled) /\
   exportBtn_disabled (page w2) = false /\
   dialogs (out w2)
   = dialogs (out demo_settled)
     ++ [Alert "Export failed: Unable to find element in cloned iframe"] /\
   downloads (out w2) = downloads (out demo_settled) /\
   timers (loop w2) = timers (loop demo_settled)) /\
  (let w := idle 1000 (step (ClickExport failing_render) demo_typing) in
   let w' := dispatch (export_canvas failing_render 0 1) w in
   body (page w) = [0; 1]%nat /\
   body (page w') = [] /\
   exportBtn_disabled (page w') = false /\
   dialogs (out w') = [Alert "Export failed: Unable to find element in cloned iframe"]) /\
  (let w := idle 1000 (step (ClickExport long_render) demo_typing) in
   let w' := dispatch (export_cleanup 0 1) w in
   body (page w') = [] /\ exportBtn_disabled (page w') = false).
Proof.
  destruct failed_export_leaves_no_residue as (Hempty & Hrun & Hfail & Hclean).
  split; [| split; [| split]].
  - assert (Hq : quill (vars demo_page)
                 = Some (mkEngine blank_document [] [] 0 [WordCountListener; AutosaveListener]))
      by (vm_compute; reflexivity).
    destruct (Hempty demo_page _ long_render Hq) as (Hd & _ & _ & Hp & _);
      [vm_compute; reflexivity | vm_compute; reflexivity |].
    split; [rewrite Hd; vm_compute; reflexivity | exact Hp].
  - assert (Hq : exists q, quill (vars demo_settled) = Some q /\ contents q = demo_doc "Hello")
      by (eexists; split; [vm_compute; reflexivity | reflexivity]).
    destruct Hq as (q & Hq & Hc).
    assert (Hts : timers (loop demo_settled) = []) by (vm_compute; reflexivity).
    destruct (Hrun demo_settled q failing_render
                (Error "Unable to find element in cloned iframe") Hq)
      as (Hbusy & Hb & _ & _ & Hen & _ & Hd & Hdl & _ & Ht & _).
    + rewrite Hc. vm_compute. discriminate.
    + vm_compute. reflexivity.
    + unfold nodes_known. vm_compute. constructor.
    + reflexivity.
    + rewrite Hts. constructor.
    + split; [apply (Hbusy 1299%nat); vm_compute; lia |].
      split; [exact Hb |]. split; [exact Hen |]. split; [exact Hd |].
      split; [exact Hdl | exact Ht].
  - intros w w'. subst w'.
    destruct (Hfail w failing_render 0%nat 1%nat
                (Error "Unable to find element in cloned iframe") eq_refl)
      as (Hb & _ & _ & Hen & _ & Hd & _).
    split; [vm_compute; reflexivity |].
    split; [rewrite Hb; vm_compute; reflexivity |].
    split; [exact Hen | rewrite Hd; vm_compute; reflexivity].
  - intros w w'. subst w'.
    destruct (Hclean w 0%nat 1%nat) as (Hb & Hen & _).
    split; [rewrite Hb; vm_compute; reflexivity | exact Hen].
Defined.

(** The same failure, seen from the event loop. *)
Example failed_export_run :
  let w' := idle 1300 (step (ClickExport failing_render) demo_typing) in
  body (page w') = [] /\ exportBtn_disabled (page w') = false /\
  downloads (out w') = [] /\ uncaught (out w') = [].
Proof. vm_compute. repeat split. Qed.

Lemma word_count_runs_on_every_change_witness :
  let w1 := step (UserEdit (demo_doc "Hello")) demo_page in
  let w2 := step (UserEdit (demo_doc "Hello World")) (step Tick w1) in
  wordCount (page w1) = "Words: 1 | Characters: 5" /\
  wordCount (page w2) = "Words: 2 | Characters: 11" /\
  wordcount_calls w2
  = wordcount_calls demo_page ++ [(1200, CallUpdateWordCount); (1201, CallUpdateWordCount)] /\
  wordCountTimer (vars w2) = None.
Proof.
  intros w1 w2.
  assert (Hq : quill (vars demo_page)
               = Some (mkEngine blank_document [] [] 0 [WordCountListener; AutosaveListener]))
    by (vm_compute; reflexivity).
  destruct (word_count_runs_on_every_change demo_page _ (demo_doc "Hello") Hq eq_refl)
    as (H1 & _ & _).
  subst w2 w1. split; [rewrite H1; vm_compute; reflexivity |]. vm_compute. repeat split.
Defined.

Lemma manual_load_rethrows_malformed_record_witness :
  uncaught (out demo_page_malformed) = [] /\
  uncaught (out (step (ClickLoad true false) demo_page_malformed))
  = [SyntaxError "Unexpected token in JSON"].
Proof.
  split; [vm_compute; reflexivity |].
  rewrite (manual_load_rethrows_malformed_record demo_page_malformed "{").
  - vm_compute. reflexivity.
  - vm_compute. reflexivity.
  - vm_compute. reflexivity.
  - discriminate.
  - vm_compute. reflexivity.
Defined.

Lemma autosave_stays_off_when_store_unavailable_witness :
  let w := run [UserEdit (demo_doc "Hello"); Tick; ImportDocx (demo_doc "Imported"); Tick]
               (page_load false (initial_world 1000 full_store)) in
  isAutosaveEnabled (vars w) = false /\ auto_timers w = [] /\ auto_calls w = [].
Proof.
  intros w. subst w.
  destruct (autosave_stays_off_when_store_unavailable 1000 full_store
              (mkError "QuotaExceededError" "The quota has been exceeded.") false
              [UserEdit (demo_doc "Hello"); Tick; ImportDocx (demo_doc "Imported"); Tick]
              eq_refl)
    as (Hflag & _ & Ht & Hc & _).
  split; [exact Hflag | split; [exact Ht | exact Hc]].
Defined.

(** ** The further statements on concrete pages *)

Lemma demo_page_quill :
  quill (vars demo_page)
  = Some (mkEngine blank_document [] [] 0 [WordCountListener; AutosaveListener]).
Proof. vm_compute. reflexivity. Qed.


Lemma demo_page_no_timer : timers (loop demo_page) = [].
Proof. vm_compute. reflexivity. Qed.


Lemma word_count_footer_witness :
  wordCount (page (world_of (updateWordCount demo_unicode))) = "Words: 3 | Characters: 13" /\
  word_runs (demo_unicode_text +:+ LF) = 3%nat /\
  js_length (trim (demo_unicode_text +:+ LF)) = 13%nat /\
  String.length (trim (demo_unicode_text +:+ LF)) = 18%nat.
Proof.
  assert (Hq : exists q, quill (vars demo_unicode) = Some q /\
                         contents q = demo_doc demo_unicode_text)
    by (eexists; split; [vm_compute; reflexivity | reflexivity]).
  destruct Hq as (q & Hq & Hc).
  destruct (word_count_footer demo_unicode q Hq) as (n & m & H1 & Hn & Hm & _).
  rewrite Hc in Hn, Hm. rewrite H1, Hn, Hm. repeat split; vm_compute; reflexivity.
Defined.

Lemma load_without_record_witness :
  autoSaveStatus (page (world_of (loadSavedDocument false demo_page))) = "Autosave: Ready" /\
  vars (world_of (loadSavedDocument false demo_page)) = vars demo_page.
Proof.
  destruct (load_without_record demo_page false) as (_ & Hv & _ & _ & _ & _ & Hs).
  - vm_compute. reflexivity.
  - left. vm_compute. reflexivity.
  - split; [exact Hs | exact Hv].
Defined.

Lemma load_corrupted_record_witness :
  saved_record (world_of (loadSavedDocument true demo_page_malformed)) = None /\
  storage (world_of (loadSavedDocument false demo_page_malformed))
  = storage demo_page_malformed.
Proof.
  assert (Hq : quill (vars demo_page_malformed)
               = Some (mkEngine blank_document [] [] 0 [WordCountListener; AutosaveListener]))
    by (vm_compute; reflexivity).
  destruct (load_corrupted_record demo_page_malformed _ "{" Hq) as [Hyes Hno].
  - vm_compute. reflexivity.
  - vm_compute. reflexivity.
  - discriminate.
  - left. vm_compute. reflexivity.
  - destruct Hyes as (_ & H1 & _). destruct Hno as (_ & H2 & _).
    split; [exact H1 | exact H2].
Defined.

Lemma load_unrecognised_failure_witness :
  let w' := world_of (loadSavedDocument true demo_page_null) in
  storage w' = storage demo_page_null /\
  autoSaveStatus (page w') = "Autosave: ⚠ Error".
Proof.
  destruct (load_unrecognised_failure demo_page_null true) as (_ & H1 & _ & _ & H2 & _).
  - right. split; [vm_compute; reflexivity |].
    exists "null". split; [vm_compute; reflexivity |].
    split; [discriminate | vm_compute; reflexivity].
  - split; [exact H1 | exact H2].
Defined.

Lemma manual_load_escapes_witness :
  thrown (manualLoad true false demo_page_malformed)
  = Some (SyntaxError "Unexpected token in JSON") /\
  thrown (manualLoad true true demo_page_null)
  = Some (TypeError "Cannot read properties of null (reading 'timestamp')").
Proof.
  split.
  - rewrite (manual_load_escapes demo_page_malformed
               (mkEngine blank_document [] [] 0 [WordCountListener; AutosaveListener])
               "{" false).
    + vm_compute. reflexivity.
    + vm_compute. reflexivity.
    + vm_compute. reflexivity.
    + vm_compute. reflexivity.
    + discriminate.
  - rewrite (manual_load_escapes demo_page_null
               (mkEngine blank_document [] [] 0 [WordCountListener; AutosaveListener])
               "null" true).
    + vm_compute. reflexivity.
    + vm_compute. reflexivity.
    + vm_compute. reflexivity.
    + vm_compute. reflexivity.
    + discriminate.
Defined.

Lemma manual_load_reports_unloaded_record_witness :
  let w' := world_of (manualLoad true false demo_page_hollow) in
  vars w' = vars demo_page_hollow /\
  storage w' = storage demo_page_hollow /\
  exists ts,
    dialogs (out w')
    = dialogs (out demo_page_hollow) ++ [Confirm load_question true;
                                         Confirm corrupted_question false;
                                         Alert ("✅ Loaded document from " +:+ show_date ts)].
Proof.
  destruct (manual_load_reports_unloaded_record demo_page_hollow
              (mkEngine blank_document [] [] 0 [WordCountListener; AutosaveListener])
              "{}" (JObj []))
    as (_ & Hv & Hs & ts & _ & Hd).
  - vm_compute. reflexivity.
  - vm_compute. reflexivity.
  - vm_compute. reflexivity.
  - discriminate.
  - vm_compute. reflexivity.
  - discriminate.
  - vm_compute. reflexivity.
  - split; [exact Hv |]. split; [exact Hs |]. exists ts. exact Hd.
Defined.

Lemma save_never_throws_witness :
  let w := initial_world 1000 empty_store in
  thrown (performSave true w) = None /\
  storage (world_of (performSave false w)) = storage w /\
  autoSaveStatus (page (world_of (performSave false w))) = "Autosave: ⚠ Error".
Proof.
  intros w. destruct save_never_throws as [Hnever Hnone].
  split; [apply Hnever |].
  destruct (Hnone w false) as (H1 & H2 & _).
  - reflexivity.
  - split; [exact H1 | exact H2].
Defined.

Lemma clear_saved_document_witness :
  let w := world_of (performSave false demo_typing) in
  saved_record (world_of (clearSavedDocument true w)) = None /\
  vars (world_of (clearSavedDocument true w)) = vars w /\
  storage (world_of (clearSavedDocument false w)) = storage w.
Proof.
  intros w. destruct clear_saved_document as [Hyes Hno].
  destruct (Hyes w false) as (_ & H1 & _ & H2 & _).
  - subst w. vm_compute. reflexivity.
  - destruct (Hno w) as (_ & H3 & _).
    split; [exact H1 |]. split; [exact H2 | exact H3].
Defined.

Lemma theme_preference_roundtrip_witness :
  let w' := step ClickDarkMode demo_page in
  store_items (storage w') !! THEME_KEY = Some (theme_name (dark_mode (page w'))) /\
  dark_mode (page (page_load false (initial_world 5000 (storage w')))) = dark_mode (page w').
Proof.
  destruct (theme_preference_roundtrip demo_page 5000 false) as (_ & H1 & _ & _ & H2).
  - vm_compute. reflexivity.
  - split; [exact H1 | exact H2].
Defined.

Lemma theme_toggle_on_failing_store_witness :
  let w' := step ClickDarkMode demo_page_full in
  storage w' = storage demo_page_full /\
  uncaught (out w')
  = uncaught (out demo_page_full)
    ++ [mkError "QuotaExceededError" "The quota has been exceeded."].
Proof.
  destruct (theme_toggle_on_failing_store demo_page_full
              (mkError "QuotaExceededError" "The quota has been exceeded."))
    as (_ & H1 & H2).
  - vm_compute. reflexivity.
  - split; [exact H1 | exact H2].
Defined.

Lemma keyboard_shortcuts_witness :
  let busy := step (ClickExport long_render) demo_typing in
  keydown true "p" long_render FocusEditor busy = Ok FocusEditor busy /\
  keydown true "S" long_render FocusEditor demo_typing = Ok FocusEditor demo_typing /\
  keydown false "Escape" long_render FocusEditor demo_typing
  = Ok FocusNewDoc
      (upd_out (add_console LLog "⌨️ Escape pressed: Focus moved to toolbar") demo_typing).
Proof.
  intros busy.
  destruct keyboard_shortcuts as (_ & Hbusy & _ & Hesc & Hother).
  split; [| split].
  - apply Hbusy. subst busy. vm_compute. reflexivity.
  - apply Hother; [right; split; discriminate | discriminate].
  - destruct demo_typing_quill as (q & Hq & _).
    destruct (Hesc demo_typing q false long_render Hq) as [H1 _]. exact H1.
Defined.

Lemma export_click_enters_busy_state_witness :
  let w1 := step (ClickExport long_render) demo_typing in
  exportBtn_disabled (page w1) = true /\
  downloads (out w1) = downloads (out demo_typing) /\
  step (ClickExport failing_render) w1 = w1.
Proof.
  destruct demo_typing_quill as (q & Hq & _ & Hc & _).
  destruct (export_click_enters_busy_state demo_typing q long_render failing_render Hq)
    as (H1 & _ & _ & _ & H2 & _ & _ & H3 & _).
  - rewrite Hc. vm_compute. discriminate.
  - vm_compute. reflexivity.
  - split; [exact H1 |]. split; [exact H2 | exact H3].
Defined.

Lemma saved_status_lasts_three_seconds_witness :
  (let w1 := step ClickSave demo_page in
   autoSaveStatus (page (idle 2999 w1)) = "Autosave: ✓ Saved" /\
   autoSaveStatus (page (idle 3000 w1)) = "Autosave: Ready" /\
   saved_record (idle 3000 w1) = saved_record w1) /\
  (let w1 := step ClickSave demo_page_slow in
   now (loop w1) = now (loop demo_page_slow) + 5000 /\
   autoSaveStatus (page w1) = "Autosave: ✓ Saved" /\
   autoSaveStatus (page (idle 1 w1)) = "Autosave: Ready").
Proof.
  split.
  - destruct (saved_status_lasts_three_seconds demo_page _ demo_page_quill)
      as (_ & _ & H1 & _ & H2 & _ & H3 & _).
    + vm_compute. reflexivity.
    + rewrite demo_page_no_timer. constructor.
    + split; [apply (H1 2999%nat); vm_compute; reflexivity |]. split; [exact H2 | exact H3].
  - assert (Hq : quill (vars demo_page_slow) = quill (vars demo_page)) by reflexivity.
    rewrite demo_page_quill in Hq.
    destruct (saved_status_lasts_three_seconds demo_page_slow _ Hq)
      as (H0 & _ & _ & H1 & H2 & _).
    + vm_compute. reflexivity.
    + assert (Hts : timers (loop demo_page_slow) = []) by (vm_compute; reflexivity).
      rewrite Hts. constructor.
    + split; [exact H0 |]. split; [exact H1 | exact H2].
Defined.

Lemma typed_text_is_saved_witness :
  let d := demo_doc "Hello" in
  let w2 := idle 2000 (step (UserEdit d) demo_page) in
  saved_record w2
  = Some (JSON_stringify
            (JObj [("content", JObj [("ops", JArr d)]);
                   ("timestamp", JNum 3200);
                   ("version", JStr "1.0");
                   ("wordCount", JNum 1)])) /\
  document w2 = Some d /\
  autoSaveStatus (page w2) = "Autosave: ✓ Saved".
Proof.
  destruct (typed_text_is_saved demo_page _ (demo_doc "Hello")
              (reachable_idle 200 _ (reachable_page_load false 1000 empty_store))
              demo_page_quill)
    as (_ & H1 & H2 & H3 & _).
  - simpl. auto.
  - vm_compute. reflexivity.
  - vm_compute. reflexivity.
  - vm_compute. discriminate.
  - unfold others_later_than. rewrite demo_page_no_timer. constructor.
  - split; [rewrite H1; vm_compute; reflexivity |]. split; [exact H2 | exact H3].
Defined.


Lemma word_count_debouncer_coalesces_witness :
  let w1 := world_of (debouncedWordCountUpdate demo_page) in
  let w2 := world_of (debouncedWordCountUpdate (idle 100 w1)) in
  wordcount_calls (idle 299 w2) = wordcount_calls demo_page /\
  wordcount_calls (idle 300 w2)
  = wordcount_calls demo_page
    ++ [(now (loop demo_page) + Z.of_nat 100 + 300, CallUpdateWordCount)].
Proof.
  destruct (word_count_debouncer_coalesces demo_page _ 100 demo_page_quill)
    as (_ & H1 & H2 & _).
  - lia.
  - rewrite demo_page_no_timer. constructor.
  - split; [apply (H1 299%nat); lia | exact H2].
Defined.

Lemma store_keeps_foreign_keys_witness :
  store_items (storage (run [ClickSave; ClickDarkMode; Tick] demo_typing)) !! "notes"
  = store_items (storage demo_typing) !! "notes".
Proof. apply store_keeps_foreign_keys; discriminate. Defined.

Lemma handlers_keep_saved_record_witness :
  let w := world_of (performSave false demo_typing) in
  saved_record (step (ClickNew true) w) = saved_record w.
Proof. intros w. apply handlers_keep_saved_record. reflexivity. Defined.

Lemma no_exception_escapes_witness :
  uncaught (out (run [UserEdit (demo_doc "Hello"); Tick; ClickSave;
                      ClickExport failing_render; ClickNew true]
                     (page_load false (initial_world 1000 empty_store)))) = [].
Proof.
  destruct no_exception_escapes as [_ Hload].
  apply Hload; [reflexivity | repeat constructor].
Defined.

Lemma import_file_checks_witness :
  (exists w',
      handleFileSelect (fun _ => "10 Bytes") (Some demo_txt) true demo_ui demo_typing
      = Ok (resetFileInput demo_ui, None) w' /\
      vars w' = vars demo_typing) /\
  (exists w',
      handleFileSelect (fun _ => "20 MB") (Some demo_docx) true demo_ui demo_page
      = Ok (mkImportUi true "⏳ Importing..." (fileInput_value demo_ui),
            Some (importBtn_text demo_ui)) w' /\
      dialogs (out w') = dialogs (out demo_page)) /\
  (exists w',
      handleFileSelect (fun _ => "20 MB") (Some demo_docx) true demo_ui
        (initial_world 1000 empty_store)
      = Threw (TypeError "Cannot read properties of null") w' /\
      dialogs (out w') = []).
Proof.
  split; [| split].
  - destruct (import_file_checks (fun _ => "10 Bytes")) as (_ & Hrefuse & _).
    destruct (Hrefuse demo_txt true demo_ui demo_typing) as (w' & H1 & H2 & _).
    + left. vm_compute. reflexivity.
    + exists w'. split; [exact H1 | exact H2].
  - destruct (import_file_checks (fun _ => "20 MB")) as (_ & _ & Haccept & _).
    destruct (Haccept demo_docx true demo_ui demo_page
                (mkEngine blank_document [] [] 0 [WordCountListener; AutosaveListener]))
      as (w' & H1 & _ & _ & _ & _ & H2).
    + vm_compute. reflexivity.
    + vm_compute. discriminate.
    + exact demo_page_quill.
    + exists w'. split; [exact H1 |]. rewrite H2. apply app_nil_r.
  - destruct (import_file_checks (fun _ => "20 MB")) as (_ & _ & _ & Hnone).
    destruct (Hnone demo_docx true demo_ui (initial_world 1000 empty_store))
      as (w' & H1 & _ & _ & _ & _ & H2).
    + vm_compute. reflexivity.
    + vm_compute. discriminate.
    + reflexivity.
    + exists w'. split; [exact H1 | exact H2].
Defined.

Lemma import_outcome_witness :
  (let w' := world_of (import_converted (Returns (2048, [], demo_doc "Imported"))
                         "📥 Import" demo_ui demo_page) in
   quill (vars w')
   = Some (mkEngine (demo_doc "Imported") [] [] 0 [WordCountListener; AutosaveListener]) /\
   storage w' = storage demo_page /\
   dialogs (out w') = dialogs (out demo_page) ++ [Alert "✅ Document imported successfully!"]) /\
  (let w' := world_of (import_converted (Returns (2048, [], ([JNum 5] : Delta)))
                         "📥 Import" demo_ui demo_typing) in
   option_map contents (quill (vars w')) = Some blank_document /\
   option_map undo_stack (quill (vars w')) = Some [blank_document] /\
   timers (loop w') = timers (loop demo_typing) /\
   dialogs (out w')
   = dialogs (out demo_typing)
     ++ [Alert (import_failure_message
                  (TypeError "Cannot read properties of undefined (reading 'length')"))]).
Proof.
  destruct import_outcome as (_ & _ & _ & Hok & Hrej).
  split.
  - destruct (Hok 2048 [] (demo_doc "Imported") (demo_doc "Imported") "📥 Import" demo_ui
                demo_page _ demo_page_quill)
      as (H1 & H2 & _ & H3 & _).
    + vm_compute. reflexivity.
    + split; [exact H1 |]. split; [exact H2 | exact H3].
  - destruct demo_typing_quill as (q & Hq & _ & _ & Hu).
    destruct (Hrej 2048 [] [JNum 5]
                (TypeError "Cannot read properties of undefined (reading 'length')")
                "📥 Import" demo_ui demo_typing q Hq)
      as (H1 & _ & H2 & H3 & _).
    + vm_compute. reflexivity.
    + cbv zeta. rewrite H1. cbn [option_map contents undo_stack]. rewrite Hu.
      split; [vm_compute; reflexivity |]. split; [reflexivity |].
      split; [exact H2 | exact H3].
Defined.
